(** * build-webrtc.py: a shallow embedding and its properties

    The script sequences external tools (git, fetch, gclient, gn, ninja,
    lipo, xcodebuild, zip) around a handful of filesystem operations.  The
    embedding keeps Python's strings for paths and command lines, models
    the filesystem as a tree of files and directories, and threads a
    [World] through a small state/exception/output monad in which the
    external tools are an arbitrary oracle.

    Layout: Python strings and [posixpath]; the filesystem tree; the
    process monad; the library calls ([os], [shutil], [subprocess]); the
    script itself ([sh], [mkdirp], [rmr], [setup], [sync], [build] and the
    command line); a reference toolchain to run examples; the vocabulary of
    the properties; the properties.

    What the model leaves out: symbolic links, permissions and ownership,
    signals that arrive outside an external command, and the parsing of
    [sys.argv] by [argparse] (the model starts from the parsed flags). *)

From Stdlib Require Import String Ascii List ZArith Bool Lia.
Import ListNotations.
Open Scope string_scope.

(** ** Python strings *)

Module Py.

(** The double-quote character, for command lines that embed it. *)
Definition dquote : string :=
  String (Ascii false true false false false true false false) EmptyString.

Definition quoted (s : string) : string := dquote ++ s ++ dquote.

(** [sep.join(parts)] *)
Definition join (sep : string) (parts : list string) : string :=
  String.concat sep parts.

(** [s.split(sep)] for a one-character separator. *)
Fixpoint split_on (sep : ascii) (s : string) : list string :=
  match s with
  | EmptyString => [EmptyString]
  | String c s' =>
      if Ascii.eqb c sep then EmptyString :: split_on sep s'
      else match split_on sep s' with
           | [] => [String c EmptyString]
           | x :: xs => String c x :: xs
           end
  end.

Definition startswith (s p : string) : bool := String.prefix p s.

Fixpoint endswith_char (s : string) (c : ascii) : bool :=
  match s with
  | EmptyString => false
  | String a EmptyString => Ascii.eqb a c
  | String _ s' => endswith_char s' c
  end.

(** [str(b).lower()] *)
Definition str_bool_lower (b : bool) : string :=
  if b then "true" else "false".

(** [template % args] restricted to the [%s] conversion, the only one the
    script uses.  [None] is Python's [TypeError] (too few or too many
    arguments) or a conversion outside this fragment. *)
Fixpoint format (template : string) (args : list string) : option string :=
  match template with
  | EmptyString => match args with [] => Some EmptyString | _ :: _ => None end
  | String c rest =>
      if Ascii.eqb c "%"%char then
        match rest with
        | String d rest' =>
            if Ascii.eqb d "s"%char then
              match args with
              | [] => None
              | a :: args' =>
                  match format rest' args' with
                  | Some r => Some (a ++ r)
                  | None => None
                  end
              end
            else None
        | EmptyString => None
        end
      else
        match format rest args with
        | Some r => Some (String c r)
        | None => None
        end
  end.

End Py.

(** ** Paths (posixpath) *)

Module Path.

Definition slash : ascii := "/"%char.

Definition is_abs (p : string) : bool :=
  match p with
  | String c _ => Ascii.eqb c slash
  | EmptyString => false
  end.

(** One step of [os.path.join]: an absolute right operand replaces the
    accumulated path; otherwise a single separator is inserted unless the
    accumulated path is empty or already ends with one. *)
Definition join2 (a b : string) : string :=
  if is_abs b then b
  else if (String.eqb a "" || Py.endswith_char a slash)%bool then a ++ b
  else a ++ "/" ++ b.

Definition join (a : string) (rest : list string) : string :=
  fold_left join2 rest a.

Definition components (p : string) : list string := Py.split_on slash p.

(** [os.path.basename]: what follows the last separator. *)
Definition basename (p : string) : string := last (components p) "".

(** Resolution of one component against the directory stack walked so far:
    empty and dot components are skipped, a double dot pops.  There are no
    symbolic links in the model, so this is both what [normpath] computes
    and what the kernel resolves when the intermediate directories exist. *)
Definition step (stack : list string) (c : string) : list string :=
  if String.eqb c "" then stack
  else if String.eqb c "." then stack
  else if String.eqb c ".." then removelast stack
  else stack ++ [c].

(** The component list of [p] seen from working directory [cwd]. *)
Definition resolve (cwd : list string) (p : string) : list string :=
  fold_left step (components p) (if is_abs p then [] else cwd).

(** The string of an absolute component list. *)
Definition render (cs : list string) : string := "/" ++ Py.join "/" cs.

(** The root [os.path.normpath] keeps in front of an absolute path: exactly
    two leading slashes stay two, any other number becomes one. *)
Definition root_of (p : string) : string :=
  match p with
  | String a (String b rest) =>
      if (Ascii.eqb a slash && Ascii.eqb b slash && negb (is_abs rest))%bool
      then "//" else "/"
  | _ => "/"
  end.

(** [os.path.abspath(p)] in working directory [cwd]: a relative path is
    joined onto the working directory, then [normpath] drops the empty and
    dot components and resolves [..] by what is written, without looking at
    the filesystem. *)
Definition abspath (cwd : list string) (p : string) : string :=
  (if is_abs p then root_of p else "/") ++ Py.join "/" (resolve cwd p).

End Path.

(** ** The filesystem: a tree of files and directories

    Paths are lists of components below the root.  The operations return
    the [errno] the kernel would report for the failures a tree can
    exhibit: a missing entry, a regular file where a directory is needed,
    an entry that is already there. *)

Module FS.

Inductive errno : Type :=
| ENOENT | EEXIST | ENOTDIR | EISDIR | ENOTEMPTY | EINVAL | EBUSY | EACCES.

Definition errno_eqb (a b : errno) : bool :=
  match a, b with
  | ENOENT, ENOENT | EEXIST, EEXIST | ENOTDIR, ENOTDIR | EISDIR, EISDIR
  | ENOTEMPTY, ENOTEMPTY | EINVAL, EINVAL | EBUSY, EBUSY
  | EACCES, EACCES => true
  | _, _ => false
  end.

#[local] Set Warnings "-register-all".
Inductive node : Type :=
| File (data : string)
| Dir (entries : list (string * node)).
#[local] Set Warnings "register-all".

Section Assoc.
Context {A : Type}.

Fixpoint assoc (k : string) (l : list (string * A)) : option A :=
  match l with
  | [] => None
  | (k', v) :: l' => if String.eqb k k' then Some v else assoc k l'
  end.

(** Replace the binding of [k], or add it after the existing entries. *)
Fixpoint assoc_set (k : string) (v : A) (l : list (string * A))
  : list (string * A) :=
  match l with
  | [] => [(k, v)]
  | (k', v') :: l' =>
      if String.eqb k k' then (k, v) :: l'
      else (k', v') :: assoc_set k v l'
  end.

(** Drop every binding of [k]. *)
Fixpoint assoc_del (k : string) (l : list (string * A))
  : list (string * A) :=
  match l with
  | [] => []
  | (k', v') :: l' =>
      if String.eqb k k' then assoc_del k l'
      else (k', v') :: assoc_del k l'
  end.
End Assoc.

(** [lstat]: walk the components down from the root.  A missing entry is
    [ENOENT]; walking through a regular file is [ENOTDIR]. *)
Fixpoint lstat (p : list string) (n : node) : errno + node :=
  match p with
  | [] => inr n
  | c :: p' =>
      match n with
      | File _ => inl ENOTDIR
      | Dir es =>
          match assoc c es with
          | None => inl ENOENT
          | Some m => lstat p' m
          end
      end
  end.

Definition lookup (p : list string) (n : node) : option node :=
  match lstat p n with
  | inr m => Some m
  | inl _ => None
  end.

Definition is_dir (p : list string) (n : node) : bool :=
  match lookup p n with
  | Some (Dir _) => true
  | _ => false
  end.

Definition exists_ (p : list string) (n : node) : bool :=
  match lookup p n with
  | Some _ => true
  | None => false
  end.

(** Path resolution as the kernel does it, one component at a time from
    the directory [at_]: a component is looked up in the directory reached
    so far, which must be there and be a directory; [.] stays in it and
    [..] moves to its parent (the root is its own parent).  The answer is
    the place the walk ends at, itself not yet looked up. *)
Fixpoint walk (comps : list string) (at_ : list string) (n : node)
  : errno + list string :=
  match comps with
  | [] => inr at_
  | c :: comps' =>
      if String.eqb c "" then walk comps' at_ n
      else
        match lstat at_ n with
        | inl e => inl e
        | inr (File _) => inl ENOTDIR
        | inr (Dir _) =>
            if String.eqb c "." then walk comps' at_ n
            else if String.eqb c ".." then walk comps' (removelast at_) n
            else walk comps' (at_ ++ [c]) n
        end
  end.

(** A chain of fresh empty directories. *)
Fixpoint fresh (p : list string) : node :=
  match p with
  | [] => Dir []
  | c :: p' => Dir [(c, fresh p')]
  end.

(** [os.makedirs(p)]: create the leaf and every missing ancestor.  An
    existing leaf (file or directory) is [EEXIST]; a regular file on the
    way is [ENOTDIR]. *)
Fixpoint mkdirs (p : list string) (n : node) : errno + node :=
  match n with
  | File _ => inl (match p with [] => EEXIST | _ :: _ => ENOTDIR end)
  | Dir es =>
      match p with
      | [] => inl EEXIST
      | c :: p' =>
          match assoc c es with
          | None => inr (Dir (es ++ [(c, fresh p')]))
          | Some m =>
              match mkdirs p' m with
              | inl e => inl e
              | inr m' => inr (Dir (assoc_set c m' es))
              end
          end
      end
  end.

(** Remove the entry at [p], whatever it is (used by [rmtree], [unlink]
    and [rename] once their own checks have passed). *)
Fixpoint remove (p : list string) (n : node) : node :=
  match p with
  | [] => n
  | c :: p' =>
      match n with
      | File d => File d
      | Dir es =>
          match p' with
          | [] => Dir (assoc_del c es)
          | _ :: _ =>
              match assoc c es with
              | None => Dir es
              | Some m => Dir (assoc_set c (remove p' m) es)
              end
          end
      end
  end.

(** [shutil.rmtree(p)]: the path must name a directory.  The root itself
    is refused ([EBUSY]) and nothing below it is touched. *)
Definition rmtree (p : list string) (n : node) : errno + node :=
  match p with
  | [] => inl EBUSY
  | _ :: _ =>
      match lstat p n with
      | inl e => inl e
      | inr (File _) => inl ENOTDIR
      | inr (Dir _) => inr (remove p n)
      end
  end.

(** Put [x] at [p]: the parent must be an existing directory; an existing
    entry of that name is replaced. *)
Fixpoint place (p : list string) (x : node) (n : node) : errno + node :=
  match p with
  | [] => inr x
  | c :: p' =>
      match n with
      | File _ => inl ENOTDIR
      | Dir es =>
          match p' with
          | [] => inr (Dir (assoc_set c x es))
          | _ :: _ =>
              match assoc c es with
              | None => inl ENOENT
              | Some m =>
                  match place p' x m with
                  | inl e => inl e
                  | inr m' => inr (Dir (assoc_set c m' es))
                  end
              end
          end
      end
  end.

(** Replace the subtree at an existing path (a tree with the path missing
    is left as it is). *)
Fixpoint graft (p : list string) (x : node) (n : node) : node :=
  match p with
  | [] => x
  | c :: p' =>
      match n with
      | File d => File d
      | Dir es =>
          match assoc c es with
          | None => Dir es
          | Some m => Dir (assoc_set c (graft p' x m) es)
          end
      end
  end.

Definition read_file (p : list string) (n : node) : errno + string :=
  match lstat p n with
  | inl e => inl e
  | inr (File d) => inr d
  | inr (Dir _) => inl EISDIR
  end.

(** Open for writing (create or truncate) and store [d]. *)
Definition write_file (p : list string) (d : string) (n : node)
  : errno + node :=
  match p with
  | [] => inl EISDIR
  | _ :: _ =>
      match lstat p n with
      | inr (Dir _) => inl EISDIR
      | _ => place p (File d) n
      end
  end.

Fixpoint path_eqb (p q : list string) : bool :=
  match p, q with
  | [], [] => true
  | a :: p', b :: q' => String.eqb a b && path_eqb p' q'
  | _, _ => false
  end.

Fixpoint is_prefix_of (p q : list string) : bool :=
  match p, q with
  | [], _ => true
  | a :: p', b :: q' => String.eqb a b && is_prefix_of p' q'
  | _ :: _, [] => false
  end.

(** [os.rename(src, dst)] within the one filesystem of the model. *)
Definition rename (src dst : list string) (n : node) : errno + node :=
  match lstat src n with
  | inl e => inl e
  | inr x =>
      match src with
      | [] => inl EBUSY
      | _ :: _ =>
          if path_eqb src dst then inr n
          else if is_prefix_of src dst then inl EINVAL
          else
            match x, lstat dst n with
            | _, inl ENOENT => place dst x (remove src n)
            | _, inl e => inl e
            | File _, inr (File _) => place dst x (remove src n)
            | File _, inr (Dir _) => inl EISDIR
            | Dir _, inr (File _) => inl ENOTDIR
            | Dir _, inr (Dir []) => place dst x (remove src n)
            | Dir _, inr (Dir (_ :: _)) => inl ENOTEMPTY
            end
      end
  end.

End FS.

(** ** The process: world, exceptions, events, and the monad *)

Definition Env : Type := list (string * string).

(** What one run of the script can see and change.  [ext] is the state of
    everything outside the script (the tools, the network, the user at the
    keyboard); only the tool oracle reads or writes it. *)
Record World (O : Type) : Type := mkWorld {
  fs : FS.node;
  cwd : list string;
  environ : Env;
  ext : O
}.
Arguments mkWorld {O}.
Arguments fs {O}.
Arguments cwd {O}.
Arguments environ {O}.
Arguments ext {O}.

(** The arguments [sh] hands to [subprocess.check_call]. *)
Record Cmd : Type := mkCmd {
  cmd_line : string;
  cmd_env : option Env;
  cmd_cwd : option string
}.

(** How a spawned command ends, as [check_call] observes it. *)
Inductive cmd_result : Type :=
| Returned (returncode : Z)
| Interrupted
| SpawnFailed (e : FS.errno).

(** An external toolchain: given the command and the world it starts in,
    how it ends, the filesystem it leaves, and the new outside state. *)
Definition Tools (O : Type) : Type :=
  Cmd -> World O -> cmd_result * FS.node * O.

Inductive exn : Type :=
| SystemExit (code : Z)
| CalledProcessError (returncode : Z)
| KeyboardInterrupt
| OSError (e : FS.errno)
| ShutilError (msg : string)
| KeyError (key : string)
| ValueError
| IndexError
| TypeError.

Inductive outcome (A : Type) : Type :=
| Ok (a : A)
| Raise (e : exn).
Arguments Ok {A}.
Arguments Raise {A}.

Inductive event : Type :=
| EvPrint (line : string)
| EvExec (c : Cmd) (before : FS.node) (r : cmd_result) (after : FS.node).

(** The command lines of a trace, in order. *)
Fixpoint command_lines (es : list event) : list string :=
  match es with
  | [] => []
  | EvPrint _ :: es' => command_lines es'
  | EvExec c _ _ _ :: es' => cmd_line c :: command_lines es'
  end.

(** A computation emits events, changes the world, and returns or raises.
    The world survives an exception: it is what the process leaves behind. *)
Definition M (O A : Type) : Type :=
  World O -> list event * World O * outcome A.

Definition ret {O A} (a : A) : M O A := fun w => ([], w, Ok a).

Definition bind {O A B} (m : M O A) (f : A -> M O B) : M O B :=
  fun w =>
    match m w with
    | (es, w', Ok a) =>
        match f a w' with
        | (es', w'', r) => ((es ++ es')%list, w'', r)
        end
    | (es, w', Raise e) => (es, w', Raise e)
    end.

Definition raise {O A} (e : exn) : M O A := fun w => ([], w, Raise e).

(** [try: m except ...: h e] where [h] re-raises what it does not handle. *)
Definition try_except {O A} (m : M O A) (h : exn -> M O A) : M O A :=
  fun w =>
    match m w with
    | (es, w', Ok a) => (es, w', Ok a)
    | (es, w', Raise e) =>
        match h e w' with
        | (es', w'', r) => ((es ++ es')%list, w'', r)
        end
    end.

Declare Scope py_scope.
Delimit Scope py_scope with py.
Notation "x <- m ;; k" := (bind m (fun x => k))
  (at level 100, m at next level, right associativity) : py_scope.
Notation "' pat <- m ;; k" := (bind m (fun x => match x with pat => k end))
  (at level 100, pat pattern, m at next level, right associativity) : py_scope.
Notation "m ;; k" := (bind m (fun _ => k))
  (at level 100, right associativity) : py_scope.
Open Scope py_scope.

Definition print {O} (line : string) : M O unit :=
  fun w => ([EvPrint line], w, Ok tt).

Definition sys_exit {O A} (code : Z) : M O A := raise (SystemExit code).

Definition of_option {O A} (e : exn) (x : option A) : M O A :=
  match x with
  | Some a => ret a
  | None => raise e
  end.

(** [for x in l: body x] *)
Fixpoint for_each {O A} (l : list A) (body : A -> M O unit) : M O unit :=
  match l with
  | [] => ret tt
  | x :: l' => body x ;; for_each l' body
  end.

(** A loop that appends one computed value per element. *)
Fixpoint map_m {O A B} (f : A -> M O B) (l : list A) : M O (list B) :=
  match l with
  | [] => ret []
  | x :: l' => y <- f x ;; ys <- map_m f l' ;; ret (y :: ys)
  end.

(** A loop that updates one local variable. *)
Fixpoint fold_m {O A B} (f : B -> A -> M O B) (l : list A) (b : B) : M O B :=
  match l with
  | [] => ret b
  | x :: l' => b' <- f b x ;; fold_m f l' b'
  end.

(** [a, b = xs] *)
Definition unpack2 {O} (xs : list string) : M O (string * string) :=
  match xs with
  | [a; b] => ret (a, b)
  | _ => raise ValueError
  end.

(** [xs[0]] *)
Definition index0 {O} (xs : list string) : M O string :=
  of_option IndexError (hd_error xs).

(** ** The library calls the script makes *)

Module OS.
Section Calls.
Context {O : Type}.

(** Where a path string points, by what is written: [.] is skipped and
    [..] cancels the component before it.  This is the kernel's answer for
    the paths the script composes (no [.] or [..] in them, see
    [stat_isdir_dot_free]); a path typed by the user goes through
    [stat_isdir] first.  The empty path names nothing. *)
Definition locate (w : World O) (p : string) : option (list string) :=
  if String.eqb p "" then None else Some (Path.resolve (cwd w) p).

Definition set_fs (w : World O) (n : FS.node) : World O :=
  mkWorld n (cwd w) (environ w) (ext w).

Definition isdir_in (w : World O) (p : string) : bool :=
  match locate w p with
  | Some cs => FS.is_dir cs (fs w)
  | None => false
  end.

Definition path_isdir (p : string) : M O bool :=
  fun w => ([], w, Ok (isdir_in w p)).

(** [os.path.isdir] on a path as it was typed on the command line, which
    may hold [.] and [..]: [stat] walks it as the kernel does, so that a
    [..] after something that is not an existing directory fails where
    [locate] would cancel the two.  On the paths the script makes up
    itself ([abspath] output joined with plain names, plain relative names)
    the two tests agree; those calls use [path_isdir]. *)
Definition stat_isdir (w : World O) (p : string) : bool :=
  if String.eqb p "" then false
  else
    match FS.walk (Path.components p)
            (if Path.is_abs p then [] else cwd w) (fs w) with
    | inr cs => FS.is_dir cs (fs w)
    | inl _ => false
    end.

Definition path_isdir_walk (p : string) : M O bool :=
  fun w => ([], w, Ok (stat_isdir w p)).

Definition path_exists (p : string) : M O bool :=
  fun w => ([], w, Ok match locate w p with
                      | Some cs => FS.exists_ cs (fs w)
                      | None => false
                      end).

(** [os.path.abspath] *)
Definition path_abspath (p : string) : M O string :=
  fun w => ([], w, Ok (Path.abspath (cwd w) p)).

(** A filesystem update at one path; an error leaves the world as it
    was and is raised as [OSError]. *)
Definition update (op : list string -> FS.node -> FS.errno + FS.node)
    (p : string) : M O unit :=
  fun w =>
    match locate w p with
    | None => ([], w, Raise (OSError FS.ENOENT))
    | Some cs =>
        match op cs (fs w) with
        | inl e => ([], w, Raise (OSError e))
        | inr n => ([], set_fs w n, Ok tt)
        end
    end.

Definition makedirs (p : string) : M O unit := update FS.mkdirs p.

Definition rmtree (p : string) : M O unit := update FS.rmtree p.

Definition unlink (p : string) : M O unit :=
  update (fun cs n =>
            match FS.lstat cs n with
            | inl e => inl e
            | inr (FS.Dir _) => inl FS.EISDIR
            | inr (FS.File _) => inr (FS.remove cs n)
            end) p.

Definition chdir (p : string) : M O unit :=
  fun w =>
    match locate w p with
    | None => ([], w, Raise (OSError FS.ENOENT))
    | Some cs =>
        match FS.lstat cs (fs w) with
        | inl e => ([], w, Raise (OSError e))
        | inr (FS.File _) => ([], w, Raise (OSError FS.ENOTDIR))
        | inr (FS.Dir _) =>
            ([], mkWorld (fs w) cs (environ w) (ext w), Ok tt)
        end
    end.

Definition read (p : string) : M O string :=
  fun w =>
    match locate w p with
    | None => ([], w, Raise (OSError FS.ENOENT))
    | Some cs =>
        match FS.read_file cs (fs w) with
        | inl e => ([], w, Raise (OSError e))
        | inr d => ([], w, Ok d)
        end
    end.

Definition same_file (a b : string) : M O bool :=
  fun w => ([], w, Ok match locate w a, locate w b with
                      | Some ca, Some cb =>
                          FS.exists_ ca (fs w) && FS.path_eqb ca cb
                      | _, _ => false
                      end).

(** [shutil.copyfile] *)
Definition copyfile (src dst : string) : M O unit :=
  same <- same_file src dst ;;
  if same then raise (ShutilError "same file")
  else d <- read src ;; update (fun cs => FS.write_file cs d) dst.

(** [shutil.copy(src, dst)]: into the directory [dst] under the source's
    base name, or onto the file [dst]. *)
Definition copy (src dst : string) : M O unit :=
  d <- path_isdir dst ;;
  copyfile src (if d then Path.join dst [Path.basename src] else dst).

(** [shutil.copytree(src, dst)]: [src] is listed first, then [dst] is
    created and must not exist. *)
Definition copytree (src dst : string) : M O unit :=
  fun w =>
    match locate w src with
    | None => ([], w, Raise (OSError FS.ENOENT))
    | Some cs =>
        match FS.lstat cs (fs w) with
        | inl e => ([], w, Raise (OSError e))
        | inr (FS.File _) => ([], w, Raise (OSError FS.ENOTDIR))
        | inr (FS.Dir es) =>
            (makedirs dst ;;
             update (fun cd => FS.place cd (FS.Dir es)) dst) w
        end
    end.

Definition rename (src dst : string) : M O unit :=
  fun w =>
    match locate w src, locate w dst with
    | Some cs, Some cd =>
        match FS.rename cs cd (fs w) with
        | inl e => ([], w, Raise (OSError e))
        | inr n => ([], set_fs w n, Ok tt)
        end
    | _, _ => ([], w, Raise (OSError FS.ENOENT))
    end.

Definition dest_in_src (src dst : string) : M O bool :=
  fun w => ([], w, Ok match locate w src, locate w dst with
                      | Some cs, Some cd => FS.is_prefix_of cs cd
                      | _, _ => false
                      end).

(** [shutil.move(src, dst)]: into an existing directory [dst], else onto
    [dst]; a rename first, and a copy-then-delete when the rename fails. *)
Definition move (src dst : string) : M O unit :=
  d <- path_isdir dst ;;
  real_dst <-
    (if d then
       let r := Path.join dst [Path.basename src] in
       e <- path_exists r ;;
       if e then raise (ShutilError "Destination path already exists")
       else ret r
     else ret dst) ;;
  try_except (rename src real_dst)
    (fun e =>
       match e with
       | OSError _ =>
           sd <- path_isdir src ;;
           if sd then
             inside <- dest_in_src src dst ;;
             if inside
             then raise (ShutilError "Cannot move a directory into itself")
             else copytree src real_dst ;; rmtree src
           else copyfile src real_dst ;; unlink src
       | _ => raise e
       end).

(** [os.environ.copy()] *)
Definition environ_copy : M O Env := fun w => ([], w, Ok (environ w)).

(** [d[k]] *)
Definition dict_get (d : Env) (k : string) : M O string :=
  of_option (KeyError k) (FS.assoc k d).

(** [subprocess.check_call(cmd, env=env, cwd=cwd, shell=True, ...)] *)
Definition check_call (tools : Tools O) (c : Cmd) : M O unit :=
  fun w =>
    match tools c w with
    | (r, n, o) =>
        ([EvExec c (fs w) r n],
         mkWorld n (cwd w) (environ w) o,
         match r with
         | Returned rc =>
             if (rc =? 0)%Z then Ok tt else Raise (CalledProcessError rc)
         | Interrupted => Raise KeyboardInterrupt
         | SpawnFailed e => Raise (OSError e)
         end)
    end.

End Calls.
End OS.

(** ** The script *)

(** *** Constants *)

Definition APPLE_FRAMEWORK_NAME : string := "WebRTC.framework".
Definition APPLE_DSYM_NAME : string := "WebRTC.dSYM".

Definition ANDROID_CPU_ABI_MAP : list (string * string) :=
  [ ("arm", "armeabi-v7a");
    ("arm64", "arm64-v8a");
    ("x86", "x86");
    ("x64", "x86_64") ].
Definition ANDROID_BUILD_CPUS : list string := ["arm"; "arm64"; "x86"; "x64"].
Definition IOS_BUILD_ARCHS : list string :=
  ["device:arm64"; "simulator:arm64"; "simulator:x64"].
Definition MACOS_BUILD_ARCHS : list string := ["arm64"; "x64"].

Definition LDFLAG_COMMON_PAGE_SIZE : string := "-Wl,-z,common-page-size=4096".
Definition LDFLAG_MAX_PAGE_SIZE : string := "-Wl,-z,max-page-size=16384".

Definition ANDROID_PAGE_SIZE_LDFLAGS : list string :=
  [ "extra_ldflags=[" ++ Py.quoted LDFLAG_COMMON_PAGE_SIZE ++ ","
      ++ Py.quoted LDFLAG_MAX_PAGE_SIZE ++ "]" ].

Definition GN_COMMON_ARGS : list string :=
  [ "rtc_libvpx_build_vp9=true";
    "rtc_enable_protobuf=false";
    "rtc_include_tests=false";
    "is_debug=%s";
    "target_cpu=" ++ Py.quoted "%s" ].

Definition build_gn_args (platform_args : list string) : string :=
  "--args='" ++ Py.join " " (GN_COMMON_ARGS ++ platform_args) ++ "'".

Definition _GN_APPLE_COMMON : list string :=
  [ "enable_dsyms=true";
    "enable_stripping=true";
    "rtc_enable_symbol_export=false";
    "rtc_enable_objc_symbol_export=true" ].

Definition _GN_IOS_ARGS : list string :=
  [ "ios_deployment_target=" ++ Py.quoted "12.0";
    "ios_enable_code_signing=false";
    "target_os=" ++ Py.quoted "ios";
    "target_environment=" ++ Py.quoted "%s" ].
Definition GN_IOS_ARGS : string := build_gn_args (_GN_APPLE_COMMON ++ _GN_IOS_ARGS).

Definition _GN_MACOS_ARGS : list string := [ "target_os=" ++ Py.quoted "mac" ].
Definition GN_MACOS_ARGS : string :=
  build_gn_args (_GN_APPLE_COMMON ++ _GN_MACOS_ARGS).

Definition _GN_ANDROID_ARGS : list string :=
  [ "target_os=" ++ Py.quoted "android" ] ++ ANDROID_PAGE_SIZE_LDFLAGS.
Definition GN_ANDROID_ARGS : string := build_gn_args _GN_ANDROID_ARGS.

(** The platform string [main] computes: ['ios' if args.ios else 'android']. *)
Inductive Platform : Type := Ios | Android.

Definition platform_name (p : Platform) : string :=
  match p with
  | Ios => "ios"
  | Android => "android"
  end.

(** *** Names derived from mode and architecture *)

Definition build_type_of (debug : bool) : string :=
  if debug then "Debug" else "Release".

(** [f'out/{build_type}-ios-{tenv}-{arch}'] *)
Definition ios_gn_out_dir (build_type tenv arch : string) : string :=
  "out/" ++ build_type ++ "-ios-" ++ tenv ++ "-" ++ arch.

(** [f'out/{build_type}-macos-{arch}'] *)
Definition macos_gn_out_dir (build_type arch : string) : string :=
  "out/" ++ build_type ++ "-macos-" ++ arch.

(** [f'out/{build_type}-{cpu}'] *)
Definition android_gn_out_dir (build_type cpu : string) : string :=
  "out/" ++ build_type ++ "-" ++ cpu.

(** [GN_ANDROID_ARGS % (str(debug).lower(), cpu)] *)
Definition android_gn_args (debug : bool) (cpu : string) : option string :=
  Py.format GN_ANDROID_ARGS [Py.str_bool_lower debug; cpu].

(** [f'gn gen {gn_out_dir} {gn_args}'] of the Android loop. *)
Definition android_gn_gen_cmd (debug : bool) (cpu : string) : option string :=
  match android_gn_args debug cpu with
  | Some gn_args =>
      Some ("gn gen " ++ android_gn_out_dir (build_type_of debug) cpu
              ++ " " ++ gn_args)
  | None => None
  end.

Definition ZIP_ANDROID_CMD : string := "zip -r android-webrtc.zip *".
Definition GIT_CLONE_CMD : string :=
  "git clone https://chromium.googlesource.com/chromium/tools/depot_tools.git".
Definition fetch_cmd (platform : Platform) : string :=
  "fetch --nohooks webrtc_" ++ platform_name platform.

(** The parsed command line ([argparse]'s namespace). *)
Record Args : Type := mkArgs {
  arg_dir : string;
  arg_setup : bool;
  arg_build : bool;
  arg_sync : bool;
  arg_ios : bool;
  arg_android : bool;
  arg_debug : bool
}.

(** [sum([...])] over booleans. *)
Definition sum_bools (bs : list bool) : Z :=
  fold_right (fun (b : bool) acc => ((if b then 1 else 0) + acc)%Z) 0%Z bs.

Definition completed (what : string) (platform : Platform)
    (target_dir : string) : string :=
  "WebRTC " ++ what ++ " for " ++ platform_name platform
    ++ " completed in " ++ target_dir.

Section Script.
Context {O : Type} (tools : Tools O).

(** *** Helpers *)

Definition sh (cmd : string) (env : option Env) (cwd : option string)
  : M O unit :=
  print ("Running cmd: " ++ cmd) ;;
  try_except (OS.check_call tools (mkCmd cmd env cwd))
    (fun e =>
       match e with
       | CalledProcessError returncode => sys_exit returncode
       | KeyboardInterrupt => ret tt
       | _ => raise e
       end).

Definition mkdirp (path : string) : M O unit :=
  try_except (OS.makedirs path)
    (fun e =>
       match e with
       | OSError errno =>
           if negb (FS.errno_eqb errno FS.EEXIST) then raise e else ret tt
       | _ => raise e
       end).

Definition rmr (path : string) : M O unit :=
  try_except (OS.rmtree path)
    (fun e =>
       match e with
       | OSError errno =>
           if negb (FS.errno_eqb errno FS.ENOENT) then raise e else ret tt
       | _ => raise e
       end).

(** *** setup *)

Definition setup (target_dir : string) (platform : Platform) : M O unit :=
  mkdirp target_dir ;;
  OS.chdir target_dir ;;
  let depot_tools_dir := Path.join target_dir ["depot_tools"] in
  have_depot_tools <- OS.path_isdir depot_tools_dir ;;
  (if negb have_depot_tools then
     print "Fetching Chromium depot_tools..." ;;
     sh GIT_CLONE_CMD None None
   else ret tt) ;;
  env0 <- OS.environ_copy ;;
  path0 <- OS.dict_get env0 "PATH" ;;
  let env := FS.assoc_set "PATH" (path0 ++ ":" ++ depot_tools_dir) env0 in
  let webrtc_dir := Path.join target_dir ["webrtc"; platform_name platform] in
  have_webrtc <- OS.path_isdir webrtc_dir ;;
  (if negb have_webrtc then
     mkdirp webrtc_dir ;;
     OS.chdir webrtc_dir ;;
     print ("Fetching WebRTC for " ++ platform_name platform ++ "...") ;;
     sh (fetch_cmd platform) (Some env) None
   else ret tt) ;;
  sh "gclient sync" (Some env) None ;;
  match platform with
  | Android =>
      let webrtc_dir :=
        Path.join target_dir ["webrtc"; platform_name platform; "src"] in
      OS.chdir webrtc_dir ;;
      sh "./build/install-build-deps.sh" None None
  | Ios => ret tt
  end.

(** The environment [sync] and [build] both prepare: [PATH] extended with
    depot_tools and, for Android, the SDK tool directories. *)
Definition action_env (platform : Platform)
    (depot_tools_dir webrtc_dir : string) : M O Env :=
  env0 <- OS.environ_copy ;;
  path0 <- OS.dict_get env0 "PATH" ;;
  let path_parts := [path0; depot_tools_dir] in
  let path_parts :=
    match platform with
    | Android =>
        let android_sdk_root :=
          Path.join webrtc_dir ["third_party/android_sdk/public"] in
        (path_parts
           ++ [Path.join android_sdk_root ["platform-tools"]]
           ++ [Path.join android_sdk_root ["tools"]]
           ++ [Path.join webrtc_dir ["build/android"]])%list
    | Ios => path_parts
    end in
  ret (FS.assoc_set "PATH" (Py.join ":" path_parts) env0).

Definition SOURCE_NOT_FOUND : string :=
  "WebRTC source not found, did you forget to run --setup?".

(** *** sync *)

Definition sync (target_dir : string) (platform : Platform) : M O unit :=
  let depot_tools_dir := Path.join target_dir ["depot_tools"] in
  let webrtc_dir :=
    Path.join target_dir ["webrtc"; platform_name platform; "src"] in
  have_src <- OS.path_isdir webrtc_dir ;;
  (if negb have_src then print SOURCE_NOT_FOUND ;; sys_exit 1 else ret tt) ;;
  env <- action_env platform depot_tools_dir webrtc_dir ;;
  OS.chdir webrtc_dir ;;
  sh "gclient sync -D" (Some env) None.

(** *** build *)

Definition is_simulator (item : string) : bool :=
  Py.startswith item "simulator".

(** The [gn gen] loops. *)
Definition build_generate (platform : Platform) (build_type : string)
    (debug : bool) (env : Env) : M O unit :=
  match platform with
  | Ios =>
      for_each IOS_BUILD_ARCHS (fun item =>
        '(tenv, arch) <- unpack2 (Py.split_on ":" item) ;;
        let gn_out_dir := ios_gn_out_dir build_type tenv arch in
        gn_args <- of_option TypeError
          (Py.format GN_IOS_ARGS [Py.str_bool_lower debug; arch; tenv]) ;;
        sh ("gn gen " ++ gn_out_dir ++ " " ++ gn_args) (Some env) None) ;;
      for_each MACOS_BUILD_ARCHS (fun arch =>
        let gn_out_dir := macos_gn_out_dir build_type arch in
        gn_args <- of_option TypeError
          (Py.format GN_MACOS_ARGS [Py.str_bool_lower debug; arch]) ;;
        sh ("gn gen " ++ gn_out_dir ++ " " ++ gn_args) (Some env) None)
  | Android =>
      for_each ANDROID_BUILD_CPUS (fun cpu =>
        let gn_out_dir := android_gn_out_dir build_type cpu in
        gn_args <- of_option TypeError (android_gn_args debug cpu) ;;
        sh ("gn gen " ++ gn_out_dir ++ " " ++ gn_args) (Some env) None)
  end.

(** The [ninja] loops. *)
Definition build_compile (platform : Platform) (build_type : string)
    (env : Env) : M O unit :=
  match platform with
  | Ios =>
      for_each IOS_BUILD_ARCHS (fun item =>
        '(tenv, arch) <- unpack2 (Py.split_on ":" item) ;;
        let gn_out_dir := ios_gn_out_dir build_type tenv arch in
        sh ("ninja -C " ++ gn_out_dir ++ " framework_objc") (Some env) None) ;;
      for_each MACOS_BUILD_ARCHS (fun arch =>
        let gn_out_dir := macos_gn_out_dir build_type arch in
        sh ("ninja -C " ++ gn_out_dir ++ " mac_framework_objc")
          (Some env) None)
  | Android =>
      for_each ANDROID_BUILD_CPUS (fun cpu =>
        let gn_out_dir := android_gn_out_dir build_type cpu in
        sh ("ninja -C " ++ gn_out_dir
              ++ " libwebrtc libjingle_peerconnection_so") (Some env) None)
  end.

Definition lipo_cmd (slice_paths : list string) (out_path : string) : string :=
  "lipo " ++ Py.join " " slice_paths ++ " -create -output " ++ out_path.

(** Replace [name] in [gn_out_dir] by its [fat-] sibling, keeping the
    original under [bak-]. *)
Definition swap_in_fat (gn_out_dir name : string) : M O unit :=
  let orig_path := Path.join gn_out_dir [name] in
  let bak_path := Path.join gn_out_dir ["bak-" ++ name] in
  let fat_path := Path.join gn_out_dir ["fat-" ++ name] in
  OS.move orig_path bak_path ;;
  OS.move fat_path orig_path.

Definition DWARF_PATH : list string :=
  ["Contents"; "Resources"; "DWARF"; "WebRTC"].

(** Apple packaging: fat simulator and macOS slices, then the
    xcframework and its zip. *)
Definition build_package_apple (build_dir build_type : string) : M O unit :=
  let simulators := filter is_simulator IOS_BUILD_ARCHS in
  sim0 <- index0 simulators ;;
  '(tenv, arch) <- unpack2 (Py.split_on ":" sim0) ;;
  let gn_out_dir := ios_gn_out_dir build_type tenv arch in
  OS.copytree (Path.join gn_out_dir [APPLE_FRAMEWORK_NAME])
              (Path.join gn_out_dir ["fat-" ++ APPLE_FRAMEWORK_NAME]) ;;
  let out_lib_path :=
    Path.join gn_out_dir ["fat-" ++ APPLE_FRAMEWORK_NAME; "WebRTC"] in
  slice_paths <- map_m (fun item =>
    '(tenv, arch) <- unpack2 (Py.split_on ":" item) ;;
    ret (Path.join (ios_gn_out_dir build_type tenv arch)
           [APPLE_FRAMEWORK_NAME; "WebRTC"])) simulators ;;
  sh (lipo_cmd slice_paths out_lib_path) None None ;;
  swap_in_fat gn_out_dir APPLE_FRAMEWORK_NAME ;;
  OS.copytree (Path.join gn_out_dir [APPLE_DSYM_NAME])
              (Path.join gn_out_dir ["fat-" ++ APPLE_DSYM_NAME]) ;;
  let out_dsym_path :=
    Path.join gn_out_dir (("fat-" ++ APPLE_DSYM_NAME) :: DWARF_PATH) in
  slice_paths <- map_m (fun item =>
    '(tenv, arch) <- unpack2 (Py.split_on ":" item) ;;
    ret (Path.join (ios_gn_out_dir build_type tenv arch)
           (APPLE_DSYM_NAME :: DWARF_PATH))) simulators ;;
  sh (lipo_cmd slice_paths out_dsym_path) None None ;;
  swap_in_fat gn_out_dir APPLE_DSYM_NAME ;;
  let _IOS_BUILD_ARCHS :=
    (filter (fun item => negb (is_simulator item)) IOS_BUILD_ARCHS
       ++ [sim0])%list in
  mac0 <- index0 MACOS_BUILD_ARCHS ;;
  let gn_out_dir := macos_gn_out_dir build_type mac0 in
  OS.copytree (Path.join gn_out_dir [APPLE_FRAMEWORK_NAME])
              (Path.join gn_out_dir ["fat-" ++ APPLE_FRAMEWORK_NAME]) ;;
  let out_lib_path :=
    Path.join gn_out_dir
      ["fat-" ++ APPLE_FRAMEWORK_NAME; "Versions"; "Current"; "WebRTC"] in
  let slice_paths :=
    map (fun arch =>
           Path.join (macos_gn_out_dir build_type arch)
             [APPLE_FRAMEWORK_NAME; "Versions"; "Current"; "WebRTC"])
        MACOS_BUILD_ARCHS in
  sh (lipo_cmd slice_paths out_lib_path) None None ;;
  swap_in_fat gn_out_dir APPLE_FRAMEWORK_NAME ;;
  OS.copytree (Path.join gn_out_dir [APPLE_DSYM_NAME])
              (Path.join gn_out_dir ["fat-" ++ APPLE_DSYM_NAME]) ;;
  let out_dsym_path :=
    Path.join gn_out_dir (("fat-" ++ APPLE_DSYM_NAME) :: DWARF_PATH) in
  let slice_paths :=
    map (fun arch =>
           Path.join (macos_gn_out_dir build_type arch)
             (APPLE_DSYM_NAME :: DWARF_PATH))
        MACOS_BUILD_ARCHS in
  sh (lipo_cmd slice_paths out_dsym_path) None None ;;
  let xcframework_path := Path.join build_dir ["WebRTC.xcframework"] in
  let xcodebuild_cmd :=
    "xcodebuild -create-xcframework -output " ++ xcframework_path in
  xcodebuild_cmd <- fold_m (fun xcodebuild_cmd item =>
    '(tenv, arch) <- unpack2 (Py.split_on ":" item) ;;
    let gn_out_dir := ios_gn_out_dir build_type tenv arch in
    fw <- OS.path_abspath (Path.join gn_out_dir [APPLE_FRAMEWORK_NAME]) ;;
    ds <- OS.path_abspath (Path.join gn_out_dir [APPLE_DSYM_NAME]) ;;
    ret (xcodebuild_cmd ++ " -framework " ++ fw
           ++ " -debug-symbols " ++ ds)) _IOS_BUILD_ARCHS xcodebuild_cmd ;;
  let gn_out_dir := macos_gn_out_dir build_type mac0 in
  fw <- OS.path_abspath (Path.join gn_out_dir [APPLE_FRAMEWORK_NAME]) ;;
  ds <- OS.path_abspath (Path.join gn_out_dir [APPLE_DSYM_NAME]) ;;
  let xcodebuild_cmd :=
    xcodebuild_cmd ++ " -framework " ++ fw ++ " -debug-symbols " ++ ds in
  sh xcodebuild_cmd None None ;;
  sh "zip -y -r WebRTC.xcframework.zip WebRTC.xcframework" None
     (Some build_dir).

(** Android staging: the jar once, then one ABI directory per CPU. *)
Definition build_stage_android (build_dir build_type : string) : M O unit :=
  cpu0 <- index0 ANDROID_BUILD_CPUS ;;
  let gn_out_dir := android_gn_out_dir build_type cpu0 in
  OS.copy (Path.join gn_out_dir ["lib.java/sdk/android/libwebrtc.jar"])
          build_dir ;;
  for_each ANDROID_BUILD_CPUS (fun cpu =>
    abi <- OS.dict_get ANDROID_CPU_ABI_MAP cpu ;;
    let lib_dir := Path.join build_dir [abi] in
    mkdirp lib_dir ;;
    let gn_out_dir := android_gn_out_dir build_type cpu in
    OS.copy (Path.join gn_out_dir ["libjingle_peerconnection_so.so"])
            lib_dir).

Definition build_package_android (build_dir build_type : string)
  : M O unit :=
  build_stage_android build_dir build_type ;;
  sh ZIP_ANDROID_CMD None (Some build_dir).

Definition build (target_dir : string) (platform : Platform) (debug : bool)
  : M O unit :=
  let build_dir := Path.join target_dir ["build"; platform_name platform] in
  let build_type := build_type_of debug in
  let depot_tools_dir := Path.join target_dir ["depot_tools"] in
  let webrtc_dir :=
    Path.join target_dir ["webrtc"; platform_name platform; "src"] in
  have_src <- OS.path_isdir webrtc_dir ;;
  (if negb have_src then print SOURCE_NOT_FOUND ;; sys_exit 1 else ret tt) ;;
  env <- action_env platform depot_tools_dir webrtc_dir ;;
  OS.chdir webrtc_dir ;;
  rmr "out" ;;
  build_generate platform build_type debug env ;;
  build_compile platform build_type env ;;
  rmr build_dir ;;
  mkdirp build_dir ;;
  match platform with
  | Ios => build_package_apple build_dir build_type
  | Android => build_package_android build_dir build_type
  end.

(** *** The command line *)

Definition main (args : Args) : M O unit :=
  (if negb (arg_setup args || arg_build args || arg_sync args) then
     print "--setup or --build or --sync must be specified!" ;; sys_exit 1
   else ret tt) ;;
  (if (sum_bools [arg_setup args; arg_build args] >? 1)%Z then
     print "--setup and --build cannot be specified together!" ;; sys_exit 1
   else ret tt) ;;
  (if negb (arg_ios args || arg_android args) then
     print "--ios or --android must be specified!" ;; sys_exit 1
   else ret tt) ;;
  (if arg_ios args && arg_android args then
     print "--ios and --android cannot be specified at the same time!" ;;
     sys_exit 1
   else ret tt) ;;
  have_dir <- OS.path_isdir_walk (arg_dir args) ;;
  (if negb have_dir then
     print "The specified directory does not exist!" ;; sys_exit 1
   else ret tt) ;;
  target_dir <- OS.path_abspath (Path.join (arg_dir args) ["build_webrtc"]) ;;
  let platform := if arg_ios args then Ios else Android in
  (if arg_setup args then
     setup target_dir platform ;;
     print (completed "setup" platform target_dir) ;;
     sys_exit 0
   else ret tt) ;;
  (if arg_sync args then
     sync target_dir platform ;;
     print (completed "sync" platform target_dir) ;;
     sys_exit 0
   else ret tt) ;;
  (if arg_build args then
     build target_dir platform (arg_debug args) ;;
     print (completed "build" platform target_dir) ;;
     sys_exit 0
   else ret tt).

End Script.

(** ** A reference toolchain

    A concrete oracle, used to run the script on examples.  Each tool does
    the least the script relies on: [git clone] and [fetch] create their
    checkout directory, [gn gen] creates the build directory, [ninja] leaves
    the artifacts of the requested targets in it, everything else touches
    nothing.  The outside state is a script of overrides, one consumed per
    command: [Some r] makes that command end with [r] without running. *)

Module Toolchain.

Definition script : Type := list (option cmd_result).

Definition ensure_dirs (p : list string) (n : FS.node) : FS.node :=
  match FS.mkdirs p n with
  | inr n' => n'
  | inl _ => n
  end.

Definition put_file (p : list string) (d : string) (n : FS.node) : FS.node :=
  match FS.write_file p d (ensure_dirs (removelast p) n) with
  | inr n' => n'
  | inl _ => n
  end.

Definition has_word (w : string) (ws : list string) : bool :=
  existsb (String.eqb w) ws.

(** What a successful run of the command leaves on disk. *)
Definition effect (line : string) (here : list string) (n : FS.node)
  : FS.node :=
  match Py.split_on " " line with
  | "git" :: "clone" :: _ => ensure_dirs (here ++ ["depot_tools"]) n
  | "fetch" :: _ => ensure_dirs (here ++ ["src"]) n
  | "gn" :: "gen" :: out :: _ => ensure_dirs (Path.resolve here out) n
  | "ninja" :: "-C" :: out :: targets =>
      let o := Path.resolve here out in
      if has_word "libjingle_peerconnection_so" targets then
        put_file (o ++ ["libjingle_peerconnection_so.so"]) ("so:" ++ out)
          (put_file (o ++ ["lib.java"; "sdk"; "android"; "libwebrtc.jar"])
             ("jar:" ++ out) n)
      else if has_word "framework_objc" targets then
        put_file (o ++ ["WebRTC.dSYM"; "Contents"; "Resources"; "DWARF"; "WebRTC"])
          ("dwarf:" ++ out)
          (put_file (o ++ ["WebRTC.framework"; "WebRTC"]) ("lib:" ++ out) n)
      else if has_word "mac_framework_objc" targets then
        put_file (o ++ ["WebRTC.dSYM"; "Contents"; "Resources"; "DWARF"; "WebRTC"])
          ("dwarf:" ++ out)
          (put_file (o ++ ["WebRTC.framework"; "Versions"; "Current"; "WebRTC"])
             ("lib:" ++ out) n)
      else n
  | _ => n
  end.

Definition run : Tools script :=
  fun c w =>
    let here :=
      match cmd_cwd c with
      | Some d => Path.resolve (cwd w) d
      | None => cwd w
      end in
    match ext w with
    | Some r :: rest => (r, fs w, rest)
    | None :: rest => (Returned 0, effect (cmd_line c) here (fs w), rest)
    | [] => (Returned 0, effect (cmd_line c) here (fs w), [])
    end.

(** A machine with an empty [/work] and the usual [PATH]. *)
Definition fresh_world (s : script) : World script :=
  mkWorld (FS.Dir [("work", FS.Dir [])]) [] [("PATH", "/usr/bin:/bin")] s.

End Toolchain.

(** ** Vocabulary of the properties *)

(** What became of a run: its trace, the world it leaves, how it ended. *)
Definition events {O A} (x : list event * World O * outcome A) : list event :=
  fst (fst x).
Definition world_after {O A} (x : list event * World O * outcome A) : World O :=
  snd (fst x).
Definition result {O A} (x : list event * World O * outcome A) : outcome A :=
  snd x.

(** An external command that exited with a non-zero code. *)
Definition failed_exec (e : event) : option (Z * FS.node) :=
  match e with
  | EvExec _ _ (Returned rc) after =>
      if (rc =? 0)%Z then None else Some (rc, after)
  | _ => None
  end.

Definition is_exec (e : event) : bool :=
  match e with
  | EvExec _ _ _ _ => true
  | EvPrint _ => false
  end.

(** Every event a computation can emit, from any world, satisfies [P]. *)
Definition emits {O A} (P : event -> Prop) (m : M O A) : Prop :=
  forall w, Forall P (events (m w)).

(** A computation in which a failing command is the last thing that
    happens: the trace stops there, the run ends with [SystemExit] of the
    command's code, and the filesystem is the one the command left. *)
Definition fail_stop {O A} (m : M O A) : Prop :=
  forall w pre e post rc after,
    events (m w) = (pre ++ e :: post)%list ->
    failed_exec e = Some (rc, after) ->
    post = [] /\ result (m w) = Raise (SystemExit rc)
    /\ fs (world_after (m w)) = after.

(** The events that follow the first interrupted command of a trace. *)
Fixpoint after_first_interrupt (es : list event) : option (list event) :=
  match es with
  | [] => None
  | EvExec _ _ Interrupted _ :: es' => Some es'
  | _ :: es' => after_first_interrupt es'
  end.

(** The usage errors [main] rejects: no action, [--setup] with [--build],
    no platform, both platforms, or a target directory that is not there. *)
Definition rejected_usage {O} (args : Args) (w : World O) : bool :=
  negb (arg_setup args || arg_build args || arg_sync args)
  || (arg_setup args && arg_build args)
  || negb (arg_ios args || arg_android args)
  || (arg_ios args && arg_android args)
  || negb (OS.stat_isdir w (arg_dir args)).

(** The same with "two or more actions" in place of "[--setup] with
    [--build]". *)
Definition conflicting_usage {O} (args : Args) (w : World O) : bool :=
  negb (arg_setup args || arg_build args || arg_sync args)
  || (sum_bools [arg_setup args; arg_build args; arg_sync args] >? 1)%Z
  || negb (arg_ios args || arg_android args)
  || (arg_ios args && arg_android args)
  || negb (OS.stat_isdir w (arg_dir args)).

(** [target_dir] as [main] computes it in world [w]. *)
Definition target_dir_of {O} (args : Args) (w : World O) : string :=
  Path.abspath (cwd w) (Path.join (arg_dir args) ["build_webrtc"]).

Definition platform_of (args : Args) : Platform :=
  if arg_ios args then Ios else Android.

(** The architecture descriptors one build walks through. *)
Inductive ArchKey : Type :=
| IosItem (item : string)
| MacosArch (arch : string)
| AndroidCpu (cpu : string).

Definition arch_keys (platform : Platform) : list ArchKey :=
  match platform with
  | Ios => map IosItem IOS_BUILD_ARCHS ++ map MacosArch MACOS_BUILD_ARCHS
  | Android => map AndroidCpu ANDROID_BUILD_CPUS
  end.

(** The [gn_out_dir] the loops of [build] compute for a descriptor; [None]
    where unpacking [item.split(':')] would raise. *)
Definition gn_out_dir_of (build_type : string) (k : ArchKey) : option string :=
  match k with
  | IosItem item =>
      match Py.split_on ":" item with
      | [tenv; arch] => Some (ios_gn_out_dir build_type tenv arch)
      | _ => None
      end
  | MacosArch arch => Some (macos_gn_out_dir build_type arch)
  | AndroidCpu cpu => Some (android_gn_out_dir build_type cpu)
  end.

(** The argument list of the Android [gn gen] command, spelled out. *)
Definition android_gn_arg_list (debug : bool) (cpu : string) : list string :=
  [ "rtc_libvpx_build_vp9=true";
    "rtc_enable_protobuf=false";
    "rtc_include_tests=false";
    "is_debug=" ++ Py.str_bool_lower debug;
    "target_cpu=" ++ Py.quoted cpu;
    "target_os=" ++ Py.quoted "android";
    "extra_ldflags=[" ++ Py.quoted "-Wl,-z,common-page-size=4096" ++ ","
      ++ Py.quoted "-Wl,-z,max-page-size=16384" ++ "]" ].

(** The Android [gn gen] command line of one CPU, written out:
    [gn gen out/<mode>-<cpu> --args='<the arguments, space-separated>']. *)
Definition android_gn_gen_line (debug : bool) (cpu : string) : string :=
  "gn gen out/" ++ build_type_of debug ++ "-" ++ cpu
    ++ " --args='" ++ Py.join " " (android_gn_arg_list debug cpu) ++ "'".

(** The directory a command line names: the third word of
    [gn gen <dir> ...] and of [ninja -C <dir> ...]. *)
Definition gn_gen_dir (line : string) : option string :=
  if Py.startswith line "gn gen " then nth_error (Py.split_on " " line) 2
  else None.

Definition ninja_dir (line : string) : option string :=
  if Py.startswith line "ninja -C " then nth_error (Py.split_on " " line) 2
  else None.

(** The directories named by the command lines of a run, in order. *)
Definition named_dirs (dir_of : string -> option string)
    (lines : list string) : list string :=
  flat_map (fun line => match dir_of line with
                        | Some d => [d]
                        | None => []
                        end) lines.

(** The build-output directories of the descriptors of one run. *)
Definition out_dirs_of_run (platform : Platform) (debug : bool)
  : list string :=
  flat_map (fun k => match gn_out_dir_of (build_type_of debug) k with
                     | Some d => [d]
                     | None => []
                     end) (arch_keys platform).

(** World-level [lstat] of a path string, resolved as [OS.locate] does. *)
Definition lstat_in {O} (w : World O) (p : string) : FS.errno + FS.node :=
  match OS.locate w p with
  | None => inl FS.ENOENT
  | Some cs => FS.lstat cs (fs w)
  end.

(** The path names something other than the root directory. *)
Definition below_root {O} (w : World O) (p : string) : Prop :=
  exists c cs, OS.locate w p = Some (c :: cs).

(** Sample command lines and worlds for the examples. *)
Module Sample.
Import Toolchain.

Definition setup_android : Args := mkArgs "/work" true false false false true false.
Definition setup_sync_android : Args :=
  mkArgs "/work" true false true false true false.
Definition sync_build_android : Args :=
  mkArgs "/work" false true true false true false.
Definition build_android : Args :=
  mkArgs "/work" false true false false true false.

(** A machine whose [/work/notes] is a regular file. *)
Definition with_file : World script :=
  mkWorld (FS.Dir [("work", FS.Dir [("notes", FS.File "text")])]) []
          [("PATH", "/usr/bin:/bin")] [].

(** The machine after a first [--setup --android]. *)
Definition after_setup (s : script) : World script :=
  let w := world_after (main run setup_android (fresh_world [])) in
  mkWorld (fs w) [] (environ w) s.
End Sample.

(** An event other than a failed command. *)
Definition unfailing (e : event) : Prop := failed_exec e = None.

(** A command that is [android_gn_gen_cmd] of the mode and of one of the
    fixed CPUs. *)
Definition android_gn_gen_event (debug : bool) (e : event) : Prop :=
  match e with
  | EvExec c _ _ _ =>
      exists cpu, In cpu ANDROID_BUILD_CPUS
                  /\ android_gn_gen_cmd debug cpu = Some (cmd_line c)
  | EvPrint _ => True
  end.

(** No two entries of the list are equal. *)
Fixpoint distinct_strings (l : list (option string)) : bool :=
  match l with
  | [] => true
  | x :: l' =>
      negb (existsb (fun y =>
                       match x, y with
                       | Some a, Some b => String.eqb a b
                       | None, None => true
                       | _, _ => false
                       end) l')
      && distinct_strings l'
  end.

(** A command of [setup] other than the clone and the fetch. *)
Definition install_deps_event (e : event) : Prop :=
  match e with
  | EvExec c _ _ _ => cmd_line c = "./build/install-build-deps.sh"
  | EvPrint _ => True
  end.

(** Two paths that part ways after a common prefix. *)
Definition diverge (p q : list string) : Prop :=
  exists pre a p' b q',
    p = (pre ++ a :: p')%list /\ q = (pre ++ b :: q')%list /\ a <> b.

Definition SO_NAME : string := "libjingle_peerconnection_so.so".

(** The final Android output directory [D] as the zip must find it: the
    jar, then one ABI directory per CPU holding that CPU's shared object,
    each file with the content of its source under the checkout [W]. *)
Definition staged_android (W D : list string) (n : FS.node) : Prop :=
  exists jar so_arm so_arm64 so_x86 so_x64,
    FS.lstat D n
    = inr (FS.Dir
             [ ("libwebrtc.jar", FS.File jar);
               ("armeabi-v7a", FS.Dir [(SO_NAME, FS.File so_arm)]);
               ("arm64-v8a", FS.Dir [(SO_NAME, FS.File so_arm64)]);
               ("x86", FS.Dir [(SO_NAME, FS.File so_x86)]);
               ("x86_64", FS.Dir [(SO_NAME, FS.File so_x64)]) ])
    /\ FS.read_file
         (W ++ ["out"; "Release-arm"; "lib.java"; "sdk"; "android";
                "libwebrtc.jar"]) n = inr jar
    /\ FS.read_file (W ++ ["out"; "Release-arm"; SO_NAME]) n = inr so_arm
    /\ FS.read_file (W ++ ["out"; "Release-arm64"; SO_NAME]) n = inr so_arm64
    /\ FS.read_file (W ++ ["out"; "Release-x86"; SO_NAME]) n = inr so_x86
    /\ FS.read_file (W ++ ["out"; "Release-x64"; SO_NAME]) n = inr so_x64.

(** [m] issues the commands of [l] in order: always a prefix of [l], and
    all of [l] when it returns. *)
Definition follows {O A} (m : M O A) (l : list string) : Prop :=
  forall w, exists rest,
    l = (command_lines (events (m w)) ++ rest)%list
    /\ (forall a, result (m w) = Ok a -> rest = []).

(** An event that is not an external command. *)
Definition not_exec (e : event) : Prop := is_exec e = false.

(** [f'ninja -C {gn_out_dir} libwebrtc libjingle_peerconnection_so'] *)
Definition android_ninja_cmd (debug : bool) (cpu : string) : string :=
  "ninja -C " ++ android_gn_out_dir (build_type_of debug) cpu
    ++ " libwebrtc libjingle_peerconnection_so".

(** The commands of a complete Android build, in order. *)
Definition android_build_commands (debug : bool) : list string :=
  flat_map (fun cpu => match android_gn_gen_cmd debug cpu with
                       | Some c => [c]
                       | None => []
                       end) ANDROID_BUILD_CPUS
  ++ map (android_ninja_cmd debug) ANDROID_BUILD_CPUS
  ++ [ZIP_ANDROID_CMD].

(** From a world satisfying [Pre], every event of [m] satisfies [Ev] and, if
    [m] returns, the world it leaves satisfies [Post]. *)
Definition hoare {O A} (Pre : World O -> Prop) (m : M O A)
    (Ev : event -> Prop) (Post : World O -> Prop) : Prop :=
  forall w, Pre w ->
            Forall Ev (events (m w))
            /\ (forall a, result (m w) = Ok a -> Post (world_after (m w))).

(** When the command is the Android zip, the filesystem it starts from
    satisfies [P]. *)
Definition zip_sees (P : FS.node -> Prop) (e : event) : Prop :=
  match e with
  | EvExec c before _ _ => cmd_line c = ZIP_ANDROID_CMD -> P before
  | EvPrint _ => True
  end.

(** The filesystem the zip command of a sample Android release build
    starts from. *)
Definition sample_fs_at_zip : FS.node :=
  match last (events (build Toolchain.run "/work/build_webrtc" Android false
                        (Sample.after_setup []))) (EvPrint "") with
  | EvExec _ before _ _ => before
  | EvPrint _ => FS.Dir []
  end.

(** ** Vocabulary of the further properties *)

(** The exception a computation ended with, if any. *)
Definition raised {A} (r : outcome A) : option exn :=
  match r with
  | Ok _ => None
  | Raise e => Some e
  end.

(** What [sh] makes of the way its command ended. *)
Definition sh_outcome (r : cmd_result) : option exn :=
  match r with
  | Returned rc => if (rc =? 0)%Z then None else Some (SystemExit rc)
  | Interrupted => None
  | SpawnFailed e => Some (OSError e)
  end.

(** The messages printed before [sys.exit(1)]. *)
Definition DIAGNOSTICS : list string :=
  [ "--setup or --build or --sync must be specified!";
    "--setup and --build cannot be specified together!";
    "--ios or --android must be specified!";
    "--ios and --android cannot be specified at the same time!";
    "The specified directory does not exist!";
    SOURCE_NOT_FOUND ].

(** A property of (trace, final exception) pairs that is kept by
    sequencing and holds of everything the script is made of: prints,
    [sh], failing library calls, a missing [PATH], a diagnostic followed by
    [sys.exit(1)], a completion message followed by [sys.exit(0)]. *)
Record trace_law (Phi : list event -> option exn -> Prop) : Prop := {
  law_ret : Phi [] None;
  law_seq : forall es1 es2 x,
      Phi es1 None -> Phi es2 x -> Phi (es1 ++ es2)%list x;
  law_print : forall line, Phi [EvPrint line] None;
  law_sh : forall cmd env dir before r after,
      Phi [EvPrint ("Running cmd: " ++ cmd);
           EvExec (mkCmd cmd env dir) before r after] (sh_outcome r);
  law_oserror : forall e, Phi [] (Some (OSError e));
  law_shutil : forall msg, Phi [] (Some (ShutilError msg));
  law_no_path : Phi [] (Some (KeyError "PATH"));
  law_refuse : forall line,
      In line DIAGNOSTICS -> Phi [EvPrint line] (Some (SystemExit 1));
  law_done : forall what platform target_dir,
      Phi [EvPrint (completed what platform target_dir)]
          (Some (SystemExit 0))
}.

(** Every run of [m] satisfies [Phi]. *)
Definition obeys {O A} (Phi : list event -> option exn -> Prop) (m : M O A)
  : Prop :=
  forall w, Phi (events (m w)) (raised (result (m w))).

(** A library call: no event, and no exception but [OSError] or
    [shutil.Error]. *)
Definition os_like {O A} (m : M O A) : Prop :=
  forall w,
    events (m w) = []
    /\ match result (m w) with
       | Ok _ => True
       | Raise (OSError _) => True
       | Raise (ShutilError _) => True
       | Raise _ => False
       end.

(** The trace ends with [e]. *)
Definition ends_with (es : list event) (e : event) : Prop :=
  exists pre, es = (pre ++ [e])%list.

(** Why a run ended with [sys.exit(n)]. *)
Definition exit_explained (es : list event) (n : Z) : Prop :=
  (n = 0%Z /\ exists what platform target_dir,
      ends_with es (EvPrint (completed what platform target_dir)))
  \/ (n = 1%Z /\ exists line,
         In line DIAGNOSTICS /\ ends_with es (EvPrint line))
  \/ (n <> 0%Z /\ exists c before after,
         ends_with es (EvExec c before (Returned n) after)).

(** The exceptions a run of the script can end with. *)
Definition expected_exn (e : exn) : Prop :=
  match e with
  | SystemExit _ | OSError _ | ShutilError _ => True
  | KeyError key => key = "PATH"
  | CalledProcessError _ | KeyboardInterrupt
  | ValueError | IndexError | TypeError => False
  end.

(** Every command of the trace comes right after the line that announces
    it. *)
Fixpoint well_announced (es : list event) : Prop :=
  match es with
  | [] => True
  | EvExec _ _ _ _ :: _ => False
  | EvPrint line :: es' =>
      match es' with
      | EvExec c _ _ _ :: es'' =>
          line = "Running cmd: " ++ cmd_line c /\ well_announced es''
      | _ => well_announced es'
      end
  end.

(** The action [main] runs once the command line is accepted: [setup]
    before [sync] before [build]. *)
Definition selected_action {O} (tools : Tools O) (args : Args) (w : World O)
  : M O unit :=
  if arg_setup args then setup tools (target_dir_of args w) (platform_of args)
  else if arg_sync args then sync tools (target_dir_of args w) (platform_of args)
  else build tools (target_dir_of args w) (platform_of args) (arg_debug args).

Definition action_name (args : Args) : string :=
  if arg_setup args then "setup"
  else if arg_sync args then "sync"
  else "build".

(** The [PATH] that [sync] and [build] hand to their commands, written
    out. *)
Definition tool_path (platform : Platform) (target_dir path0 : string)
  : string :=
  let depot_tools_dir := Path.join target_dir ["depot_tools"] in
  let webrtc_dir :=
    Path.join target_dir ["webrtc"; platform_name platform; "src"] in
  match platform with
  | Ios => path0 ++ ":" ++ depot_tools_dir
  | Android =>
      path0 ++ ":" ++ depot_tools_dir
        ++ ":" ++ webrtc_dir ++ "/third_party/android_sdk/public/platform-tools"
        ++ ":" ++ webrtc_dir ++ "/third_party/android_sdk/public/tools"
        ++ ":" ++ webrtc_dir ++ "/build/android"
  end.

(** A machine on which the Android checkout is in place but [PATH] is not
    set. *)
Definition without_path : World Toolchain.script :=
  mkWorld (fs (Sample.after_setup [])) [] [] [].

(** A machine whose [/work/build_webrtc] is a regular file. *)
Definition target_is_file : World Toolchain.script :=
  mkWorld (FS.Dir [("work", FS.Dir [("build_webrtc", FS.File "text")])]) []
          [("PATH", "/usr/bin:/bin")] [].

(** The trace starts with a command issued by [sh] with environment [env]
    and no [cwd=], on filesystem [n]. *)
Definition starts_with_command (env : Env) (n : FS.node) (es : list event)
  : Prop :=
  exists cmd r after tail,
    es = EvPrint ("Running cmd: " ++ cmd)
           :: EvExec (mkCmd cmd (Some env) None) n r after :: tail.

(** A library call that runs no command and stays in the working
    directory. *)
Definition in_place {O A} (m : M O A) : Prop :=
  forall w, events (m w) = [] /\ cwd (world_after (m w)) = cwd w.

(** Started in directory [dir], [m] issues the commands of [l] in order
    (always a prefix of [l], and all of [l] when it returns) and stays in
    [dir]. *)
Definition follows_at {O A} (dir : list string) (m : M O A)
    (l : list string) : Prop :=
  forall w, cwd w = dir ->
    (exists rest,
        l = (command_lines (events (m w)) ++ rest)%list
        /\ (forall a, result (m w) = Ok a -> rest = []))
    /\ cwd (world_after (m w)) = dir.

(** [f'gn gen {gn_out_dir} {gn_args}'] of the iOS loop, written out. *)
Definition ios_gn_gen_cmd (debug : bool) (tenv arch : string) : string :=
  "gn gen out/" ++ build_type_of debug ++ "-ios-" ++ tenv ++ "-" ++ arch
    ++ " --args='rtc_libvpx_build_vp9=true rtc_enable_protobuf=false"
    ++ " rtc_include_tests=false"
    ++ " is_debug=" ++ Py.str_bool_lower debug
    ++ " target_cpu=" ++ Py.quoted arch
    ++ " enable_dsyms=true enable_stripping=true"
    ++ " rtc_enable_symbol_export=false rtc_enable_objc_symbol_export=true"
    ++ " ios_deployment_target=" ++ Py.quoted "12.0"
    ++ " ios_enable_code_signing=false"
    ++ " target_os=" ++ Py.quoted "ios"
    ++ " target_environment=" ++ Py.quoted tenv ++ "'".

(** The same for the macOS loop. *)
Definition macos_gn_gen_cmd (debug : bool) (arch : string) : string :=
  "gn gen out/" ++ build_type_of debug ++ "-macos-" ++ arch
    ++ " --args='rtc_libvpx_build_vp9=true rtc_enable_protobuf=false"
    ++ " rtc_include_tests=false"
    ++ " is_debug=" ++ Py.str_bool_lower debug
    ++ " target_cpu=" ++ Py.quoted arch
    ++ " enable_dsyms=true enable_stripping=true"
    ++ " rtc_enable_symbol_export=false rtc_enable_objc_symbol_export=true"
    ++ " target_os=" ++ Py.quoted "mac" ++ "'".

(** The four [lipo] commands: simulator framework and symbols, macOS
    framework and symbols.  Each merges the arm64 and x64 slices into the
    [fat-] copy next to the arm64 bundle. *)
Definition apple_lipo_cmds (debug : bool) : list string :=
  let sim := "out/" ++ build_type_of debug ++ "-ios-simulator-" in
  let mac := "out/" ++ build_type_of debug ++ "-macos-" in
  let dwarf := "/Contents/Resources/DWARF/WebRTC" in
  [ "lipo " ++ sim ++ "arm64/WebRTC.framework/WebRTC "
      ++ sim ++ "x64/WebRTC.framework/WebRTC"
      ++ " -create -output " ++ sim ++ "arm64/fat-WebRTC.framework/WebRTC";
    "lipo " ++ sim ++ "arm64/WebRTC.dSYM" ++ dwarf ++ " "
      ++ sim ++ "x64/WebRTC.dSYM" ++ dwarf
      ++ " -create -output " ++ sim ++ "arm64/fat-WebRTC.dSYM" ++ dwarf;
    "lipo " ++ mac ++ "arm64/WebRTC.framework/Versions/Current/WebRTC "
      ++ mac ++ "x64/WebRTC.framework/Versions/Current/WebRTC"
      ++ " -create -output "
      ++ mac ++ "arm64/fat-WebRTC.framework/Versions/Current/WebRTC";
    "lipo " ++ mac ++ "arm64/WebRTC.dSYM" ++ dwarf ++ " "
      ++ mac ++ "x64/WebRTC.dSYM" ++ dwarf
      ++ " -create -output " ++ mac ++ "arm64/fat-WebRTC.dSYM" ++ dwarf ].

(** The [xcodebuild] command of a build whose source directory is [src]:
    the device build, the arm64 simulator build and the arm64 macOS build,
    each by the absolute path of its framework and of its symbols. *)
Definition xcodebuild_cmd_of (target_dir : string) (src : list string)
    (debug : bool) : string :=
  let out name bundle :=
    Path.render (src ++ ["out"; build_type_of debug ++ name; bundle]) in
  "xcodebuild -create-xcframework -output "
    ++ Path.join target_dir ["build"; "ios"; "WebRTC.xcframework"]
    ++ " -framework " ++ out "-ios-device-arm64" "WebRTC.framework"
    ++ " -debug-symbols " ++ out "-ios-device-arm64" "WebRTC.dSYM"
    ++ " -framework " ++ out "-ios-simulator-arm64" "WebRTC.framework"
    ++ " -debug-symbols " ++ out "-ios-simulator-arm64" "WebRTC.dSYM"
    ++ " -framework " ++ out "-macos-arm64" "WebRTC.framework"
    ++ " -debug-symbols " ++ out "-macos-arm64" "WebRTC.dSYM".

(** The commands of a complete iOS build, in order. *)
Definition ios_build_commands (target_dir : string) (src : list string)
    (debug : bool) : list string :=
  let bt := build_type_of debug in
  [ ios_gn_gen_cmd debug "device" "arm64";
    ios_gn_gen_cmd debug "simulator" "arm64";
    ios_gn_gen_cmd debug "simulator" "x64";
    macos_gn_gen_cmd debug "arm64";
    macos_gn_gen_cmd debug "x64";
    "ninja -C out/" ++ bt ++ "-ios-device-arm64 framework_objc";
    "ninja -C out/" ++ bt ++ "-ios-simulator-arm64 framework_objc";
    "ninja -C out/" ++ bt ++ "-ios-simulator-x64 framework_objc";
    "ninja -C out/" ++ bt ++ "-macos-arm64 mac_framework_objc";
    "ninja -C out/" ++ bt ++ "-macos-x64 mac_framework_objc" ]
  ++ apple_lipo_cmds debug
  ++ [ xcodebuild_cmd_of target_dir src debug;
       "zip -y -r WebRTC.xcframework.zip WebRTC.xcframework" ].

(** The machine after a first [--setup --ios]. *)
Definition ios_after_setup : World Toolchain.script :=
  let w := world_after
             (main Toolchain.run (mkArgs "/work" true false false true false false)
                (Toolchain.fresh_world [])) in
  mkWorld (fs w) [] (environ w) [].

(** The command is the [xcodebuild] that assembles the xcframework. *)
Definition is_xcodebuild (c : Cmd) : bool :=
  Py.startswith (cmd_line c) "xcodebuild".

Definition no_xcodebuild (e : event) : Prop :=
  match e with
  | EvExec c _ _ _ => is_xcodebuild c = false
  | EvPrint _ => True
  end.

(** The last of the four [lipo] commands: the macOS symbols. *)
Definition macos_dsym_lipo_cmd (debug : bool) : string :=
  last (apple_lipo_cmds debug) "".

(** Every [xcodebuild] of the trace comes right after the command [lipo]
    (only its own announcement in between) and starts from the filesystem
    that command left. *)
Definition bundles_what_lipo_left (lipo : string) (es : list event) : Prop :=
  forall k c before r after,
    nth_error es k = Some (EvExec c before r after) ->
    is_xcodebuild c = true ->
    exists k' c' before' r',
      k = S (S k')
      /\ nth_error es k' = Some (EvExec c' before' r' before)
      /\ cmd_line c' = lipo.

Definition bundles_after {O A} (lipo : string) (m : M O A) : Prop :=
  forall w, bundles_what_lipo_left lipo (events (m w)).

(** The machine after a first [--build --android]. *)
Definition android_after_build : World Toolchain.script :=
  let w := world_after
             (main Toolchain.run Sample.build_android (Sample.after_setup [])) in
  mkWorld (fs w) [] (environ w) [].

(** No component of the path is [.] or [..]. *)
Definition no_dots (comps : list string) : bool :=
  forallb (fun c => negb (String.eqb c ".") && negb (String.eqb c ".."))
          comps.

Definition dot_free (p : string) : bool := no_dots (Path.components p).

(** A single path component: not empty, not [.] or [..], no separator. *)
Definition plain_name (x : string) : bool :=
  negb (String.eqb x "") && negb (String.eqb x ".")
  && negb (String.eqb x "..")
  && match Py.split_on Path.slash x with
     | [_] => true
     | _ => false
     end.

(** A machine with a simulator build directory holding a framework and
    its fat copy. *)
Definition with_fat_copy : World Toolchain.script :=
  mkWorld
    (FS.Dir [("w", FS.Dir [("out", FS.Dir [("sim", FS.Dir
       [ ("WebRTC.framework", FS.Dir [("WebRTC", FS.File "arm64")]);
         ("fat-WebRTC.framework", FS.Dir [("WebRTC", FS.File "arm64+x64")])
       ])])])])
    ["w"] [] [].

(** The environment [setup] hands to [fetch] and [gclient sync]. *)
Definition setup_env (target_dir path0 : string) (env0 : Env) : Env :=
  FS.assoc_set "PATH" (path0 ++ ":" ++ Path.join target_dir ["depot_tools"])
    env0.

(** The end of [setup]: [gclient sync], then for Android the dependency
    installer from the checkout. *)
Definition setup_sync_part {O} (tools : Tools O) (target_dir : string)
    (platform : Platform) (env : Env) : M O unit :=
  sh tools "gclient sync" (Some env) None ;;
  match platform with
  | Android =>
      OS.chdir (Path.join target_dir ["webrtc"; platform_name platform; "src"]) ;;
      sh tools "./build/install-build-deps.sh" None None
  | Ios => ret tt
  end.

(** The commands of a complete build of either platform; [src] is the
    source directory, which the iOS [xcodebuild] line spells out. *)
Definition build_commands (target_dir : string) (platform : Platform)
    (debug : bool) (src : list string) : list string :=
  match platform with
  | Ios => ios_build_commands target_dir src debug
  | Android => android_build_commands debug
  end.

(** * Properties *)

(** ** How computations compose *)

Section Composition.
Context {O : Type}.

Lemma events_bind {A B} (m : M O A) (f : A -> M O B) w :
  events (bind m f w) =
  match result (m w) with
  | Ok a => (events (m w) ++ events (f a (world_after (m w))))%list
  | Raise _ => events (m w)
  end.
Proof.
  unfold bind, events, result, world_after.
  destruct (m w) as [[es w'] [a|e]]; simpl; [|reflexivity].
  destruct (f a w') as [[es' w''] r]; reflexivity.
Qed.

Lemma result_bind {A B} (m : M O A) (f : A -> M O B) w :
  result (bind m f w) =
  match result (m w) with
  | Ok a => result (f a (world_after (m w)))
  | Raise e => Raise e
  end.
Proof.
  unfold bind, events, result, world_after.
  destruct (m w) as [[es w'] [a|e]]; simpl; [|reflexivity].
  destruct (f a w') as [[es' w''] r]; reflexivity.
Qed.

Lemma world_bind {A B} (m : M O A) (f : A -> M O B) w :
  world_after (bind m f w) =
  match result (m w) with
  | Ok a => world_after (f a (world_after (m w)))
  | Raise _ => world_after (m w)
  end.
Proof.
  unfold bind, events, result, world_after.
  destruct (m w) as [[es w'] [a|e]]; simpl; [|reflexivity].
  destruct (f a w') as [[es' w''] r]; reflexivity.
Qed.

Lemma events_try {A} (m : M O A) (h : exn -> M O A) w :
  events (try_except m h w) =
  match result (m w) with
  | Ok _ => events (m w)
  | Raise e => (events (m w) ++ events (h e (world_after (m w))))%list
  end.
Proof.
  unfold try_except, events, result, world_after.
  destruct (m w) as [[es w'] [a|e]]; simpl; [reflexivity|].
  destruct (h e w') as [[es' w''] r]; reflexivity.
Qed.

(** *** Computations that emit only events of one kind *)

Lemma emits_ret {A} P (a : A) : emits P (@ret O A a).
Proof. intros w; constructor. Qed.

Lemma emits_raise {A} P e : emits P (@raise O A e).
Proof. intros w; constructor. Qed.

Lemma emits_print (P : event -> Prop) line :
  P (EvPrint line) -> emits P (@print O line).
Proof. intros H w; repeat constructor; exact H. Qed.

Lemma emits_bind {A B} P (m : M O A) (f : A -> M O B) :
  emits P m -> (forall a, emits P (f a)) -> emits P (bind m f).
Proof.
  intros Hm Hf w. rewrite events_bind.
  destruct (result (m w)); [apply Forall_app; split|];
    first [apply Hm | apply Hf].
Qed.

Lemma emits_try {A} P (m : M O A) (h : exn -> M O A) :
  emits P m -> (forall e, emits P (h e)) -> emits P (try_except m h).
Proof.
  intros Hm Hh w. rewrite events_try.
  destruct (result (m w)); [|apply Forall_app; split];
    first [apply Hm | apply Hh].
Qed.

Lemma emits_of_option {A} P e (x : option A) : emits P (@of_option O A e x).
Proof. destruct x; [apply emits_ret | apply emits_raise]. Qed.

Lemma emits_for_each {A} P (l : list A) (body : A -> M O unit) :
  (forall x, emits P (body x)) -> emits P (for_each l body).
Proof.
  intros H; induction l as [|x l IH]; simpl.
  - apply emits_ret.
  - apply emits_bind; auto.
Qed.

Lemma emits_for_each_in {A} P (l : list A) (body : A -> M O unit) :
  (forall x, In x l -> emits P (body x)) -> emits P (for_each l body).
Proof.
  induction l as [|x l IH]; intros H; simpl.
  - apply emits_ret.
  - apply emits_bind; [apply H; left; reflexivity|].
    intros _. apply IH. intros y Hy. apply H. right. exact Hy.
Qed.

Lemma emits_map_m {A B} P (f : A -> M O B) (l : list A) :
  (forall x, emits P (f x)) -> emits P (map_m f l).
Proof.
  intros H; induction l as [|x l IH]; simpl.
  - apply emits_ret.
  - apply emits_bind; [auto|intros y].
    apply emits_bind; [auto|intros ys]. apply emits_ret.
Qed.

Lemma emits_fold_m {A B} P (f : B -> A -> M O B) (l : list A) b :
  (forall b x, emits P (f b x)) -> emits P (fold_m f l b).
Proof.
  intros H; revert b; induction l as [|x l IH]; intros b; simpl.
  - apply emits_ret.
  - apply emits_bind; auto.
Qed.

Lemma emits_unpack2 P xs : emits P (@unpack2 O xs).
Proof.
  destruct xs as [|a [|b [|c xs]]]; simpl;
    first [apply emits_ret | apply emits_raise].
Qed.

Lemma emits_index0 P xs : emits P (@index0 O xs).
Proof. apply emits_of_option. Qed.

(** A computation whose trace is always empty emits whatever one likes. *)
Lemma emits_silent {A} P (m : M O A) :
  (forall w, events (m w) = []) -> emits P m.
Proof. intros H w; rewrite H; constructor. Qed.

End Composition.

(** The library calls never print and never run a command. *)
Ltac break_world :=
  repeat match goal with
         | |- context [match ?x with _ => _ end] => destruct x
         end.

Ltac emits_step :=
  first
    [ apply emits_ret
    | apply emits_raise
    | apply emits_of_option
    | apply emits_unpack2
    | apply emits_index0
    | apply emits_bind; [|intros]
    | apply emits_try; [|intros]
    | apply emits_for_each; intros
    | apply emits_map_m; intros
    | apply emits_fold_m; intros
    | match goal with
      | |- emits _ (if ?b then _ else _) => destruct b
      | |- emits _ (match ?x with _ => _ end) => destruct x
      end ].

Section LibraryCalls.
Context {O : Type} (P : event -> Prop).

Ltac quiet :=
  apply emits_silent; intros w; unfold events;
  cbv beta delta
    [OS.path_isdir OS.path_exists OS.path_abspath OS.update OS.chdir OS.read
     OS.same_file OS.rename OS.dest_in_src OS.environ_copy OS.copytree];
  break_world; reflexivity.

Lemma emits_isdir p : emits P (@OS.path_isdir O p).
Proof. quiet. Qed.
Lemma emits_isdir_walk p : emits P (@OS.path_isdir_walk O p).
Proof. apply emits_silent; intros w; reflexivity. Qed.
Lemma emits_exists p : emits P (@OS.path_exists O p).
Proof. quiet. Qed.
Lemma emits_abspath p : emits P (@OS.path_abspath O p).
Proof. quiet. Qed.
Lemma emits_update op p : emits P (@OS.update O op p).
Proof. quiet. Qed.
Lemma emits_chdir p : emits P (@OS.chdir O p).
Proof. quiet. Qed.
Lemma emits_read p : emits P (@OS.read O p).
Proof. quiet. Qed.
Lemma emits_same_file a b : emits P (@OS.same_file O a b).
Proof. quiet. Qed.
Lemma emits_rename a b : emits P (@OS.rename O a b).
Proof. quiet. Qed.
Lemma emits_dest_in_src a b : emits P (@OS.dest_in_src O a b).
Proof. quiet. Qed.
Lemma emits_environ_copy : emits P (@OS.environ_copy O).
Proof. quiet. Qed.
Lemma emits_dict_get d k : emits P (@OS.dict_get O d k).
Proof. apply emits_of_option. Qed.

Lemma emits_makedirs p : emits P (@OS.makedirs O p).
Proof. apply emits_update. Qed.
Lemma emits_rmtree p : emits P (@OS.rmtree O p).
Proof. apply emits_update. Qed.
Lemma emits_unlink p : emits P (@OS.unlink O p).
Proof. apply emits_update. Qed.

Lemma emits_copyfile a b : emits P (@OS.copyfile O a b).
Proof.
  unfold OS.copyfile.
  repeat first [apply emits_same_file | apply emits_read
               | apply emits_update | emits_step].
Qed.

Lemma emits_copy a b : emits P (@OS.copy O a b).
Proof.
  unfold OS.copy.
  apply emits_bind; [apply emits_isdir | intros; apply emits_copyfile].
Qed.

Lemma emits_copytree a b : emits P (@OS.copytree O a b).
Proof.
  intros w. unfold OS.copytree.
  destruct (OS.locate w a); [|constructor].
  destruct (FS.lstat l (fs w)) as [e|[d|es]]; try constructor.
  apply emits_bind; [apply emits_makedirs | intros; apply emits_update].
Qed.

Lemma emits_move a b : emits P (@OS.move O a b).
Proof.
  unfold OS.move.
  repeat first [apply emits_isdir | apply emits_exists | apply emits_rename
               | apply emits_dest_in_src | apply emits_copytree
               | apply emits_rmtree | apply emits_copyfile
               | apply emits_unlink | emits_step].
Qed.

Lemma emits_mkdirp p : emits P (@mkdirp O p).
Proof.
  unfold mkdirp. repeat first [apply emits_makedirs | emits_step].
Qed.

Lemma emits_rmr p : emits P (@rmr O p).
Proof.
  unfold rmr. repeat first [apply emits_rmtree | emits_step].
Qed.

End LibraryCalls.

Create HintDb quiet_calls.
#[export] Hint Resolve emits_isdir emits_isdir_walk emits_exists
  emits_abspath emits_chdir
  emits_environ_copy emits_dict_get emits_copy emits_copytree emits_move
  emits_mkdirp emits_rmr emits_makedirs emits_rmtree : quiet_calls.

(** ** A failing command ends the run *)

Section FailStop.
Context {O : Type}.

(** A computation none of whose events is a failed command. *)
Lemma fail_stop_unfailing {A} (m : M O A) : emits unfailing m -> fail_stop m.
Proof.
  intros H w pre e post rc after Hev Hfail. exfalso.
  specialize (H w). rewrite Hev in H.
  apply Forall_app in H as [_ H]. inversion H as [|? ? He _]; subst.
  unfold unfailing in He. congruence.
Qed.

Lemma fail_stop_bind {A B} (m : M O A) (f : A -> M O B) :
  fail_stop m -> (forall a, fail_stop (f a)) -> fail_stop (bind m f).
Proof.
  intros Hm Hf w pre e post rc after Hev Hfail.
  rewrite events_bind in Hev. rewrite result_bind, world_bind.
  destruct (result (m w)) as [a|x] eqn:R.
  - apply app_eq_app in Hev as [l [[H1 H2]|[H1 H2]]].
    + destruct l as [|e' l].
      * simpl in H2. symmetry in H2. apply (Hf a _ [] e post rc after H2 Hfail).
      * simpl in H2. injection H2 as <- ->.
        destruct (Hm w pre e l rc after H1 Hfail) as (_ & Hr & _).
        congruence.
    + apply (Hf a _ l e post rc after H2 Hfail).
  - destruct (Hm w pre e post rc after Hev Hfail) as (Hp & Hr & Hw).
    rewrite R in Hr. injection Hr as ->. auto.
Qed.

Lemma fail_stop_for_each {A} (l : list A) (body : A -> M O unit) :
  (forall x, fail_stop (body x)) -> fail_stop (for_each l body).
Proof.
  intros H; induction l as [|x l IH]; simpl.
  - apply fail_stop_unfailing, emits_ret.
  - apply fail_stop_bind; auto.
Qed.

Lemma fail_stop_fold_m {A B} (f : B -> A -> M O B) (l : list A) b :
  (forall b x, fail_stop (f b x)) -> fail_stop (fold_m f l b).
Proof.
  intros H; revert b; induction l as [|x l IH]; intros b; simpl.
  - apply fail_stop_unfailing, emits_ret.
  - apply fail_stop_bind; auto.
Qed.

Variable tools : Tools O.

(** [sh] on its own: the one command it runs is its last event, and a
    non-zero return code becomes the exit code. *)
Lemma sh_run cmd env dir w :
  sh tools cmd env dir w =
  match tools (mkCmd cmd env dir) w with
  | (r, n, o) =>
      ([EvPrint ("Running cmd: " ++ cmd);
        EvExec (mkCmd cmd env dir) (fs w) r n],
       mkWorld n (cwd w) (environ w) o,
       match r with
       | Returned rc => if (rc =? 0)%Z then Ok tt else Raise (SystemExit rc)
       | Interrupted => Ok tt
       | SpawnFailed e => Raise (OSError e)
       end)
  end.
Proof.
  unfold sh, bind, print, try_except, OS.check_call, sys_exit, raise, ret.
  destruct (tools (mkCmd cmd env dir) w) as [[r n] o].
  destruct r as [rc| |e]; simpl; [destruct (rc =? 0)%Z|..]; reflexivity.
Qed.

Lemma fail_stop_sh cmd env dir : fail_stop (sh tools cmd env dir).
Proof.
  intros w pre e post rc after Hev Hfail. rewrite sh_run in *.
  destruct (tools (mkCmd cmd env dir) w) as [[r n] o].
  unfold events, result, world_after in *; simpl in *.
  destruct pre as [|p1 pre]; simpl in Hev.
  { injection Hev as <- _. discriminate. }
  destruct pre as [|p2 pre]; simpl in Hev.
  - injection Hev as _ <- <-. simpl in Hfail.
    destruct r as [rc'| |]; try discriminate.
    destruct (rc' =? 0)%Z; [discriminate|].
    injection Hfail as -> ->. auto.
  - injection Hev as _ _ Hev. destruct pre; discriminate.
Qed.

End FailStop.

Ltac fail_stop_step tools :=
  first
    [ apply fail_stop_sh
    | apply fail_stop_unfailing;
      solve [ repeat first [ solve [auto with quiet_calls]
                           | apply emits_print; reflexivity
                           | emits_step ] ]
    | apply fail_stop_bind; [|intros]
    | apply fail_stop_for_each; intros
    | apply fail_stop_fold_m; intros
    | match goal with
      | |- fail_stop (if ?b then _ else _) => destruct b
      | |- fail_stop (match ?x with _ => _ end) => destruct x
      end ].

Section FailStopScript.
Context {O : Type} (tools : Tools O).

Lemma fail_stop_setup target_dir platform :
  fail_stop (setup tools target_dir platform).
Proof. unfold setup. repeat fail_stop_step tools. Qed.

Lemma fail_stop_sync target_dir platform :
  fail_stop (sync tools target_dir platform).
Proof. unfold sync, action_env. repeat fail_stop_step tools. Qed.

Lemma fail_stop_build target_dir platform debug :
  fail_stop (build tools target_dir platform debug).
Proof.
  unfold build, action_env, build_generate, build_compile,
    build_package_apple, build_package_android, build_stage_android,
    swap_in_fat.
  repeat fail_stop_step tools.
Qed.

Lemma fail_stop_main args : fail_stop (main tools args).
Proof.
  unfold main.
  repeat first [ apply fail_stop_setup | apply fail_stop_sync
               | apply fail_stop_build | fail_stop_step tools ].
Qed.

End FailStopScript.

(** C3.  Whatever the tools do and whatever the command line: if some
    event of the run is an external command that returned a non-zero code
    [rc], then that event is the last one of the trace (no further step, no
    retry, no cleanup), the process ends with [sys.exit(rc)], and the
    filesystem it leaves is the one that command left. *)
Theorem failing_command_ends_run :
  forall (O : Type) (tools : Tools O) (args : Args) (w : World O)
         (k : nat) (c : Cmd) (before after : FS.node) (rc : Z),
    nth_error (events (main tools args w)) k
      = Some (EvExec c before (Returned rc) after) ->
    rc <> 0%Z ->
    length (events (main tools args w)) = S k
    /\ result (main tools args w) = Raise (SystemExit rc)
    /\ fs (world_after (main tools args w)) = after.
Proof.
  intros O tools args w k c before after rc Hk Hrc.
  apply nth_error_split in Hk as (pre & post & Hev & Hlen).
  assert (Hfail : failed_exec (EvExec c before (Returned rc) after)
                  = Some (rc, after)).
  { simpl. destruct (Z.eqb_spec rc 0); [contradiction|reflexivity]. }
  destruct (fail_stop_main tools args w pre _ post rc after Hev Hfail)
    as (Hpost & Hres & Hfs).
  repeat split; auto.
  rewrite Hev, Hpost, length_app. simpl. lia.
Qed.

(** The second command of a first [--setup --android] exits with 7. *)
Lemma failing_command_ends_run_witness :
  result (main Toolchain.run Sample.setup_android
            (Toolchain.fresh_world [None; Some (Returned 7%Z)]))
  = Raise (SystemExit 7%Z).
Proof.
  eapply (failing_command_ends_run _ Toolchain.run Sample.setup_android
            (Toolchain.fresh_world [None; Some (Returned 7%Z)]) 5).
  - vm_compute. reflexivity.
  - discriminate.
Defined.

(** ** Argument validation *)

(** C1, as amended.  When no action is chosen, when [--setup] and
    [--build] are chosen together, when no platform or both platforms are
    chosen, or when the target directory is not there for [os.path.isdir]
    (the kernel's walk of the path as typed does not end in a directory),
    the run prints one diagnostic and ends with [sys.exit(1)]: no external
    command is invoked and the world is left as it was. *)
Theorem rejected_usage_exits_1 :
  forall (O : Type) (tools : Tools O) (args : Args) (w : World O),
    rejected_usage args w = true ->
    exists line,
      main tools args w = ([EvPrint line], w, Raise (SystemExit 1%Z)).
Proof.
  intros O tools [d s b y i a g] w H.
  unfold rejected_usage in H; simpl in H.
  unfold main, bind, OS.path_isdir_walk; simpl.
  destruct s, b, y, i, a; simpl in *; try discriminate;
    try (eexists; reflexivity);
    destruct (OS.stat_isdir w d); simpl in *; try discriminate;
    eexists; reflexivity.
Qed.

(** [/nope/../work --sync --android] where [/work] holds a checkout but
    [/nope] does not exist: the kernel fails on [/nope], so the directory
    is not there for [os.path.isdir] although [/work] is. *)
Lemma rejected_usage_exits_1_witness :
  OS.isdir_in (Sample.after_setup []) "/work" = true
  /\ exists line,
       main Toolchain.run
         (mkArgs "/nope/../work" false false true false true false)
         (Sample.after_setup [])
       = ([EvPrint line], Sample.after_setup [], Raise (SystemExit 1%Z)).
Proof.
  split; [reflexivity|].
  apply (rejected_usage_exits_1 _ Toolchain.run
           (mkArgs "/nope/../work" false false true false true false)
           (Sample.after_setup [])).
  vm_compute. reflexivity.
Defined.

(** C1, as stated, fails: [--setup --sync --android] chooses two actions,
    yet validation lets it through, [setup] runs its four commands and the
    process exits with code 0. *)
Lemma two_actions_with_sync_not_rejected :
  conflicting_usage Sample.setup_sync_android (Toolchain.fresh_world []) = true
  /\ result (main Toolchain.run Sample.setup_sync_android
               (Toolchain.fresh_world []))
     = Raise (SystemExit 0%Z)
  /\ command_lines (events (main Toolchain.run Sample.setup_sync_android
                              (Toolchain.fresh_world [])))
     = [ GIT_CLONE_CMD; fetch_cmd Android; "gclient sync";
         "./build/install-build-deps.sh" ].
Proof. repeat split; vm_compute; reflexivity. Qed.

(** Past validation, [main] is the chosen action followed by its
    completion message and [sys.exit(0)]. *)
Lemma bind_ret {O A B} (a : A) (f : A -> M O B) (w : World O) :
  bind (ret a) f w = f a w.
Proof. unfold bind, ret. destruct (f a w) as [[es w'] r]. reflexivity. Qed.

Lemma bind_pure {O A B} (m : M O A) (f : A -> M O B) (w : World O) (a : A) :
  m w = ([], w, Ok a) -> bind m f w = f a w.
Proof.
  intros H. unfold bind. rewrite H. destruct (f a w) as [[es w'] r].
  reflexivity.
Qed.

Lemma bind_raises {O A} (m : M O A) (f : A -> M O A) (w : World O) :
  (exists e, result (m w) = Raise e) -> bind m f w = m w.
Proof.
  intros [e H]. unfold bind, result in *.
  destruct (m w) as [[es w'] [a|x]]; [discriminate|reflexivity].
Qed.

Lemma action_then_exit_raises {O} (action : M O unit) line (w : World O) :
  exists e,
    result ((action ;; print line ;; @sys_exit O unit 0) w) = Raise e.
Proof.
  rewrite result_bind. destruct (result (action w)) as [[]|x]; eauto.
  rewrite result_bind. simpl. eauto.
Qed.

Lemma main_dispatch {O} (tools : Tools O) (args : Args) (w : World O) :
  rejected_usage args w = false ->
  main tools args w =
  (let target_dir := target_dir_of args w in
   let platform := platform_of args in
   if arg_setup args then
     setup tools target_dir platform ;;
     print (completed "setup" platform target_dir) ;; sys_exit 0
   else if arg_sync args then
     sync tools target_dir platform ;;
     print (completed "sync" platform target_dir) ;; sys_exit 0
   else
     build tools target_dir platform (arg_debug args) ;;
     print (completed "build" platform target_dir) ;; sys_exit 0) w.
Proof.
  destruct args as [d s b y i a g]. intros H.
  unfold rejected_usage in H; simpl in H.
  assert (Hd : OS.stat_isdir w d = true).
  { destruct (OS.stat_isdir w d); [reflexivity|].
    rewrite !orb_true_r in H. discriminate. }
  rewrite Hd in H.
  unfold main, target_dir_of, platform_of; cbn [arg_dir arg_setup arg_build
    arg_sync arg_ios arg_android arg_debug].
  destruct s, b, y, i, a; simpl in H; try discriminate; cbn [negb orb andb];
    change (sum_bools _ >? 1)%Z with false;
    rewrite !bind_ret;
    rewrite (bind_pure (OS.path_isdir_walk d) _ w true)
      by (unfold OS.path_isdir_walk; rewrite Hd; reflexivity);
    cbn [negb]; rewrite bind_ret;
    (erewrite (bind_pure (OS.path_abspath _) _ w) by reflexivity);
    rewrite ?bind_ret;
    try reflexivity;
    apply bind_raises, action_then_exit_raises.
Qed.

(** C2, as amended.  With [--sync] and [--build] together (no [--setup],
    one platform, an existing target directory) the invocation passes
    validation and is exactly the sync action followed by its completion
    message and [sys.exit(0)]: the build action is never started. *)
Theorem sync_with_build_only_syncs :
  forall (O : Type) (tools : Tools O) (args : Args) (w : World O),
    arg_setup args = false ->
    arg_sync args = true ->
    arg_build args = true ->
    xorb (arg_ios args) (arg_android args) = true ->
    OS.stat_isdir w (arg_dir args) = true ->
    main tools args w =
    (sync tools (target_dir_of args w) (platform_of args) ;;
     print (completed "sync" (platform_of args) (target_dir_of args w)) ;;
     sys_exit 0) w.
Proof.
  intros O tools args w Hs Hy Hb Hp Hd.
  rewrite main_dispatch.
  - cbv zeta. rewrite Hs, Hy. reflexivity.
  - unfold rejected_usage. rewrite Hs, Hy, Hb, Hd.
    destruct (arg_ios args), (arg_android args); try discriminate; reflexivity.
Qed.

Lemma sync_with_build_only_syncs_witness :
  main Toolchain.run Sample.sync_build_android (Sample.after_setup []) =
  (sync Toolchain.run
     (target_dir_of Sample.sync_build_android (Sample.after_setup [])) Android ;;
   print (completed "sync" Android
            (target_dir_of Sample.sync_build_android (Sample.after_setup []))) ;;
   sys_exit 0) (Sample.after_setup []).
Proof.
  apply (sync_with_build_only_syncs _ Toolchain.run Sample.sync_build_android
           (Sample.after_setup [])); reflexivity.
Defined.

(** C2, as stated, fails: after a setup, [--sync --build --android] runs
    the one command of [sync] and exits 0; nothing of [build] happens (no
    [gn gen], no output directory), whereas [--build] alone from the same
    world starts with [gn gen]. *)
Lemma sync_with_build_skips_build :
  result (main Toolchain.run Sample.sync_build_android (Sample.after_setup []))
  = Raise (SystemExit 0%Z)
  /\ command_lines
       (events (main Toolchain.run Sample.sync_build_android
                  (Sample.after_setup [])))
     = ["gclient sync -D"]
  /\ FS.exists_ ["work"; "build_webrtc"; "build"]
       (fs (world_after (main Toolchain.run Sample.sync_build_android
                           (Sample.after_setup []))))
     = false
  /\ hd_error
       (command_lines
          (events (main Toolchain.run Sample.build_android
                     (Sample.after_setup []))))
     = android_gn_gen_cmd false "arm".
Proof. repeat split; vm_compute; reflexivity. Qed.

(** ** Missing source tree *)

(** Both actions start with the same test. *)
Lemma sync_without_source {O} (tools : Tools O) target_dir platform
    (w : World O) :
  OS.isdir_in w
    (Path.join target_dir ["webrtc"; platform_name platform; "src"]) = false ->
  sync tools target_dir platform w
  = ([EvPrint SOURCE_NOT_FOUND], w, Raise (SystemExit 1%Z)).
Proof. intros H. unfold sync, bind, OS.path_isdir. rewrite H. reflexivity. Qed.

Lemma build_without_source {O} (tools : Tools O) target_dir platform debug
    (w : World O) :
  OS.isdir_in w
    (Path.join target_dir ["webrtc"; platform_name platform; "src"]) = false ->
  build tools target_dir platform debug w
  = ([EvPrint SOURCE_NOT_FOUND], w, Raise (SystemExit 1%Z)).
Proof. intros H. unfold build, bind, OS.path_isdir. rewrite H. reflexivity. Qed.

(** C4.  For every target directory and platform: when
    [webrtc/<platform>/src] under the target directory is not a directory,
    [sync] and [build] print the guidance message and end with
    [sys.exit(1)]; the trace holds nothing else (no command ran) and the
    world, filesystem and working directory included, is unchanged. *)
Theorem missing_source_exits_1 :
  forall (O : Type) (tools : Tools O) (target_dir : string)
         (platform : Platform) (debug : bool) (w : World O),
    OS.isdir_in w
      (Path.join target_dir ["webrtc"; platform_name platform; "src"]) = false ->
    sync tools target_dir platform w
      = ([EvPrint SOURCE_NOT_FOUND], w, Raise (SystemExit 1%Z))
    /\ build tools target_dir platform debug w
      = ([EvPrint SOURCE_NOT_FOUND], w, Raise (SystemExit 1%Z)).
Proof.
  intros O tools target_dir platform debug w H. split.
  - apply sync_without_source. exact H.
  - apply build_without_source. exact H.
Qed.

Lemma missing_source_exits_1_witness :
  sync Toolchain.run "/work/build_webrtc" Android (Toolchain.fresh_world [])
    = ([EvPrint SOURCE_NOT_FOUND], Toolchain.fresh_world [],
       Raise (SystemExit 1%Z))
  /\ build Toolchain.run "/work/build_webrtc" Android false
       (Toolchain.fresh_world [])
    = ([EvPrint SOURCE_NOT_FOUND], Toolchain.fresh_world [],
       Raise (SystemExit 1%Z)).
Proof.
  apply (missing_source_exits_1 _ Toolchain.run "/work/build_webrtc" Android
           false (Toolchain.fresh_world [])).
  reflexivity.
Defined.

(** The same seen from the command line. *)
Corollary main_without_source :
  forall (O : Type) (tools : Tools O) (args : Args) (w : World O),
    rejected_usage args w = false ->
    arg_setup args = false ->
    OS.isdir_in w
      (Path.join (target_dir_of args w)
         ["webrtc"; platform_name (platform_of args); "src"]) = false ->
    main tools args w = ([EvPrint SOURCE_NOT_FOUND], w, Raise (SystemExit 1%Z)).
Proof.
  intros O tools args w Hv Hs Hd.
  rewrite (main_dispatch tools args w Hv). cbv zeta. rewrite Hs.
  destruct (arg_sync args); unfold bind at 1;
    [ rewrite (sync_without_source tools _ _ w Hd)
    | rewrite (build_without_source tools _ _ (arg_debug args) w Hd) ];
    reflexivity.
Qed.

(** ** Interrupted commands *)

(** C8, as amended.  When the interrupt arrives during a command, [sh]
    swallows it and returns normally: nothing is raised, and whatever
    follows [sh] in the run is executed next, from the world the command
    left. *)
Theorem interrupt_is_swallowed :
  forall (O : Type) (tools : Tools O) (cmd : string) (env : option Env)
         (dir : option string) (w : World O) (n : FS.node) (o : O)
         (B : Type) (next : M O B),
    tools (mkCmd cmd env dir) w = (Interrupted, n, o) ->
    sh tools cmd env dir w
      = ([EvPrint ("Running cmd: " ++ cmd);
          EvExec (mkCmd cmd env dir) (fs w) Interrupted n],
         mkWorld n (cwd w) (environ w) o, Ok tt)
    /\ result ((sh tools cmd env dir ;; next) w)
       = result (next (mkWorld n (cwd w) (environ w) o))
    /\ events ((sh tools cmd env dir ;; next) w)
       = (EvPrint ("Running cmd: " ++ cmd)
          :: EvExec (mkCmd cmd env dir) (fs w) Interrupted n
          :: events (next (mkWorld n (cwd w) (environ w) o)))%list.
Proof.
  intros O tools cmd env dir w n o B next H.
  assert (Hsh : sh tools cmd env dir w
                = ([EvPrint ("Running cmd: " ++ cmd);
                    EvExec (mkCmd cmd env dir) (fs w) Interrupted n],
                   mkWorld n (cwd w) (environ w) o, Ok tt)).
  { rewrite sh_run, H. reflexivity. }
  split; [exact Hsh|].
  rewrite result_bind, events_bind. unfold result, world_after, events.
  rewrite Hsh. simpl. split; reflexivity.
Qed.

Lemma interrupt_is_swallowed_witness :
  result ((sh Toolchain.run GIT_CLONE_CMD None None ;; print "next")
            (Toolchain.fresh_world [Some Interrupted]))
  = Ok tt.
Proof.
  apply (interrupt_is_swallowed _ Toolchain.run GIT_CLONE_CMD None None
           (Toolchain.fresh_world [Some Interrupted])
           (fs (Toolchain.fresh_world [])) [] unit (print "next")).
  reflexivity.
Defined.

(** C8, as stated, fails: in a first [--setup --android] whose
    [git clone] is interrupted, the three remaining commands of [setup]
    still run and the process exits with code 0. *)
Lemma steps_continue_after_interrupt :
  option_map command_lines
    (after_first_interrupt
       (events (main Toolchain.run Sample.setup_android
                  (Toolchain.fresh_world [Some Interrupted]))))
  = Some [ fetch_cmd Android; "gclient sync"; "./build/install-build-deps.sh" ]
  /\ result (main Toolchain.run Sample.setup_android
               (Toolchain.fresh_world [Some Interrupted]))
     = Raise (SystemExit 0%Z).
Proof. split; vm_compute; reflexivity. Qed.

(** ** Command construction *)

(** Every command of the Android [gn gen] loop is [android_gn_gen_cmd] of
    the mode and of one of the fixed CPUs. *)
Lemma build_generate_android_commands {O} (tools : Tools O) debug env :
  emits (android_gn_gen_event debug)
        (build_generate tools Android (build_type_of debug) debug env).
Proof.
  unfold build_generate. apply emits_for_each_in. intros cpu Hin w.
  destruct (android_gn_args debug cpu) as [gn_args|] eqn:E; simpl.
  - rewrite bind_ret, sh_run.
    destruct (tools _ w) as [[r n] o]. unfold events; simpl.
    repeat constructor. exists cpu. split; [exact Hin|].
    unfold android_gn_gen_cmd. rewrite E. reflexivity.
  - constructor.
Qed.

(** The [gn gen] command of the Android loop, as the [%] formatting of
    [GN_ANDROID_ARGS] gives it, is [android_gn_gen_line]. *)
Lemma android_gn_gen_cmd_spelled debug cpu :
  In cpu ANDROID_BUILD_CPUS ->
  android_gn_gen_cmd debug cpu = Some (android_gn_gen_line debug cpu).
Proof.
  intros Hin. simpl in Hin.
  destruct Hin as [<-|[<-|[<-|[<-|[]]]]]; destruct debug; reflexivity.
Qed.

(** ** Build-output directory names *)

Lemma NoDup_map_inj {A B} (f : A -> B) (l : list A) (x y : A) :
  NoDup (map f l) -> In x l -> In y l -> f x = f y -> x = y.
Proof.
  induction l as [|a l IH]; simpl; intros Hnd Hx Hy Hf; [contradiction|].
  inversion Hnd as [|? ? Hnotin Hnd']; subst.
  destruct Hx as [->|Hx], Hy as [->|Hy]; auto.
  - exfalso. apply Hnotin. rewrite Hf. apply in_map. exact Hy.
  - exfalso. apply Hnotin. rewrite <- Hf. apply in_map. exact Hx.
Qed.

Lemma distinct_strings_NoDup l : distinct_strings l = true -> NoDup l.
Proof.
  induction l as [|x l IH]; simpl; intros H; constructor.
  - apply andb_true_iff in H as [H _]. apply negb_true_iff in H.
    intros Hin. assert (existsb
      (fun y => match x, y with
                | Some a, Some b => String.eqb a b
                | None, None => true
                | _, _ => false
                end) l = true); [|congruence].
    apply existsb_exists. exists x. split; [exact Hin|].
    destruct x; [apply String.eqb_refl|reflexivity].
  - apply IH. apply andb_true_iff in H as [_ H]. exact H.
Qed.

Lemma gn_out_dirs_NoDup platform debug :
  NoDup (map (gn_out_dir_of (build_type_of debug)) (arch_keys platform)).
Proof.
  apply distinct_strings_NoDup. destruct platform, debug; vm_compute; reflexivity.
Qed.

Lemma gn_out_dir_defined platform debug k :
  In k (arch_keys platform) ->
  exists d, gn_out_dir_of (build_type_of debug) k = Some d.
Proof.
  destruct platform; simpl; intros H;
    repeat (destruct H as [<-|H]; [eexists; reflexivity|]); contradiction.
Qed.

(** The build-output directory is a function of the mode and the
    descriptor, defined on every descriptor of the run, and two distinct
    descriptors never get the same name. *)
Lemma gn_out_dir_injective platform debug k1 k2 :
  In k1 (arch_keys platform) ->
  In k2 (arch_keys platform) ->
  k1 <> k2 ->
  exists d1 d2,
    gn_out_dir_of (build_type_of debug) k1 = Some d1
    /\ gn_out_dir_of (build_type_of debug) k2 = Some d2
    /\ d1 <> d2.
Proof.
  intros H1 H2 Hne.
  destruct (gn_out_dir_defined platform debug k1 H1) as [d1 E1].
  destruct (gn_out_dir_defined platform debug k2 H2) as [d2 E2].
  exists d1, d2. repeat split; auto.
  intros ->. apply Hne.
  apply (NoDup_map_inj (gn_out_dir_of (build_type_of debug))
           (arch_keys platform)); auto using gn_out_dirs_NoDup.
  congruence.
Qed.

(** ** Paths *)

Section PathFacts.

Lemma split_on_nonempty sep s : Py.split_on sep s <> [].
Proof.
  destruct s as [|c s]; simpl; [discriminate|].
  destruct (Ascii.eqb c sep); [discriminate|].
  destruct (Py.split_on sep s); discriminate.
Qed.

Lemma split_on_app sep a b :
  Py.split_on sep (a ++ String sep b)
  = (Py.split_on sep a ++ Py.split_on sep b)%list.
Proof.
  induction a as [|c a IH]; simpl.
  - rewrite Ascii.eqb_refl. reflexivity.
  - destruct (Ascii.eqb c sep); [rewrite IH; reflexivity|].
    rewrite IH. pose proof (split_on_nonempty sep a) as Hne.
    destruct (Py.split_on sep a); [contradiction|reflexivity].
Qed.

Lemma endswith_char_inv a c :
  Py.endswith_char a c = true -> exists a', a = a' ++ String c "".
Proof.
  induction a as [|x a IH]; simpl; [discriminate|].
  destruct a as [|y a].
  - intros H. apply Ascii.eqb_eq in H as ->. exists "". reflexivity.
  - intros H. destruct (IH H) as [a' E]. exists (String x a').
    simpl. rewrite <- E. reflexivity.
Qed.

Lemma append_assoc (a b c : string) : (a ++ b) ++ c = a ++ (b ++ c).
Proof. induction a as [|x a IH]; simpl; [|rewrite IH]; reflexivity. Qed.

Lemma is_abs_app a b : Path.is_abs a = true -> Path.is_abs (a ++ b) = true.
Proof. destruct a; simpl; [discriminate|auto]. Qed.

Lemma is_abs_join2 a b :
  Path.is_abs a = true -> Path.is_abs (Path.join2 a b) = true.
Proof.
  intros H. unfold Path.join2.
  destruct (Path.is_abs b) eqn:E; [exact E|].
  destruct (String.eqb a "" || Py.endswith_char a Path.slash)%bool;
    apply is_abs_app; exact H.
Qed.

Lemma is_abs_not_empty a : Path.is_abs a = true -> String.eqb a "" = false.
Proof. destruct a; simpl; [discriminate|reflexivity]. Qed.

(** An absolute path resolves the same from everywhere. *)
Lemma resolve_abs cwd p :
  Path.is_abs p = true -> Path.resolve cwd p = Path.resolve [] p.
Proof. intros H. unfold Path.resolve. rewrite H. reflexivity. Qed.

(** Joining a relative path onto an absolute one walks on from where the
    absolute one leads. *)
Lemma resolve_join2 cwd a b :
  Path.is_abs a = true -> Path.is_abs b = false ->
  Path.resolve cwd (Path.join2 a b)
  = fold_left Path.step (Path.components b) (Path.resolve [] a).
Proof.
  intros Ha Hb.
  rewrite (resolve_abs cwd) by (apply is_abs_join2; exact Ha).
  unfold Path.join2. rewrite Hb, (is_abs_not_empty a Ha). simpl orb.
  unfold Path.resolve, Path.components.
  destruct (Py.endswith_char a Path.slash) eqn:E.
  - rewrite (is_abs_app a b Ha), Ha.
    destruct (endswith_char_inv a _ E) as [a' ->].
    rewrite append_assoc. simpl append at 2.
    rewrite !split_on_app, !fold_left_app. reflexivity.
  - rewrite (is_abs_app a _ Ha), Ha.
    change ("/" ++ b) with (String Path.slash b).
    rewrite split_on_app, fold_left_app. reflexivity.
Qed.

Lemma render_is_abs cs : Path.is_abs (Path.render cs) = true.
Proof. reflexivity. Qed.

Lemma abspath_is_abs cwd p : Path.is_abs (Path.abspath cwd p) = true.
Proof.
  unfold Path.abspath. destruct (Path.is_abs p); [|reflexivity].
  unfold Path.root_of. destruct p as [|a [|b rest]]; try reflexivity.
  destruct (Ascii.eqb a Path.slash && Ascii.eqb b Path.slash
            && negb (Path.is_abs rest))%bool; reflexivity.
Qed.

(** The absolute form of a relative path has a single leading slash. *)
Lemma abspath_relative cwd p :
  Path.is_abs p = false ->
  Path.abspath cwd p = Path.render (Path.resolve cwd p).
Proof. intros H. unfold Path.abspath. rewrite H. reflexivity. Qed.

End PathFacts.

(** [main] always hands an absolute [target_dir] to the actions. *)
Lemma target_dir_is_abs {O} (args : Args) (w : World O) :
  Path.is_abs (target_dir_of args w) = true.
Proof. apply abspath_is_abs. Qed.

(** ** The filesystem tree *)

Section TreeFacts.
Import FS.

Lemma assoc_set_same {A} c (v : A) es : assoc c (assoc_set c v es) = Some v.
Proof.
  induction es as [|[k x] es IH]; simpl.
  - rewrite String.eqb_refl. reflexivity.
  - destruct (String.eqb c k) eqn:E; simpl.
    + rewrite String.eqb_refl. reflexivity.
    + rewrite E. exact IH.
Qed.

Lemma assoc_set_other {A} k c (v : A) es :
  String.eqb k c = false -> assoc k (assoc_set c v es) = assoc k es.
Proof.
  intros Hkc. induction es as [|[k' x] es IH]; simpl.
  - rewrite Hkc. reflexivity.
  - destruct (String.eqb c k') eqn:E; simpl.
    + apply String.eqb_eq in E as <-. rewrite Hkc. reflexivity.
    + rewrite IH. reflexivity.
Qed.

Lemma assoc_set_set {A} c (v1 v2 : A) es :
  assoc_set c v2 (assoc_set c v1 es) = assoc_set c v2 es.
Proof.
  induction es as [|[k x] es IH]; simpl.
  - rewrite String.eqb_refl. reflexivity.
  - destruct (String.eqb c k) eqn:E; simpl.
    + rewrite String.eqb_refl. reflexivity.
    + rewrite E, IH. reflexivity.
Qed.

Lemma assoc_del_same {A} c (es : list (string * A)) :
  assoc c (assoc_del c es) = None.
Proof.
  induction es as [|[k x] es IH]; simpl; [reflexivity|].
  destruct (String.eqb c k) eqn:E; simpl; [|rewrite E]; exact IH.
Qed.

Lemma assoc_app_new {A} c (v : A) es :
  assoc c es = None -> assoc c (es ++ [(c, v)]) = Some v.
Proof.
  induction es as [|[k x] es IH]; simpl.
  - rewrite String.eqb_refl. reflexivity.
  - destruct (String.eqb c k); [discriminate|exact IH].
Qed.

Lemma lstat_app p q n :
  lstat (p ++ q) n =
  match lstat p n with
  | inl e => inl e
  | inr m => lstat q m
  end.
Proof.
  revert n. induction p as [|c p IH]; intros n; simpl; [reflexivity|].
  destruct n as [d|es]; [reflexivity|].
  destruct (assoc c es); [apply IH|reflexivity].
Qed.

Lemma lstat_fresh p : lstat p (fresh p) = inr (Dir []).
Proof.
  induction p as [|c p IH]; simpl; [reflexivity|].
  rewrite String.eqb_refl. exact IH.
Qed.

(** A directory's parent is a directory. *)
Lemma is_dir_parent p x n : is_dir (p ++ [x]) n = true -> is_dir p n = true.
Proof.
  unfold is_dir, lookup. rewrite lstat_app.
  destruct (lstat p n) as [e|[d|es]]; simpl; auto.
Qed.

(** [makedirs] on something that exists. *)
Lemma mkdirs_exists p n m : lstat p n = inr m -> mkdirs p n = inl EEXIST.
Proof.
  revert n. induction p as [|c p IH]; intros n; simpl.
  - destruct n; reflexivity.
  - destruct n as [d|es]; [discriminate|].
    destruct (assoc c es) as [k|]; [|discriminate].
    intros H. rewrite (IH k H). reflexivity.
Qed.

(** [makedirs] on something the kernel reports as missing. *)
Lemma mkdirs_enoent p n :
  lstat p n = inl ENOENT ->
  exists n', mkdirs p n = inr n' /\ lstat p n' = inr (Dir []).
Proof.
  revert n. induction p as [|c p IH]; intros n; simpl; [discriminate|].
  destruct n as [d|es]; [discriminate|].
  destruct (assoc c es) as [k|] eqn:E.
  - intros H. destruct (IH k H) as (k' & Hk & Hl). rewrite Hk.
    eexists; split; [reflexivity|]. simpl. rewrite assoc_set_same. exact Hl.
  - intros _. eexists; split; [reflexivity|]. simpl.
    rewrite (assoc_app_new c _ es E). apply lstat_fresh.
Qed.

Lemma rmtree_enoent p n : lstat p n = inl ENOENT -> rmtree p n = inl ENOENT.
Proof.
  unfold rmtree. destruct p; [discriminate|]. intros ->. reflexivity.
Qed.

(** What [rmtree] removed is gone. *)
Lemma lstat_remove p n m :
  p <> [] -> lstat p n = inr m -> lstat p (remove p n) = inl ENOENT.
Proof.
  revert n. induction p as [|c p IH]; intros n Hp; [contradiction|].
  simpl. destruct n as [d|es]; [discriminate|].
  destruct (assoc c es) as [k|] eqn:E; [|discriminate].
  destruct p as [|c' p].
  - intros _. simpl. rewrite assoc_del_same. reflexivity.
  - intros H. rewrite assoc_set_same. apply IH; [discriminate|exact H].
Qed.

Lemma rmtree_dir p n es :
  p <> [] -> lstat p n = inr (Dir es) ->
  rmtree p n = inr (remove p n).
Proof.
  intros Hp H. unfold rmtree. destruct p; [contradiction|].
  rewrite H. reflexivity.
Qed.

End TreeFacts.

(** ** The kernel's walk and the lexical resolution

    [main] tests the directory typed on the command line with the kernel's
    walk ([OS.stat_isdir]); everything after it works on [target_dir], the
    [abspath] of that directory joined with plain names, and resolves paths
    by what is written ([OS.locate]).  The two agree on paths without [.]
    and [..], and the paths made from [target_dir] are such paths. *)

Section Walk.
Import FS.

Lemma step_cases stack c :
  Path.step stack c
  = if String.eqb c "" then stack
    else if String.eqb c "." then stack
    else if String.eqb c ".." then removelast stack
    else (stack ++ [c])%list.
Proof. reflexivity. Qed.

(** Where the walk arrives is where the lexical resolution points. *)
Lemma walk_resolve comps at_ n cs :
  walk comps at_ n = inr cs -> cs = fold_left Path.step comps at_.
Proof.
  revert at_. induction comps as [|c comps IH]; intros at_.
  - simpl. intros [= <-]. reflexivity.
  - cbn [walk fold_left]. rewrite step_cases.
    destruct (String.eqb c ""); [apply IH|].
    destruct (lstat at_ n) as [e|[d|es]]; try discriminate.
    destruct (String.eqb c "."); [apply IH|].
    destruct (String.eqb c ".."); apply IH.
Qed.

Lemma no_dots_prefix comps stack :
  no_dots comps = true ->
  exists tail, fold_left Path.step comps stack = (stack ++ tail)%list.
Proof.
  revert stack. induction comps as [|c comps IH]; intros stack H.
  - exists []. rewrite app_nil_r. reflexivity.
  - simpl in H. apply andb_prop in H as [Hc H].
    apply andb_prop in Hc as [H1 H2]. apply negb_true_iff in H1, H2.
    cbn [fold_left]. rewrite step_cases, H1, H2.
    destruct (String.eqb c ""); [apply IH; exact H|].
    destruct (IH (stack ++ [c])%list H) as [tail ->].
    exists (c :: tail). rewrite <- app_assoc. reflexivity.
Qed.

(** Without [.] and [..] the walk fails only where the lexical path is
    no directory either. *)
Lemma walk_no_dots comps at_ n :
  no_dots comps = true ->
  match walk comps at_ n with
  | inr cs => cs = fold_left Path.step comps at_
  | inl _ => is_dir (fold_left Path.step comps at_) n = false
  end.
Proof.
  revert at_. induction comps as [|c comps IH]; intros at_ H.
  - reflexivity.
  - simpl in H. apply andb_prop in H as [Hc H].
    apply andb_prop in Hc as [H1 H2]. apply negb_true_iff in H1, H2.
    cbn [walk fold_left]. rewrite step_cases, H1, H2.
    destruct (String.eqb c ""); [apply IH; exact H|].
    destruct (lstat at_ n) as [e|[d|es]] eqn:E; [| |apply IH; exact H].
    + destruct (no_dots_prefix comps (at_ ++ [c]) H) as [tail ->].
      unfold is_dir, lookup. rewrite <- app_assoc, lstat_app, E. reflexivity.
    + destruct (no_dots_prefix comps (at_ ++ [c]) H) as [tail ->].
      unfold is_dir, lookup. rewrite <- app_assoc, lstat_app, E. reflexivity.
Qed.

Context {O : Type}.

(** What the kernel accepts as a directory, the lexical test accepts. *)
Lemma stat_isdir_lexical (w : World O) p :
  OS.stat_isdir w p = true -> OS.isdir_in w p = true.
Proof.
  unfold OS.stat_isdir, OS.isdir_in, OS.locate, Path.resolve.
  destruct (String.eqb p ""); [discriminate|].
  destruct (walk _ _ (fs w)) as [e|cs] eqn:E; [discriminate|].
  rewrite <- (walk_resolve _ _ _ _ E). auto.
Qed.

(** On a path without [.] and [..] the two tests give the same answer. *)
Lemma stat_isdir_dot_free (w : World O) p :
  dot_free p = true -> OS.stat_isdir w p = OS.isdir_in w p.
Proof.
  intros H. unfold OS.stat_isdir, OS.isdir_in, OS.locate, Path.resolve.
  destruct (String.eqb p ""); [reflexivity|].
  pose proof (walk_no_dots (Path.components p)
                (if Path.is_abs p then [] else cwd w) (fs w) H) as Hw.
  destruct (walk _ _ (fs w)) as [e|cs]; [symmetry; exact Hw|].
  rewrite Hw. reflexivity.
Qed.

Lemma split_on_pieces sep s :
  Forall (fun x => Py.split_on sep x = [x]) (Py.split_on sep s).
Proof.
  induction s as [|c s IH]; simpl.
  - repeat constructor.
  - destruct (Ascii.eqb c sep) eqn:E; [constructor; [reflexivity|exact IH]|].
    destruct (Py.split_on sep s) as [|x xs].
    + repeat constructor. simpl. rewrite E. reflexivity.
    + inversion IH as [|? ? Hx Hxs]; subst. constructor; [|exact Hxs].
      simpl. rewrite E, Hx. reflexivity.
Qed.

Lemma Forall_removelast {A} (P : A -> Prop) l :
  Forall P l -> Forall P (removelast l).
Proof.
  induction 1 as [|x l Hx Hl IH]; simpl; [constructor|].
  destruct l; [constructor|]. constructor; assumption.
Qed.

Lemma resolve_plain cwd p :
  Forall (fun c => plain_name c = true) cwd ->
  Forall (fun c => plain_name c = true) (Path.resolve cwd p).
Proof.
  intros Hcwd. unfold Path.resolve, Path.components.
  assert (H0 : Forall (fun c => plain_name c = true)
                 (if Path.is_abs p then [] else cwd))
    by (destruct (Path.is_abs p); [constructor|exact Hcwd]).
  revert H0. generalize (if Path.is_abs p then [] else cwd).
  induction (split_on_pieces Path.slash p) as [|c comps Hc _ IH];
    intros stack Hs; [exact Hs|].
  cbn [fold_left]. apply IH. rewrite step_cases.
  destruct (String.eqb c "") eqn:E1; [exact Hs|].
  destruct (String.eqb c ".") eqn:E2; [exact Hs|].
  destruct (String.eqb c "..") eqn:E3; [apply Forall_removelast; exact Hs|].
  apply Forall_app. split; [exact Hs|]. constructor; [|constructor].
  unfold plain_name. rewrite E1, E2, E3, Hc. reflexivity.
Qed.

Lemma plain_name_no_dots cs :
  Forall (fun c => plain_name c = true) cs -> no_dots cs = true.
Proof.
  induction 1 as [|c cs Hc _ IH]; [reflexivity|].
  simpl. rewrite IH, andb_true_r. unfold plain_name in Hc.
  apply andb_prop in Hc as [Hc _]. apply andb_prop in Hc as [Hc H3].
  apply andb_prop in Hc as [_ H2]. rewrite H2, H3. reflexivity.
Qed.

Lemma components_joined cs :
  Forall (fun c => plain_name c = true) cs ->
  Path.components (Py.join "/" cs)
  = match cs with [] => [""] | _ :: _ => cs end.
Proof.
  assert (Hone : forall c, plain_name c = true ->
                           Py.split_on Path.slash c = [c]).
  { intros c Hc. unfold plain_name in Hc.
    apply andb_prop in Hc as [_ Hc].
    pose proof (split_on_pieces Path.slash c) as Hp.
    destruct (Py.split_on Path.slash c) as [|y [|z l]] eqn:E;
      try discriminate.
    inversion Hp as [|? ? Hy _]; subst.
    assert (Hl : forall s y', Py.split_on Path.slash s = [y'] -> y' = s).
    { clear. induction s as [|a s IH]; intros y'; simpl.
      - intros [= <-]. reflexivity.
      - destruct (Ascii.eqb a Path.slash).
        + intros H. injection H as _ H.
          destruct (split_on_nonempty _ _ H).
        + destruct (Py.split_on Path.slash s) as [|x xs] eqn:E.
          * destruct (split_on_nonempty _ _ E).
          * intros H. injection H as <- ->. rewrite (IH x eq_refl).
            reflexivity. }
    rewrite (Hl c y E). reflexivity. }
  unfold Path.components, Py.join.
  induction 1 as [|c cs Hc Hcs IH]; [reflexivity|].
  destruct cs as [|d cs].
  - simpl. apply Hone. exact Hc.
  - change (String.concat "/" (c :: d :: cs))
      with (c ++ String Path.slash (String.concat "/" (d :: cs))).
    rewrite split_on_app, IH, (Hone c Hc). reflexivity.
Qed.

(** [abspath] never leaves a [.] or a [..] in its result. *)
Lemma abspath_dot_free cwd p :
  Forall (fun c => plain_name c = true) cwd ->
  dot_free (Path.abspath cwd p) = true.
Proof.
  intros Hcwd. pose proof (resolve_plain cwd p Hcwd) as Hp.
  assert (Hj : no_dots (Path.components (Py.join "/" (Path.resolve cwd p)))
               = true).
  { rewrite (components_joined _ Hp).
    destruct (Path.resolve cwd p); [reflexivity|].
    apply plain_name_no_dots. exact Hp. }
  unfold dot_free, Path.abspath.
  assert (H1 : forall s, no_dots (Path.components s) = true ->
                         no_dots (Path.components ("/" ++ s)) = true).
  { intros s Hs. unfold Path.components. simpl. exact Hs. }
  destruct (Path.is_abs p); [|apply H1; exact Hj].
  unfold Path.root_of. destruct p as [|a [|b rest]]; try (apply H1; exact Hj).
  destruct (Ascii.eqb a Path.slash && Ascii.eqb b Path.slash
            && negb (Path.is_abs rest))%bool; [|apply H1; exact Hj].
  change ("//" ++ Py.join "/" (Path.resolve cwd (String a (String b rest))))
    with ("/" ++ "/" ++ Py.join "/" (Path.resolve cwd (String a (String b rest)))).
  apply H1, H1. exact Hj.
Qed.

Lemma no_dots_app a b : no_dots (a ++ b) = (no_dots a && no_dots b)%bool.
Proof. apply forallb_app. Qed.

(** Joining paths without dots gives a path without dots. *)
Lemma dot_free_join2 a b :
  dot_free a = true -> dot_free b = true -> dot_free (Path.join2 a b) = true.
Proof.
  intros Ha Hb. unfold Path.join2.
  destruct (Path.is_abs b); [exact Hb|].
  destruct (String.eqb a "") eqn:E; simpl orb.
  - apply String.eqb_eq in E as ->. exact Hb.
  - unfold dot_free, Path.components in *.
    destruct (Py.endswith_char a Path.slash) eqn:Es.
    + destruct (endswith_char_inv a _ Es) as [a' ->].
      rewrite split_on_app, no_dots_app in Ha.
      apply andb_prop in Ha as [Ha _].
      rewrite append_assoc. simpl append at 2.
      rewrite split_on_app, no_dots_app, Ha, Hb. reflexivity.
    + change (a ++ "/" ++ b) with (a ++ String Path.slash b).
      rewrite split_on_app, no_dots_app, Ha, Hb. reflexivity.
Qed.

Lemma dot_free_join a l :
  dot_free a = true -> forallb dot_free l = true ->
  dot_free (Path.join a l) = true.
Proof.
  unfold Path.join. revert a. induction l as [|b l IH]; intros a Ha Hl.
  - exact Ha.
  - simpl in Hl. apply andb_prop in Hl as [Hb Hl].
    simpl. apply IH; [apply dot_free_join2; assumption|exact Hl].
Qed.

(** The paths the actions build from [main]'s [target_dir]: on them the
    lexical test is the kernel's. *)
Lemma composed_paths_agree (args : Args) (w w' : World O) l :
  Forall (fun c => plain_name c = true) (cwd w) ->
  forallb dot_free l = true ->
  OS.isdir_in w' (Path.join (target_dir_of args w) l)
  = OS.stat_isdir w' (Path.join (target_dir_of args w) l).
Proof.
  intros Hcwd Hl. symmetry. apply stat_isdir_dot_free, dot_free_join.
  - apply abspath_dot_free. exact Hcwd.
  - exact Hl.
Qed.

End Walk.

(** ** mkdirp and rmr *)

Section Helpers.
Context {O : Type}.
Import FS.

Lemma mkdirp_run path (w : World O) :
  mkdirp path w =
  match OS.locate w path with
  | None => ([], w, Raise (OSError ENOENT))
  | Some cs =>
      match mkdirs cs (fs w) with
      | inl e =>
          ([], w, if errno_eqb e EEXIST then Ok tt else Raise (OSError e))
      | inr n => ([], OS.set_fs w n, Ok tt)
      end
  end.
Proof.
  unfold mkdirp, try_except, OS.makedirs, OS.update.
  destruct (OS.locate w path) as [cs|]; [|reflexivity].
  destruct (mkdirs cs (fs w)) as [e|n]; [|reflexivity].
  destruct e; reflexivity.
Qed.

Lemma rmr_run path (w : World O) :
  rmr path w =
  match OS.locate w path with
  | None => ([], w, Ok tt)
  | Some cs =>
      match rmtree cs (fs w) with
      | inl e =>
          ([], w, if errno_eqb e ENOENT then Ok tt else Raise (OSError e))
      | inr n => ([], OS.set_fs w n, Ok tt)
      end
  end.
Proof.
  unfold rmr, try_except, OS.rmtree, OS.update.
  destruct (OS.locate w path) as [cs|]; [|reflexivity].
  destruct (rmtree cs (fs w)) as [e|n]; [|reflexivity].
  destruct e; reflexivity.
Qed.

Lemma isdir_in_lstat (w : World O) path :
  OS.isdir_in w path = true ->
  exists cs es, OS.locate w path = Some cs /\ lstat cs (fs w) = inr (Dir es).
Proof.
  unfold OS.isdir_in, is_dir, lookup.
  destruct (OS.locate w path) as [cs|]; [|discriminate].
  destruct (lstat cs (fs w)) as [e|[d|es]] eqn:E; try discriminate.
  intros _. exists cs, es. split; [reflexivity|exact E].
Qed.

Lemma mkdirp_existing_dir path (w : World O) :
  OS.isdir_in w path = true -> mkdirp path w = ([], w, Ok tt).
Proof.
  intros H. destruct (isdir_in_lstat w path H) as (cs & es & Hl & Hs).
  rewrite mkdirp_run, Hl, (mkdirs_exists cs _ _ Hs). reflexivity.
Qed.

Lemma rmr_missing path (w : World O) :
  lstat_in w path = inl ENOENT -> rmr path w = ([], w, Ok tt).
Proof.
  unfold lstat_in. rewrite rmr_run.
  destruct (OS.locate w path) as [cs|]; [|reflexivity].
  intros H. rewrite (rmtree_enoent cs _ H). reflexivity.
Qed.

Lemma mkdirp_reraises path (w : World O) e :
  result (OS.makedirs path w) = Raise (OSError e) ->
  e <> EEXIST ->
  mkdirp path w = ([], w, Raise (OSError e)).
Proof.
  rewrite mkdirp_run. unfold OS.makedirs, OS.update, result.
  destruct (OS.locate w path) as [cs|]; simpl.
  - destruct (mkdirs cs (fs w)) as [e'|n]; simpl; [|discriminate].
    intros [= ->] Hne. destruct e; try reflexivity. contradiction.
  - intros [= <-] _. reflexivity.
Qed.

Lemma rmr_reraises path (w : World O) e :
  result (OS.rmtree path w) = Raise (OSError e) ->
  e <> ENOENT ->
  rmr path w = ([], w, Raise (OSError e)).
Proof.
  rewrite rmr_run. unfold OS.rmtree, OS.update, result.
  destruct (OS.locate w path) as [cs|]; simpl.
  - destruct (rmtree cs (fs w)) as [e'|n]; simpl; [|discriminate].
    intros [= ->] Hne. destruct e; try reflexivity. contradiction.
  - intros [= <-] Hne. contradiction.
Qed.

(** [rmr] of nothing or of a directory leaves nothing. *)
Lemma rmr_clears path (w : World O) :
  path <> "" ->
  lstat_in w path = inl ENOENT
  \/ (OS.isdir_in w path = true /\ below_root w path) ->
  exists w',
    rmr path w = ([], w', Ok tt)
    /\ cwd w' = cwd w /\ environ w' = environ w /\ ext w' = ext w
    /\ lstat_in w' path = inl ENOENT.
Proof.
  intros Hne [H|[H (c & cs & Hl)]].
  - exists w. rewrite (rmr_missing path w H). auto.
  - destruct (isdir_in_lstat w path H) as (cs' & es & Hl' & Hs).
    rewrite Hl in Hl'. injection Hl' as <-.
    exists (OS.set_fs w (remove (c :: cs) (fs w))).
    rewrite rmr_run, Hl, (rmtree_dir (c :: cs) _ es) by (auto; discriminate).
    repeat split.
    unfold lstat_in.
    change (OS.locate (OS.set_fs w (remove (c :: cs) (fs w))) path)
      with (OS.locate w path).
    rewrite Hl. cbn [OS.set_fs fs].
    apply (lstat_remove _ _ (Dir es)); [discriminate|exact Hs].
Qed.

(** [mkdirp] of nothing or of a directory leaves a directory. *)
Lemma mkdirp_ensures path (w : World O) :
  path <> "" ->
  lstat_in w path = inl ENOENT \/ OS.isdir_in w path = true ->
  exists w',
    mkdirp path w = ([], w', Ok tt)
    /\ cwd w' = cwd w /\ environ w' = environ w /\ ext w' = ext w
    /\ OS.isdir_in w' path = true
    /\ (lstat_in w path = inl ENOENT -> lstat_in w' path = inr (Dir [])).
Proof.
  intros Hne [H|H].
  - unfold lstat_in in H. unfold OS.locate in *.
    destruct (String.eqb_spec path ""); [contradiction|].
    destruct (mkdirs_enoent _ _ H) as (n' & Hm & Hl).
    exists (OS.set_fs w n'). rewrite mkdirp_run. unfold OS.locate.
    destruct (String.eqb_spec path ""); [contradiction|].
    rewrite Hm. repeat split.
    + unfold OS.isdir_in, OS.locate, is_dir, lookup. simpl.
      destruct (String.eqb_spec path ""); [contradiction|].
      rewrite Hl. reflexivity.
    + intros _. unfold lstat_in, OS.locate. simpl.
      destruct (String.eqb_spec path ""); [contradiction|]. exact Hl.
  - exists w. rewrite (mkdirp_existing_dir path w H). repeat split; auto.
    intros H'. destruct (isdir_in_lstat w path H) as (cs & es & Hl & Hs).
    unfold lstat_in in H'. rewrite Hl, Hs in H'. discriminate.
Qed.

End Helpers.

(** C10.  For every world and path:
    - [mkdirp] of an existing directory succeeds and changes nothing, and
      [rmr] of a path the kernel reports as missing ([ENOENT]) succeeds and
      changes nothing;
    - any other error of [os.makedirs] or [shutil.rmtree] is re-raised as
      it is, the world unchanged;
    - hence [rmr] succeeds whether the path is a directory or missing (the
      ['out'] directory of a first build), [rmr] followed by [mkdirp]
      succeeds in both cases and leaves an empty directory (the final
      artifacts directory), and [mkdirp] succeeds in both cases and leaves
      a directory (the directories [setup] creates). *)
Theorem mkdirp_rmr_tolerate_presence_and_absence :
  forall (O : Type) (w : World O) (path : string),
    (OS.isdir_in w path = true -> mkdirp path w = ([], w, Ok tt))
    /\ (lstat_in w path = inl FS.ENOENT -> rmr path w = ([], w, Ok tt))
    /\ (forall e, result (OS.makedirs path w) = Raise (OSError e) ->
                  e <> FS.EEXIST ->
                  mkdirp path w = ([], w, Raise (OSError e)))
    /\ (forall e, result (OS.rmtree path w) = Raise (OSError e) ->
                  e <> FS.ENOENT ->
                  rmr path w = ([], w, Raise (OSError e)))
    /\ (path <> "" ->
        lstat_in w path = inl FS.ENOENT
        \/ (OS.isdir_in w path = true /\ below_root w path) ->
        result (rmr path w) = Ok tt
        /\ result ((rmr path ;; mkdirp path) w) = Ok tt
        /\ lstat_in (world_after ((rmr path ;; mkdirp path) w)) path
           = inr (FS.Dir []))
    /\ (path <> "" ->
        lstat_in w path = inl FS.ENOENT \/ OS.isdir_in w path = true ->
        result (mkdirp path w) = Ok tt
        /\ OS.isdir_in (world_after (mkdirp path w)) path = true).
Proof.
  intros O w path.
  split; [apply mkdirp_existing_dir|].
  split; [apply rmr_missing|].
  split; [apply mkdirp_reraises|].
  split; [apply rmr_reraises|].
  split.
  - intros Hne H.
    destruct (rmr_clears path w Hne H) as (w1 & Hr & Hc & He & Hx & Hl).
    destruct (mkdirp_ensures path w1 Hne (or_introl Hl))
      as (w2 & Hm & _ & _ & _ & _ & Hd).
    rewrite result_bind, world_bind. unfold result, world_after.
    rewrite Hr. simpl. rewrite Hm. simpl. auto.
  - intros Hne H.
    destruct (mkdirp_ensures path w Hne H) as (w1 & Hm & _ & _ & _ & Hd & _).
    unfold result, world_after. rewrite Hm. simpl. auto.
Qed.

Lemma mkdirp_rmr_tolerate_presence_and_absence_witness :
  mkdirp "/work" (Toolchain.fresh_world [])
    = ([], Toolchain.fresh_world [], Ok tt)
  /\ rmr "/work/out" (Toolchain.fresh_world [])
    = ([], Toolchain.fresh_world [], Ok tt)
  /\ mkdirp "/work/notes/sub" Sample.with_file
    = ([], Sample.with_file, Raise (OSError FS.ENOTDIR))
  /\ rmr "/work/notes" Sample.with_file
    = ([], Sample.with_file, Raise (OSError FS.ENOTDIR))
  /\ result ((rmr "/work" ;; mkdirp "/work") (Sample.after_setup [])) = Ok tt
  /\ OS.isdir_in (world_after (mkdirp "/work/a/b" (Toolchain.fresh_world [])))
       "/work/a/b" = true.
Proof.
  destruct (mkdirp_rmr_tolerate_presence_and_absence _
              (Toolchain.fresh_world []) "/work") as (H1 & _).
  destruct (mkdirp_rmr_tolerate_presence_and_absence _
              (Toolchain.fresh_world []) "/work/out") as (_ & H2 & _).
  destruct (mkdirp_rmr_tolerate_presence_and_absence _
              Sample.with_file "/work/notes/sub") as (_ & _ & H3 & _).
  destruct (mkdirp_rmr_tolerate_presence_and_absence _
              Sample.with_file "/work/notes") as (_ & _ & _ & H4 & _).
  destruct (mkdirp_rmr_tolerate_presence_and_absence _
              (Sample.after_setup []) "/work") as (_ & _ & _ & _ & H5 & _).
  destruct (mkdirp_rmr_tolerate_presence_and_absence _
              (Toolchain.fresh_world []) "/work/a/b")
    as (_ & _ & _ & _ & _ & H6).
  split; [apply H1; reflexivity|].
  split; [apply H2; reflexivity|].
  split; [apply H3; [reflexivity|discriminate]|].
  split; [apply H4; [reflexivity|discriminate]|].
  split.
  - apply H5; [discriminate|]. right. split; [reflexivity|].
    exists "work", []. reflexivity.
  - apply H6; [discriminate|]. left. reflexivity.
Defined.

(** ** Running setup again *)

Section SetupAgain.
Context {O : Type} (tools : Tools O).

Lemma bind_quiet {A B} (m : M O A) (f : A -> M O B) (w w' : World O) (a : A) :
  m w = ([], w', Ok a) -> bind m f w = f a w'.
Proof.
  intros H. unfold bind. rewrite H. destruct (f a w') as [[es w''] r].
  reflexivity.
Qed.

Lemma locate_abs (w : World O) p :
  Path.is_abs p = true -> OS.locate w p = Some (Path.resolve [] p).
Proof.
  intros H. unfold OS.locate.
  rewrite (is_abs_not_empty p H), (resolve_abs _ p H). reflexivity.
Qed.

Lemma locate_join2 (w : World O) a b :
  Path.is_abs a = true -> Path.is_abs b = false ->
  OS.locate w (Path.join2 a b)
  = Some (fold_left Path.step (Path.components b) (Path.resolve [] a)).
Proof.
  intros Ha Hb. rewrite locate_abs by (apply is_abs_join2; exact Ha).
  rewrite (resolve_join2 [] a b Ha Hb). reflexivity.
Qed.

(** Absolute paths are looked up the same whatever the working directory. *)
Lemma isdir_in_abs (w : World O) dir p :
  Path.is_abs p = true ->
  OS.isdir_in (mkWorld (fs w) dir (environ w) (ext w)) p = OS.isdir_in w p.
Proof.
  intros H. unfold OS.isdir_in. rewrite !locate_abs by exact H. reflexivity.
Qed.

Lemma chdir_run (w : World O) p cs es :
  OS.locate w p = Some cs -> FS.lstat cs (fs w) = inr (FS.Dir es) ->
  OS.chdir p w = ([], mkWorld (fs w) cs (environ w) (ext w), Ok tt).
Proof. intros Hl Hs. unfold OS.chdir. rewrite Hl, Hs. reflexivity. Qed.

Lemma isdir_in_child_abs (w : World O) a b :
  Path.is_abs a = true ->
  Path.is_abs b = false ->
  (exists x, forall stack, fold_left Path.step (Path.components b) stack
                           = (stack ++ [x])%list) ->
  OS.isdir_in w (Path.join2 a b) = true ->
  OS.isdir_in w a = true.
Proof.
  intros Ha Hb [x Hx]. unfold OS.isdir_in.
  rewrite (locate_join2 w a b Ha Hb), (locate_abs w a Ha), Hx.
  apply is_dir_parent.
Qed.

Lemma setup_tail_commands platform target_dir :
  emits install_deps_event
    (match platform with
     | Android =>
         OS.chdir (Path.join target_dir ["webrtc"; platform_name platform; "src"]) ;;
         sh tools "./build/install-build-deps.sh" None None
     | Ios => ret tt
     end).
Proof.
  destruct platform; [apply emits_ret|].
  apply emits_bind; [apply emits_chdir|]. intros _ w.
  rewrite sh_run. destruct (tools _ w) as [[r n] o].
  unfold events; simpl. repeat constructor.
Qed.

Lemma command_lines_app es1 es2 :
  command_lines (es1 ++ es2) = (command_lines es1 ++ command_lines es2)%list.
Proof.
  induction es1 as [|[l|c b r a] es1 IH]; simpl; [reflexivity|exact IH|].
  rewrite IH. reflexivity.
Qed.

Lemma command_lines_forall (P : string -> Prop) es :
  Forall (fun e => match e with
                   | EvExec c _ _ _ => P (cmd_line c)
                   | EvPrint _ => True
                   end) es ->
  Forall P (command_lines es).
Proof.
  induction 1 as [|[l|c b r a] es H _ IH]; simpl; auto.
Qed.

(** With depot_tools and the platform's checkout directory in place,
    [setup] goes straight to [gclient sync]. *)
Lemma setup_again_run target_dir platform (w : World O) path0 :
  Path.is_abs target_dir = true ->
  OS.isdir_in w (Path.join target_dir ["depot_tools"]) = true ->
  OS.isdir_in w (Path.join target_dir ["webrtc"; platform_name platform]) = true ->
  FS.assoc "PATH" (environ w) = Some path0 ->
  setup tools target_dir platform w =
  (sh tools "gclient sync"
      (Some (FS.assoc_set "PATH"
               (path0 ++ ":" ++ Path.join target_dir ["depot_tools"])
               (environ w))) None ;;
   match platform with
   | Android =>
       OS.chdir (Path.join target_dir ["webrtc"; platform_name platform; "src"]) ;;
       sh tools "./build/install-build-deps.sh" None None
   | Ios => ret tt
   end)
    (mkWorld (fs w) (Path.resolve [] target_dir) (environ w) (ext w)).
Proof.
  intros Habs Hdepot Hwebrtc Hpath.
  assert (Htarget : OS.isdir_in w target_dir = true).
  { apply (isdir_in_child_abs w target_dir "depot_tools"); auto.
    exists "depot_tools". reflexivity. }
  destruct (isdir_in_lstat w target_dir Htarget) as (cs & es & Hl & Hs).
  rewrite (locate_abs w _ Habs) in Hl. injection Hl as <-.
  set (w1 := mkWorld (fs w) (Path.resolve [] target_dir) (environ w) (ext w)).
  unfold setup.
  rewrite (bind_quiet _ _ w w tt) by (apply mkdirp_existing_dir; exact Htarget).
  rewrite (bind_quiet _ _ w w1 tt)
    by (apply (chdir_run w target_dir _ es); [apply locate_abs; exact Habs|exact Hs]).
  rewrite (bind_quiet (OS.path_isdir _) _ w1 w1 true).
  2:{ unfold OS.path_isdir, w1. rewrite isdir_in_abs, Hdepot; [reflexivity|].
      apply is_abs_join2; exact Habs. }
  cbn [negb]. rewrite bind_ret.
  rewrite (bind_quiet OS.environ_copy _ w1 w1 (environ w)) by reflexivity.
  rewrite (bind_quiet (OS.dict_get _ _) _ w1 w1 path0)
    by (unfold OS.dict_get; rewrite Hpath; reflexivity).
  rewrite (bind_quiet (OS.path_isdir _) _ w1 w1 true).
  2:{ unfold OS.path_isdir, w1. rewrite isdir_in_abs, Hwebrtc; [reflexivity|].
      cbn [Path.join fold_left]. repeat apply is_abs_join2. exact Habs. }
  cbn [negb]. rewrite bind_ret. reflexivity.
Qed.

End SetupAgain.

(** C5.  For every absolute target directory (the form [main] passes) and
    platform: when the depot_tools directory and the per-platform source
    directory [webrtc/<platform>] already exist, as a first successful
    [setup] leaves them, and [PATH] is set, then [setup] runs
    [gclient sync] as its first command, runs neither the depot_tools
    clone nor the platform fetch, and runs nothing else but the Android
    dependency installer. *)
Theorem setup_again_skips_clone_and_fetch :
  forall (O : Type) (tools : Tools O) (target_dir : string)
         (platform : Platform) (w : World O),
    Path.is_abs target_dir = true ->
    OS.isdir_in w (Path.join target_dir ["depot_tools"]) = true ->
    OS.isdir_in w (Path.join target_dir ["webrtc"; platform_name platform])
      = true ->
    FS.assoc "PATH" (environ w) <> None ->
    exists rest,
      command_lines (events (setup tools target_dir platform w))
        = "gclient sync" :: rest
      /\ Forall (eq "./build/install-build-deps.sh") rest
      /\ ~ In GIT_CLONE_CMD
           (command_lines (events (setup tools target_dir platform w)))
      /\ ~ In (fetch_cmd platform)
           (command_lines (events (setup tools target_dir platform w))).
Proof.
  intros O tools target_dir platform w Habs Hdepot Hwebrtc Hpath.
  destruct (FS.assoc "PATH" (environ w)) as [path0|] eqn:E; [|contradiction].
  rewrite (setup_again_run tools target_dir platform w path0) by assumption.
  set (w1 := mkWorld _ _ _ _). set (tail := match platform with
                                            | Ios => _ | Android => _ end).
  set (env := Some _).
  assert (Htail : forall w', Forall (eq "./build/install-build-deps.sh")
                               (command_lines (events (tail w')))).
  { intros w'. apply command_lines_forall.
    pose proof (setup_tail_commands tools platform target_dir w') as H.
    eapply Forall_impl; [|exact H]. intros [l|c b r a]; simpl; auto. }
  clearbody tail.
  set (run := bind (sh tools "gclient sync" env None) (fun _ => tail) w1).
  assert (Hrest : exists rest,
             command_lines (events run) = "gclient sync" :: rest
             /\ Forall (eq "./build/install-build-deps.sh") rest).
  { unfold run. rewrite events_bind. unfold result, events at 1 2, world_after.
    rewrite sh_run. destruct (tools _ w1) as [[r n] o]. cbn [fst snd].
    destruct r as [rc| |e]; [destruct (rc =? 0)%Z|..]; simpl;
      eexists; (split; [reflexivity|]); try apply Htail; constructor. }
  destruct Hrest as (rest & -> & Hall).
  exists rest. repeat split; auto.
  - intros [H|H]; [discriminate|].
    rewrite Forall_forall in Hall. apply Hall in H. discriminate.
  - intros [H|H]; [destruct platform; discriminate|].
    rewrite Forall_forall in Hall. apply Hall in H.
    destruct platform; discriminate.
Qed.

(** A second [--setup --android] on the machine the first one left. *)
Lemma setup_again_skips_clone_and_fetch_witness :
  exists rest,
    command_lines
      (events (setup Toolchain.run "/work/build_webrtc" Android
                 (Sample.after_setup [])))
      = "gclient sync" :: rest
    /\ Forall (eq "./build/install-build-deps.sh") rest
    /\ ~ In GIT_CLONE_CMD
         (command_lines
            (events (setup Toolchain.run "/work/build_webrtc" Android
                       (Sample.after_setup []))))
    /\ ~ In (fetch_cmd Android)
         (command_lines
            (events (setup Toolchain.run "/work/build_webrtc" Android
                       (Sample.after_setup [])))).
Proof.
  apply (setup_again_skips_clone_and_fetch _ Toolchain.run
           "/work/build_webrtc" Android (Sample.after_setup []));
    [reflexivity | reflexivity | reflexivity | discriminate].
Defined.

(** ** Updates below a directory *)

Section Focus.
Import FS.

(** An update below an existing path [d] is the update of the subtree
    found there. *)
Lemma focus_mkdirs d q n m :
  lstat d n = inr m ->
  mkdirs (d ++ q) n =
  match mkdirs q m with
  | inl e => inl e
  | inr m' => inr (graft d m' n)
  end.
Proof.
  revert n. induction d as [|c d IH]; intros n; simpl.
  - intros [= ->]. destruct (mkdirs q m); reflexivity.
  - destruct n as [x|es]; [discriminate|].
    destruct (assoc c es) as [k|]; [|discriminate].
    intros H. rewrite (IH k H). destruct (mkdirs q m); reflexivity.
Qed.

Lemma focus_place d q x n m :
  q <> [] ->
  lstat d n = inr m ->
  place (d ++ q) x n =
  match place q x m with
  | inl e => inl e
  | inr m' => inr (graft d m' n)
  end.
Proof.
  intros Hq. revert n. induction d as [|c d IH]; intros n; simpl.
  - intros [= ->]. destruct (place q x m); reflexivity.
  - destruct n as [y|es]; [discriminate|].
    destruct (assoc c es) as [k|]; [|discriminate].
    intros H. destruct (d ++ q)%list as [|c' p'] eqn:E.
    { apply app_eq_nil in E as [_ E]. contradiction. }
    rewrite (IH k H). destruct (place q x m); reflexivity.
Qed.

Lemma focus_write_file d q data n m :
  q <> [] ->
  lstat d n = inr m ->
  write_file (d ++ q) data n =
  match write_file q data m with
  | inl e => inl e
  | inr m' => inr (graft d m' n)
  end.
Proof.
  intros Hq H. unfold write_file.
  destruct (d ++ q)%list as [|c' p'] eqn:E.
  { apply app_eq_nil in E as [_ E]. contradiction. }
  rewrite <- E, lstat_app, H. destruct q as [|c q]; [contradiction|].
  destruct (lstat (c :: q) m) as [e|[y|es]];
    try reflexivity; apply focus_place; auto.
Qed.

Lemma lstat_graft_same d q n m m' :
  lstat d n = inr m -> lstat (d ++ q) (graft d m' n) = lstat q m'.
Proof.
  revert n. induction d as [|c d IH]; intros n; simpl; [reflexivity|].
  destruct n as [x|es]; [discriminate|].
  destruct (assoc c es) as [k|] eqn:E; [|discriminate].
  intros H. simpl. rewrite assoc_set_same. apply IH. exact H.
Qed.

Lemma lstat_graft_diverge p d n m' :
  diverge p d -> lstat p (graft d m' n) = lstat p n.
Proof.
  intros (pre & a & p' & b & d' & -> & -> & Hab).
  revert n. induction pre as [|c pre IH]; intros n; simpl.
  - destruct n as [x|es]; [reflexivity|].
    destruct (assoc b es) as [k|] eqn:E; [|reflexivity].
    simpl. rewrite assoc_set_other; [reflexivity|].
    apply String.eqb_neq. exact Hab.
  - destruct n as [x|es]; [reflexivity|].
    destruct (assoc c es) as [k|] eqn:E; simpl; rewrite ?E; [|reflexivity].
    rewrite assoc_set_same. apply IH.
Qed.

Lemma read_file_graft_diverge p d n m' :
  diverge p d -> read_file p (graft d m' n) = read_file p n.
Proof.
  intros H. unfold read_file. rewrite (lstat_graft_diverge p d n m' H).
  reflexivity.
Qed.

Lemma path_eqb_diverge p q : diverge p q -> path_eqb p q = false.
Proof.
  intros (pre & a & p' & b & q' & -> & -> & Hab).
  induction pre as [|c pre IH]; simpl.
  - apply String.eqb_neq in Hab. rewrite Hab. reflexivity.
  - rewrite String.eqb_refl. exact IH.
Qed.

End Focus.

Section FocusedCalls.
Context {O : Type}.
Import FS.

(** [mkdirp] below a directory whose subtree is known. *)
Lemma mkdirp_into_run (w : World O) path d q m :
  OS.locate w path = Some (d ++ q)%list ->
  lstat d (fs w) = inr m ->
  mkdirp path w =
  match mkdirs q m with
  | inl e => ([], w, if errno_eqb e EEXIST then Ok tt else Raise (OSError e))
  | inr m' => ([], OS.set_fs w (graft d m' (fs w)), Ok tt)
  end.
Proof.
  intros Hl Hs. rewrite mkdirp_run, Hl, (focus_mkdirs d q _ m Hs).
  destruct (mkdirs q m); reflexivity.
Qed.

(** [shutil.copy] of a file from elsewhere into a directory below [d]. *)
Lemma copy_into_run (w : World O) src dst s d q name m :
  OS.locate w src = Some s ->
  OS.locate w dst = Some (d ++ q)%list ->
  OS.locate w (Path.join dst [Path.basename src])
    = Some (d ++ (q ++ [name]))%list ->
  lstat d (fs w) = inr m ->
  is_dir q m = true ->
  diverge s d ->
  OS.copy src dst w =
  match read_file s (fs w) with
  | inl e => ([], w, Raise (OSError e))
  | inr data =>
      match write_file (q ++ [name]) data m with
      | inl e => ([], w, Raise (OSError e))
      | inr m' => ([], OS.set_fs w (graft d m' (fs w)), Ok tt)
      end
  end.
Proof.
  intros Hs Hd Hj Hm Hq Hdiv.
  assert (Hne : s <> (d ++ (q ++ [name]))%list).
  { destruct Hdiv as (pre & a & p' & b & q' & -> & -> & Hab).
    rewrite <- app_assoc. simpl. intros E. apply app_inv_head in E.
    injection E as E _. contradiction. }
  assert (Heqb : path_eqb s (d ++ (q ++ [name])) = false).
  { destruct Hdiv as (pre & a & p' & b & q' & -> & -> & Hab).
    rewrite <- app_assoc. apply path_eqb_diverge.
    exists pre, a, p', b, (q' ++ (q ++ [name]))%list. auto. }
  unfold OS.copy.
  rewrite (bind_quiet (OS.path_isdir dst) _ w w true).
  2:{ unfold OS.path_isdir, OS.isdir_in. rewrite Hd.
      unfold is_dir, lookup in *. rewrite lstat_app, Hm. rewrite Hq.
      reflexivity. }
  cbv beta iota. unfold OS.copyfile.
  rewrite (bind_quiet (OS.same_file _ _) _ w w false).
  2:{ unfold OS.same_file. rewrite Hs, Hj, Heqb, andb_false_r. reflexivity. }
  destruct (read_file s (fs w)) as [e|data] eqn:R.
  { unfold bind, OS.read. rewrite Hs, R. reflexivity. }
  rewrite (bind_quiet (OS.read src) _ w w data)
    by (unfold OS.read; rewrite Hs, R; reflexivity).
  unfold OS.update. rewrite Hj.
  rewrite (focus_write_file d (q ++ [name]) data _ m)
    by (auto; destruct q; discriminate).
  destruct (write_file (q ++ [name]) data m); reflexivity.
Qed.

End FocusedCalls.

(** ** Android staging *)

Section Staging.
Context {O : Type}.
Variable target_dir : string.
Hypothesis target_abs : Path.is_abs target_dir = true.

Let T : list string := Path.resolve [] target_dir.
Let D : list string := (T ++ ["build"; "android"])%list.
Let W : list string := (T ++ ["webrtc"; "android"; "src"])%list.
Let build_dir : string := Path.join target_dir ["build"; "android"].

Lemma locate_join (w : World O) a l :
  Path.is_abs a = true ->
  Forall (fun b => Path.is_abs b = false) l ->
  OS.locate w (Path.join a l)
  = Some (fold_left (fun st b => fold_left Path.step (Path.components b) st)
            l (Path.resolve [] a)).
Proof.
  intros Ha Hl. revert a Ha. induction Hl as [|b l Hb _ IH]; intros a Ha.
  - apply locate_abs. exact Ha.
  - unfold Path.join in *. simpl. rewrite IH by (apply is_abs_join2; exact Ha).
    rewrite (resolve_join2 [] a b Ha Hb). reflexivity.
Qed.

Lemma diverge_source s :
  diverge (T ++ "webrtc" :: s) D.
Proof.
  exists T, "webrtc", s, "build", ["android"]. repeat split. discriminate.
Qed.

Ltac locate_source Hcwd :=
  unfold OS.locate; cbn; rewrite Hcwd; unfold W; rewrite <- ?app_assoc;
  reflexivity.

Ltac locate_target :=
  unfold build_dir;
  repeat match goal with
         | |- OS.locate _ (Path.join (Path.join ?a ?l1) ?l2) = _ =>
             let l := eval simpl in (l1 ++ l2)%list in
             change (Path.join (Path.join a l1) l2) with (Path.join a l)
         end;
  rewrite locate_join;
  [ cbn; fold T; unfold D; rewrite <- ?app_assoc; reflexivity
  | exact target_abs
  | repeat (constructor; [reflexivity|]); constructor ].

Lemma bind_copy_into {B} (f : unit -> M O B) (w : World O)
    src dst s d q name m :
  OS.locate w src = Some s ->
  OS.locate w dst = Some (d ++ q)%list ->
  OS.locate w (Path.join dst [Path.basename src])
    = Some (d ++ (q ++ [name]))%list ->
  FS.lstat d (fs w) = inr m ->
  FS.is_dir q m = true ->
  diverge s d ->
  bind (OS.copy src dst) f w =
  match FS.read_file s (fs w) with
  | inl e => ([], w, Raise (OSError e))
  | inr data =>
      match FS.write_file (q ++ [name]) data m with
      | inl e => ([], w, Raise (OSError e))
      | inr m' => f tt (OS.set_fs w (FS.graft d m' (fs w)))
      end
  end.
Proof.
  intros Hs Hd Hj Hm Hq Hdiv. unfold bind.
  rewrite (copy_into_run w src dst s d q name m) by assumption.
  destruct (FS.read_file s (fs w)) as [e|data]; [reflexivity|].
  destruct (FS.write_file (q ++ [name]) data m) as [e|m']; [reflexivity|].
  destruct (f tt _) as [[es w'] r]. reflexivity.
Qed.

Lemma bind_mkdirp_into {B} (f : unit -> M O B) (w : World O) path d q m :
  OS.locate w path = Some (d ++ q)%list ->
  FS.lstat d (fs w) = inr m ->
  bind (mkdirp path) f w =
  match FS.mkdirs q m with
  | inl e =>
      if FS.errno_eqb e FS.EEXIST then f tt w else ([], w, Raise (OSError e))
  | inr m' => f tt (OS.set_fs w (FS.graft d m' (fs w)))
  end.
Proof.
  intros Hl Hm. unfold bind.
  rewrite (mkdirp_into_run w path d q m) by assumption.
  destruct (FS.mkdirs q m) as [e|m'].
  - destruct (FS.errno_eqb e FS.EEXIST); [|reflexivity].
    destruct (f tt w) as [[es w'] r]. reflexivity.
  - destruct (f tt _) as [[es w'] r]. reflexivity.
Qed.

Let good (x : list event * World O * outcome unit) : Prop :=
  events x = []
  /\ cwd (world_after x) = W
  /\ (result x = Ok tt -> staged_android W D (fs (world_after x))).

Lemma bind_assoc {A B C} (m : M O A) (f : A -> M O B) (g : B -> M O C) w :
  bind (bind m f) g w = bind m (fun a => bind (f a) g) w.
Proof.
  unfold bind. destruct (m w) as [[es w'] [a|e]]; [|reflexivity].
  destruct (f a w') as [[es1 w1] [b|e]]; [|reflexivity].
  destruct (g b w1) as [[es2 w2] r]. rewrite app_assoc. reflexivity.
Qed.

Lemma lstat_graft_here d n m m' :
  FS.lstat d n = inr m -> FS.lstat d (FS.graft d m' n) = inr m'.
Proof.
  intros H. pose proof (lstat_graft_same d [] n m m' H) as E.
  rewrite app_nil_r in E. exact E.
Qed.

Ltac compute_update :=
  match goal with
  | |- context [FS.write_file ?p ?d ?m] =>
      let r := eval cbv in (FS.write_file p d m) in
      change (FS.write_file p d m) with r
  | |- context [FS.mkdirs ?p ?m] =>
      let r := eval cbv in (FS.mkdirs p m) in
      change (FS.mkdirs p m) with r
  end;
  cbv beta iota.

Ltac bad_case Hcwd :=
  split; [reflexivity|];
  split; [cbn [world_after fst snd cwd OS.set_fs]; exact Hcwd|];
  intros Hr; discriminate Hr.

Ltac copy_step Hcwd src_tail q name m :=
  rewrite (bind_copy_into _ _ _ _ (T ++ "webrtc" :: src_tail) D q name m);
  [ cbn [fs OS.set_fs];
    rewrite ?read_file_graft_diverge by apply diverge_source
  | locate_source Hcwd
  | locate_target
  | locate_target
  | cbn [fs OS.set_fs]; repeat (eapply lstat_graft_here); eassumption
  | reflexivity
  | apply diverge_source ].

Ltac mkdirp_step q m :=
  rewrite (bind_mkdirp_into _ _ _ D q m);
  [ compute_update
  | locate_target
  | cbn [fs OS.set_fs]; repeat (eapply lstat_graft_here); eassumption ].

Tactic Notation "read_source" hyp(Hcwd) ident(x) ident(R) :=
  match goal with
  | |- _ (match ?r with _ => _ end) =>
      let e := fresh "e" in
      destruct r as [e|x] eqn:R; [bad_case Hcwd|]
  end.

Ltac next_cpu cpu abi :=
  rewrite ?bind_assoc;
  change (@OS.dict_get O ANDROID_CPU_ABI_MAP cpu) with (@ret O string abi);
  rewrite bind_ret, ?bind_assoc.

Lemma stage_android_run (w : World O) :
  cwd w = W ->
  FS.lstat D (fs w) = inr (FS.Dir []) ->
  good (build_stage_android build_dir "Release" w).
Proof.
  intros Hcwd HD.
  unfold build_stage_android.
  cbn [index0 ANDROID_BUILD_CPUS hd_error of_option].
  rewrite bind_ret.
  copy_step Hcwd ["android"; "src"; "out"; "Release-arm";
                  "lib.java"; "sdk"; "android"; "libwebrtc.jar"]
            (@nil string) "libwebrtc.jar" (FS.Dir []).
  read_source Hcwd jar Rjar. compute_update.
  cbn [for_each ANDROID_BUILD_CPUS].
  (* arm *)
  next_cpu "arm" "armeabi-v7a".
  mkdirp_step ["armeabi-v7a"] (FS.Dir [("libwebrtc.jar", FS.File jar)]).
  copy_step Hcwd ["android"; "src"; "out"; "Release-arm"; SO_NAME]
            ["armeabi-v7a"] SO_NAME
            (FS.Dir [("libwebrtc.jar", FS.File jar);
                     ("armeabi-v7a", FS.Dir [])]).
  read_source Hcwd so_arm Rarm. compute_update.
  (* arm64 *)
  next_cpu "arm64" "arm64-v8a".
  mkdirp_step ["arm64-v8a"]
    (FS.Dir [("libwebrtc.jar", FS.File jar);
             ("armeabi-v7a", FS.Dir [(SO_NAME, FS.File so_arm)])]).
  copy_step Hcwd ["android"; "src"; "out"; "Release-arm64"; SO_NAME]
            ["arm64-v8a"] SO_NAME
            (FS.Dir [("libwebrtc.jar", FS.File jar);
                     ("armeabi-v7a", FS.Dir [(SO_NAME, FS.File so_arm)]);
                     ("arm64-v8a", FS.Dir [])]).
  read_source Hcwd so_arm64 Rarm64. compute_update.
  (* x86 *)
  next_cpu "x86" "x86".
  mkdirp_step ["x86"]
    (FS.Dir [("libwebrtc.jar", FS.File jar);
             ("armeabi-v7a", FS.Dir [(SO_NAME, FS.File so_arm)]);
             ("arm64-v8a", FS.Dir [(SO_NAME, FS.File so_arm64)])]).
  copy_step Hcwd ["android"; "src"; "out"; "Release-x86"; SO_NAME]
            ["x86"] SO_NAME
            (FS.Dir [("libwebrtc.jar", FS.File jar);
                     ("armeabi-v7a", FS.Dir [(SO_NAME, FS.File so_arm)]);
                     ("arm64-v8a", FS.Dir [(SO_NAME, FS.File so_arm64)]);
                     ("x86", FS.Dir [])]).
  read_source Hcwd so_x86 Rx86. compute_update.
  (* x64 *)
  next_cpu "x64" "x86_64".
  mkdirp_step ["x86_64"]
    (FS.Dir [("libwebrtc.jar", FS.File jar);
             ("armeabi-v7a", FS.Dir [(SO_NAME, FS.File so_arm)]);
             ("arm64-v8a", FS.Dir [(SO_NAME, FS.File so_arm64)]);
             ("x86", FS.Dir [(SO_NAME, FS.File so_x86)])]).
  copy_step Hcwd ["android"; "src"; "out"; "Release-x64"; SO_NAME]
            ["x86_64"] SO_NAME
            (FS.Dir [("libwebrtc.jar", FS.File jar);
                     ("armeabi-v7a", FS.Dir [(SO_NAME, FS.File so_arm)]);
                     ("arm64-v8a", FS.Dir [(SO_NAME, FS.File so_arm64)]);
                     ("x86", FS.Dir [(SO_NAME, FS.File so_x86)]);
                     ("x86_64", FS.Dir [])]).
  read_source Hcwd so_x64 Rx64. compute_update.
  split; [reflexivity|].
  split; [cbn [ret world_after fst snd cwd OS.set_fs]; exact Hcwd|].
  intros _. exists jar, so_arm, so_arm64, so_x86, so_x64.
  cbn [ret world_after fst snd fs OS.set_fs].
  split; [apply (lstat_graft_here D _ (FS.Dir
            [("libwebrtc.jar", FS.File jar);
             ("armeabi-v7a", FS.Dir [(SO_NAME, FS.File so_arm)]);
             ("arm64-v8a", FS.Dir [(SO_NAME, FS.File so_arm64)]);
             ("x86", FS.Dir [(SO_NAME, FS.File so_x86)]);
             ("x86_64", FS.Dir [])]));
          repeat (eapply lstat_graft_here); exact HD|].
  unfold W. rewrite <- !app_assoc. cbn [app].
  rewrite !read_file_graft_diverge by apply diverge_source.
  auto.
Qed.

End Staging.

(** ** The command sequence of a run *)

Section Follows.
Context {O : Type}.

Lemma follows_quiet {A} (m : M O A) : emits not_exec m -> follows m [].
Proof.
  intros H w. exists []. split; [|reflexivity].
  specialize (H w). induction H as [|[l|c b r a] es He _ IH]; simpl; auto.
  discriminate He.
Qed.

Lemma follows_bind {A B} (m : M O A) (f : A -> M O B) l1 l2 :
  follows m l1 -> (forall a, follows (f a) l2) ->
  follows (bind m f) (l1 ++ l2).
Proof.
  intros Hm Hf w. destruct (Hm w) as (rest1 & E1 & R1).
  rewrite events_bind, result_bind.
  destruct (result (m w)) as [a|e].
  - destruct (Hf a (world_after (m w))) as (rest2 & E2 & R2).
    exists rest2. rewrite (R1 a eq_refl), app_nil_r in E1.
    rewrite command_lines_app, <- app_assoc, <- E1, <- E2.
    split; [reflexivity|exact R2].
  - exists (rest1 ++ l2)%list. rewrite app_assoc, <- E1.
    split; [reflexivity|discriminate].
Qed.

Lemma follows_eq {A} (m : M O A) l l' : follows m l -> l = l' -> follows m l'.
Proof. intros H <-. exact H. Qed.

Lemma follows_for_each {A} (l : list A) (body : A -> M O unit)
    (g : A -> list string) :
  (forall x, follows (body x) (g x)) ->
  follows (for_each l body) (flat_map g l).
Proof.
  intros H. induction l as [|x l IH]; simpl.
  - apply follows_quiet, emits_ret.
  - apply follows_bind; auto.
Qed.

Lemma follows_sh (tools : Tools O) cmd env dir :
  follows (sh tools cmd env dir) [cmd].
Proof.
  intros w. exists []. rewrite sh_run.
  destruct (tools _ w) as [[r n] o]. split; reflexivity.
Qed.

Lemma follows_of_option_sh (tools : Tools O) (x : option string)
    (cmd : string -> string) env dir :
  follows (gn_args <- of_option TypeError x ;; sh tools (cmd gn_args) env dir)
          (match x with Some a => [cmd a] | None => [] end).
Proof.
  destruct x as [a|]; simpl.
  - intros w. rewrite bind_ret. apply follows_sh.
  - intros w. exists []. split; [reflexivity|discriminate].
Qed.

End Follows.

Ltac follows_quiet_step :=
  apply follows_quiet;
  solve [ repeat first [ solve [auto with quiet_calls]
                       | apply emits_print; reflexivity
                       | emits_step ] ].

Lemma follows_build_android {O} (tools : Tools O) target_dir debug :
  follows (build tools target_dir Android debug) (android_build_commands debug).
Proof.
  unfold build.
  eapply follows_eq.
  - eapply follows_bind; [follows_quiet_step|intros have_src].
    eapply follows_bind.
    { instantiate (1 := []). destruct have_src; simpl; follows_quiet_step. }
    intros _.
    eapply follows_bind; [unfold action_env; follows_quiet_step|intros env].
    eapply follows_bind; [follows_quiet_step|intros _].
    eapply follows_bind; [follows_quiet_step|intros _].
    eapply follows_bind.
    { unfold build_generate. apply follows_for_each. intros cpu.
      apply (follows_of_option_sh tools (android_gn_args debug cpu)
               (fun gn_args => "gn gen "
                  ++ android_gn_out_dir (build_type_of debug) cpu
                  ++ " " ++ gn_args)). }
    intros _.
    eapply follows_bind.
    { unfold build_compile. apply follows_for_each. intros cpu.
      apply follows_sh. }
    intros _.
    eapply follows_bind; [follows_quiet_step|intros _].
    eapply follows_bind; [follows_quiet_step|intros _].
    unfold build_package_android.
    eapply follows_bind.
    { unfold build_stage_android. follows_quiet_step. }
    intros _. apply follows_sh.
  - unfold android_build_commands, android_gn_gen_cmd, android_ninja_cmd.
    simpl. repeat (destruct (android_gn_args debug _)); reflexivity.
Qed.

Lemma android_build_commands_spelled debug :
  android_build_commands debug
  = (map (android_gn_gen_line debug) ANDROID_BUILD_CPUS
       ++ map (android_ninja_cmd debug) ANDROID_BUILD_CPUS
       ++ [ZIP_ANDROID_CMD])%list.
Proof. destruct debug; reflexivity. Qed.

(** C7.  In both modes an Android build issues, before anything else, one
    [gn gen] per CPU of [ANDROID_BUILD_CPUS], in order, and each of them is
    [gn gen out/<mode>-<cpu> --args='...'] whose arguments are the standard
    ones (VP9, protobuf, test exclusion, the debug flag, the target CPU),
    the target OS, and one [extra_ldflags] entry carrying both
    [-Wl,-z,common-page-size=4096] and [-Wl,-z,max-page-size=16384]:
    - the commands of every run are a prefix of the four [gn gen], the four
      [ninja] and the zip, and all of them when the build returns;
    - a command of the run that starts with [gn gen] is the line of one of
      the four CPUs;
    - the argument list of that line holds the flags. *)
Theorem android_gn_gen_has_page_size_flags :
  forall (O : Type) (tools : Tools O) (target_dir : string) (debug : bool)
         (w : World O),
    (exists rest,
        (map (android_gn_gen_line debug) ANDROID_BUILD_CPUS
           ++ map (android_ninja_cmd debug) ANDROID_BUILD_CPUS
           ++ [ZIP_ANDROID_CMD])%list
        = (command_lines (events (build tools target_dir Android debug w))
             ++ rest)%list
        /\ (forall a, result (build tools target_dir Android debug w) = Ok a ->
                      rest = []))
    /\ (forall line,
          In line (command_lines
                     (events (build tools target_dir Android debug w))) ->
          Py.startswith line "gn gen" = true ->
          exists cpu,
            In cpu ANDROID_BUILD_CPUS /\ line = android_gn_gen_line debug cpu)
    /\ (forall cpu,
          android_gn_gen_line debug cpu
          = "gn gen out/" ++ build_type_of debug ++ "-" ++ cpu
              ++ " --args='" ++ Py.join " " (android_gn_arg_list debug cpu)
              ++ "'"
          /\ In "rtc_include_tests=false" (android_gn_arg_list debug cpu)
          /\ In ("is_debug=" ++ Py.str_bool_lower debug)
                (android_gn_arg_list debug cpu)
          /\ In ("target_cpu=" ++ Py.quoted cpu)
                (android_gn_arg_list debug cpu)
          /\ In ("target_os=" ++ Py.quoted "android")
                (android_gn_arg_list debug cpu)
          /\ In ("extra_ldflags=[" ++ Py.quoted LDFLAG_COMMON_PAGE_SIZE ++ ","
                  ++ Py.quoted LDFLAG_MAX_PAGE_SIZE ++ "]")
                (android_gn_arg_list debug cpu)).
Proof.
  intros O tools target_dir debug w.
  destruct (follows_build_android tools target_dir debug w)
    as (rest & Hrest & Hdone).
  rewrite android_build_commands_spelled in Hrest.
  split; [exists rest; split; [exact Hrest|exact Hdone]|].
  split.
  - intros line Hin Hgn.
    assert (Hall : In line
                     (map (android_gn_gen_line debug) ANDROID_BUILD_CPUS
                        ++ map (android_ninja_cmd debug) ANDROID_BUILD_CPUS
                        ++ [ZIP_ANDROID_CMD])%list)
      by (rewrite Hrest; apply in_or_app; left; exact Hin).
    apply in_app_or in Hall as [Hall|Hall].
    + apply in_map_iff in Hall as (cpu & <- & Hcpu). exists cpu. auto.
    + exfalso. apply in_app_or in Hall as [Hall|Hall].
      * apply in_map_iff in Hall as (cpu & <- & _). discriminate Hgn.
      * destruct Hall as [<-|[]]. discriminate Hgn.
  - intros cpu. split; [reflexivity|].
    unfold android_gn_arg_list; simpl; tauto.
Qed.

(** A Release build on the machine a first [--setup --android] left. *)
Lemma android_gn_gen_has_page_size_flags_witness :
  command_lines
    (events (build Toolchain.run "/work/build_webrtc" Android false
               (Sample.after_setup [])))
  = (map (android_gn_gen_line false) ANDROID_BUILD_CPUS
       ++ map (android_ninja_cmd false) ANDROID_BUILD_CPUS
       ++ [ZIP_ANDROID_CMD])%list.
Proof.
  destruct (android_gn_gen_has_page_size_flags _ Toolchain.run
              "/work/build_webrtc" false (Sample.after_setup []))
    as [(rest & E & Hr) _].
  rewrite (Hr tt) in E by (vm_compute; reflexivity).
  rewrite app_nil_r in E. symmetry. exact E.
Defined.

(** ** What holds when a command is invoked *)

Section Hoare.
Context {O : Type}.

Lemma hoare_bind {A B} (m : M O A) (f : A -> M O B) Pre Mid Post Ev :
  hoare Pre m Ev Mid -> (forall a, hoare Mid (f a) Ev Post) ->
  hoare Pre (bind m f) Ev Post.
Proof.
  intros Hm Hf w Hw. destruct (Hm w Hw) as [Hev Hpost].
  rewrite events_bind, result_bind, world_bind.
  destruct (result (m w)) as [a|e].
  - destruct (Hf a _ (Hpost a eq_refl)) as [Hev' Hpost'].
    split; [apply Forall_app; split; assumption|exact Hpost'].
  - split; [exact Hev|discriminate].
Qed.

Lemma hoare_weaken {A} (m : M O A) (Pre Pre' Post Post' : World O -> Prop) Ev :
  (forall w, Pre' w -> Pre w) -> (forall w, Post w -> Post' w) ->
  hoare Pre m Ev Post -> hoare Pre' m Ev Post'.
Proof.
  intros H1 H2 H w Hw. destruct (H w (H1 w Hw)) as [Hev Hpost].
  split; [exact Hev|]. intros a Ha. apply H2, (Hpost a Ha).
Qed.

(** A computation that leaves the world as it found it keeps whatever held. *)
Lemma hoare_unchanged {A} (m : M O A) (P : World O -> Prop) Ev :
  (forall w, world_after (m w) = w) -> emits Ev m -> hoare P m Ev P.
Proof.
  intros Hw Hev w HP. split; [apply Hev|]. intros a _. rewrite Hw. exact HP.
Qed.

(** A computation that keeps the working directory. *)
Lemma hoare_keeps_cwd {A} (m : M O A) (c : list string) Ev :
  (forall w, cwd (world_after (m w)) = cwd w) -> emits Ev m ->
  hoare (fun w => cwd w = c) m Ev (fun w => cwd w = c).
Proof.
  intros Hw Hev w HP. split; [apply Hev|]. intros a _. rewrite Hw. exact HP.
Qed.

Lemma hoare_for_each {A} (l : list A) (body : A -> M O unit)
    (Inv : World O -> Prop) Ev :
  (forall x, hoare Inv (body x) Ev Inv) ->
  hoare Inv (for_each l body) Ev Inv.
Proof.
  intros H. induction l as [|x l IH]; simpl.
  - intros w Hw. split; [constructor|]. intros a _. exact Hw.
  - eapply hoare_bind; [apply H|]. intros _. exact IH.
Qed.

Lemma sh_keeps_cwd (tools : Tools O) cmd env dir w :
  cwd (world_after (sh tools cmd env dir w)) = cwd w.
Proof.
  rewrite sh_run. destruct (tools _ w) as [[r n] o]. reflexivity.
Qed.

Lemma rmr_keeps_cwd path (w : World O) :
  cwd (world_after (rmr path w)) = cwd w.
Proof.
  rewrite rmr_run. destruct (OS.locate w path) as [cs|]; [|reflexivity].
  destruct (FS.rmtree cs (fs w)); reflexivity.
Qed.

Lemma mkdirp_keeps_cwd path (w : World O) :
  cwd (world_after (mkdirp path w)) = cwd w.
Proof.
  rewrite mkdirp_run. destruct (OS.locate w path) as [cs|]; [|reflexivity].
  destruct (FS.mkdirs cs (fs w)); reflexivity.
Qed.

Lemma emits_sh (tools : Tools O) (Ev : event -> Prop) cmd env dir :
  Ev (EvPrint ("Running cmd: " ++ cmd)) ->
  (forall before r after, Ev (EvExec (mkCmd cmd env dir) before r after)) ->
  emits Ev (sh tools cmd env dir).
Proof.
  intros Hp He w. rewrite sh_run. destruct (tools _ w) as [[r n] o].
  unfold events; simpl. repeat constructor; auto.
Qed.

(** What [rmtree] answers tells what [lstat] answers afterwards. *)
Lemma rmr_then_missing path (w : World O) cs :
  OS.locate w path = Some cs ->
  result (rmr path w) = Ok tt ->
  FS.lstat cs (fs (world_after (rmr path w))) = inl FS.ENOENT.
Proof.
  intros Hl. rewrite rmr_run, Hl. unfold FS.rmtree.
  destruct cs as [|c cs]; [discriminate|].
  destruct (FS.lstat (c :: cs) (fs w)) as [e|[d|es]] eqn:E.
  - destruct e; try discriminate. intros _. exact E.
  - discriminate.
  - intros _. unfold world_after; simpl fst; simpl snd.
    apply (lstat_remove (c :: cs) _ (FS.Dir es)); [discriminate|exact E].
Qed.

Lemma mkdirp_after_missing path (w : World O) cs :
  OS.locate w path = Some cs ->
  FS.lstat cs (fs w) = inl FS.ENOENT ->
  result (mkdirp path w) = Ok tt
  /\ FS.lstat cs (fs (world_after (mkdirp path w))) = inr (FS.Dir []).
Proof.
  intros Hl Hs. rewrite mkdirp_run, Hl.
  destruct (mkdirs_enoent cs _ Hs) as (n' & -> & Hn). split; [reflexivity|].
  exact Hn.
Qed.

End Hoare.

(** ** The Android build up to its zip *)

Section BuildZip.
Context {O : Type} (tools : Tools O).
Variable target_dir : string.
Hypothesis target_abs : Path.is_abs target_dir = true.

Let T : list string := Path.resolve [] target_dir.
Let D : list string := (T ++ ["build"; "android"])%list.
Let W : list string := (T ++ ["webrtc"; "android"; "src"])%list.
Let Ev : event -> Prop := zip_sees (staged_android W D).

Ltac quiet_ev :=
  solve [ repeat first [ solve [auto with quiet_calls]
                       | apply emits_print; exact I
                       | emits_step ] ].

Lemma locate_build_dir (w : World O) :
  OS.locate w (Path.join target_dir ["build"; "android"]) = Some D.
Proof.
  rewrite locate_join;
    [ cbn; fold T; unfold D; rewrite <- ?app_assoc; reflexivity
    | exact target_abs
    | repeat (constructor; [reflexivity|]); constructor ].
Qed.

Lemma hoare_chdir_source :
  hoare (fun _ : World O => True)
        (OS.chdir (Path.join target_dir ["webrtc"; "android"; "src"]))
        Ev (fun w => cwd w = W).
Proof.
  intros w _. split; [apply emits_chdir|].
  unfold OS.chdir.
  rewrite locate_join;
    [ | exact target_abs
      | repeat (constructor; [reflexivity|]); constructor ].
  destruct (FS.lstat _ (fs w)) as [e|[d|es]]; try discriminate.
  intros _ _. cbn. fold T. unfold W. rewrite <- ?app_assoc. reflexivity.
Qed.

Lemma hoare_sh_other cmd env dir (c : list string) :
  cmd <> ZIP_ANDROID_CMD ->
  hoare (fun w : World O => cwd w = c) (sh tools cmd env dir) Ev
        (fun w => cwd w = c).
Proof.
  intros Hne. apply hoare_keeps_cwd; [apply sh_keeps_cwd|].
  apply emits_sh; [exact I|]. intros b r a H. contradiction.
Qed.

Lemma hoare_fresh_build_dir :
  hoare (fun w : World O => cwd w = W)
        (rmr (Path.join target_dir ["build"; "android"]) ;;
         mkdirp (Path.join target_dir ["build"; "android"]))
        Ev
        (fun w => cwd w = W /\ FS.lstat D (fs w) = inr (FS.Dir [])).
Proof.
  intros w Hcwd. split.
  { apply emits_bind; [apply emits_rmr|intros; apply emits_mkdirp]. }
  intros a. rewrite result_bind, world_bind.
  destruct (result (rmr _ w)) as [[]|e] eqn:R; [|discriminate].
  intros _.
  pose proof (rmr_then_missing _ w D (locate_build_dir w) R) as Hmiss.
  pose proof (rmr_keeps_cwd (Path.join target_dir ["build"; "android"]) w)
    as Hc.
  set (w1 := world_after (rmr _ w)) in *.
  destruct (mkdirp_after_missing _ w1 D (locate_build_dir w1) Hmiss)
    as [_ Hdir].
  split; [|exact Hdir].
  rewrite mkdirp_keeps_cwd, Hc. exact Hcwd.
Qed.

Lemma hoare_package_android :
  hoare (fun w : World O => cwd w = W /\ FS.lstat D (fs w) = inr (FS.Dir []))
        (build_package_android tools
           (Path.join target_dir ["build"; "android"]) "Release")
        Ev (fun _ => True).
Proof.
  unfold build_package_android.
  apply hoare_bind with (Mid := fun w => staged_android W D (fs w)).
  - intros w [Hcwd HD].
    destruct (stage_android_run target_dir target_abs w Hcwd HD)
      as (Hev & _ & Hst).
    split; [rewrite Hev; constructor|].
    intros [] Hr. exact (Hst Hr).
  - intros _ w Hst. split; [|auto].
    rewrite sh_run. destruct (tools _ w) as [[r n] o].
    unfold events; simpl.
    constructor; [exact I|]. constructor; [|constructor].
    intros _. exact Hst.
Qed.

Lemma hoare_build_android :
  hoare (fun _ : World O => True) (build tools target_dir Android false)
        Ev (fun _ => True).
Proof.
  unfold build. cbn [platform_name build_type_of].
  apply hoare_bind with (Mid := fun _ => True).
  { apply hoare_unchanged; [reflexivity|quiet_ev]. }
  intros have_src.
  apply hoare_bind with (Mid := fun _ => True).
  { apply hoare_unchanged; [|destruct have_src; quiet_ev].
    intros w. destruct have_src; reflexivity. }
  intros _.
  apply hoare_bind with (Mid := fun _ => True).
  { apply hoare_unchanged; [|unfold action_env; quiet_ev].
    intros w. unfold action_env, bind, OS.environ_copy, OS.dict_get, of_option.
    destruct (FS.assoc "PATH" (environ w)); reflexivity. }
  intros env.
  apply hoare_bind with (Mid := fun w => cwd w = W);
    [apply hoare_chdir_source|intros _].
  apply hoare_bind with (Mid := fun w => cwd w = W).
  { apply hoare_keeps_cwd; [apply rmr_keeps_cwd|quiet_ev]. }
  intros _.
  apply hoare_bind with (Mid := fun w => cwd w = W).
  { unfold build_generate. apply hoare_for_each. intros cpu.
    destruct (android_gn_args false cpu) as [gn_args|]; simpl.
    - intros w Hw. rewrite bind_ret. revert w Hw. apply hoare_sh_other.
      discriminate.
    - apply hoare_unchanged; [reflexivity|].
      intros w. constructor. }
  intros _.
  apply hoare_bind with (Mid := fun w => cwd w = W).
  { unfold build_compile. apply hoare_for_each. intros cpu.
    apply hoare_sh_other. discriminate. }
  intros _.
  intros w Hw.
  rewrite <- (bind_assoc
                (rmr (Path.join target_dir ["build"; "android"]))
                (fun _ => mkdirp (Path.join target_dir ["build"; "android"]))
                (fun _ => build_package_android tools
                            (Path.join target_dir ["build"; "android"])
                            "Release")).
  exact (hoare_bind _ _ _ _ _ Ev hoare_fresh_build_dir
           (fun _ => hoare_package_android) w Hw).
Qed.

End BuildZip.



(** * Further properties *)

(** ** Laws of traces *)

Section OsLike.
Context {O : Type}.

Lemma os_like_ret {A} (a : A) : os_like (@ret O A a).
Proof. intros w. split; [reflexivity|exact I]. Qed.

Lemma os_like_bind {A B} (m : M O A) (f : A -> M O B) :
  os_like m -> (forall a, os_like (f a)) -> os_like (bind m f).
Proof.
  intros Hm Hf w. destruct (Hm w) as [He Hr].
  rewrite events_bind, result_bind.
  destruct (result (m w)) as [a|e].
  - destruct (Hf a (world_after (m w))) as [He' Hr'].
    rewrite He, He'. split; [reflexivity|exact Hr'].
  - split; [exact He|]. destruct e; auto.
Qed.

Lemma os_like_try {A} (m : M O A) (h : exn -> M O A) :
  os_like m ->
  (forall e, os_like (h (OSError e))) ->
  (forall msg, os_like (h (ShutilError msg))) ->
  os_like (try_except m h).
Proof.
  intros Hm H1 H2 w. destruct (Hm w) as [He Hr].
  unfold try_except, events, result in *.
  destruct (m w) as [[es w'] [a|e]]; simpl in *; [auto|].
  destruct e; try contradiction.
  - destruct (H1 e w') as [He' Hr']. unfold events, result in *.
    destruct (h (OSError e) w') as [[es' w''] r]. simpl in *. subst. auto.
  - destruct (H2 msg w') as [He' Hr']. unfold events, result in *.
    destruct (h (ShutilError msg) w') as [[es' w''] r]. simpl in *. subst. auto.
Qed.

Ltac os_prim :=
  intros w;
  cbv beta delta
    [OS.path_isdir OS.path_exists OS.path_abspath OS.update OS.chdir OS.read
     OS.same_file OS.rename OS.dest_in_src OS.environ_copy raise ret];
  repeat first
    [ solve [split; [reflexivity | exact I]]
    | match goal with
      | |- context [match ?x with _ => _ end] =>
          lazymatch x with
          | context [match _ with _ => _ end] => fail
          | _ => destruct x
          end
      end ].

Lemma os_like_isdir p : os_like (@OS.path_isdir O p).
Proof. os_prim. Qed.
Lemma os_like_isdir_walk p : os_like (@OS.path_isdir_walk O p).
Proof. intros w. split; [reflexivity|exact I]. Qed.
Lemma os_like_exists p : os_like (@OS.path_exists O p).
Proof. os_prim. Qed.
Lemma os_like_abspath p : os_like (@OS.path_abspath O p).
Proof. os_prim. Qed.
Lemma os_like_update op p : os_like (@OS.update O op p).
Proof. os_prim. Qed.
Lemma os_like_chdir p : os_like (@OS.chdir O p).
Proof. os_prim. Qed.
Lemma os_like_read p : os_like (@OS.read O p).
Proof. os_prim. Qed.
Lemma os_like_same_file a b : os_like (@OS.same_file O a b).
Proof. os_prim. Qed.
Lemma os_like_rename a b : os_like (@OS.rename O a b).
Proof. os_prim. Qed.
Lemma os_like_dest_in_src a b : os_like (@OS.dest_in_src O a b).
Proof. os_prim. Qed.
Lemma os_like_environ_copy : os_like (@OS.environ_copy O).
Proof. os_prim. Qed.
Lemma os_like_oserror {A} e : os_like (@raise O A (OSError e)).
Proof. os_prim. Qed.
Lemma os_like_shutil {A} msg : os_like (@raise O A (ShutilError msg)).
Proof. os_prim. Qed.

Lemma os_like_copyfile a b : os_like (@OS.copyfile O a b).
Proof.
  unfold OS.copyfile. apply os_like_bind; [apply os_like_same_file|].
  intros [|]; [apply os_like_shutil|].
  apply os_like_bind; [apply os_like_read|intros; apply os_like_update].
Qed.

Lemma os_like_copy a b : os_like (@OS.copy O a b).
Proof.
  unfold OS.copy. apply os_like_bind; [apply os_like_isdir|].
  intros; apply os_like_copyfile.
Qed.

Lemma os_like_copytree a b : os_like (@OS.copytree O a b).
Proof.
  intros w. unfold OS.copytree.
  destruct (OS.locate w a); [|split; [reflexivity|exact I]].
  destruct (FS.lstat l (fs w)) as [e|[d|es]];
    try (split; [reflexivity|exact I]).
  apply os_like_bind; [apply os_like_update|intros; apply os_like_update].
Qed.

Lemma os_like_move a b : os_like (@OS.move O a b).
Proof.
  unfold OS.move. apply os_like_bind; [apply os_like_isdir|]. intros d.
  apply os_like_bind.
  { destruct d; [|apply os_like_ret].
    apply os_like_bind; [apply os_like_exists|].
    intros [|]; [apply os_like_shutil|apply os_like_ret]. }
  intros real_dst. apply os_like_try; [apply os_like_rename| |].
  - intros e. apply os_like_bind; [apply os_like_isdir|]. intros [|].
    + apply os_like_bind; [apply os_like_dest_in_src|]. intros [|].
      * apply os_like_shutil.
      * apply os_like_bind; [apply os_like_copytree|].
        intros; apply os_like_update.
    + apply os_like_bind; [apply os_like_copyfile|].
      intros; apply os_like_update.
  - intros msg. apply os_like_shutil.
Qed.

Lemma os_like_mkdirp p : os_like (@mkdirp O p).
Proof.
  unfold mkdirp. apply os_like_try; [apply os_like_update| |].
  - intros e. destruct (negb _); [apply os_like_oserror|apply os_like_ret].
  - intros msg. apply os_like_shutil.
Qed.

Lemma os_like_rmr p : os_like (@rmr O p).
Proof.
  unfold rmr. apply os_like_try; [apply os_like_update| |].
  - intros e. destruct (negb _); [apply os_like_oserror|apply os_like_ret].
  - intros msg. apply os_like_shutil.
Qed.

End OsLike.

Create HintDb os_calls.
#[export] Hint Resolve os_like_ret os_like_isdir os_like_isdir_walk
  os_like_exists
  os_like_abspath os_like_chdir os_like_environ_copy os_like_copy
  os_like_copytree os_like_move os_like_mkdirp os_like_rmr : os_calls.

Section Obeys.
Context {O : Type} (Phi : list event -> option exn -> Prop).
Hypothesis Hlaw : trace_law Phi.

Lemma obeys_os_like {A} (m : M O A) : os_like m -> obeys Phi m.
Proof.
  intros H w. destruct (H w) as [He Hr]. rewrite He.
  destruct (result (m w)) as [a|e]; simpl.
  - apply (law_ret _ Hlaw).
  - destruct e; try contradiction;
      [apply (law_oserror _ Hlaw)|apply (law_shutil _ Hlaw)].
Qed.

Lemma obeys_ret {A} (a : A) : obeys Phi (@ret O A a).
Proof. intros w. apply (law_ret _ Hlaw). Qed.

Lemma obeys_print line : obeys Phi (@print O line).
Proof. intros w. apply (law_print _ Hlaw). Qed.

Lemma obeys_bind {A B} (m : M O A) (f : A -> M O B) :
  obeys Phi m -> (forall a, obeys Phi (f a)) -> obeys Phi (bind m f).
Proof.
  intros Hm Hf w. specialize (Hm w).
  rewrite events_bind, result_bind.
  destruct (result (m w)) as [a|e]; simpl in *.
  - apply (law_seq _ Hlaw); [exact Hm|apply Hf].
  - exact Hm.
Qed.

Lemma obeys_bind_ret {A B} (a : A) (f : A -> M O B) :
  obeys Phi (f a) -> obeys Phi (bind (ret a) f).
Proof. intros H w. rewrite bind_ret. apply H. Qed.

Lemma obeys_sh (tools : Tools O) cmd env dir :
  obeys Phi (sh tools cmd env dir).
Proof.
  intros w. rewrite sh_run. destruct (tools _ w) as [[r n] o].
  unfold events, result; simpl.
  replace (raised _) with (sh_outcome r); [apply (law_sh _ Hlaw)|].
  destruct r as [rc| |e]; simpl; [destruct (rc =? 0)%Z|..]; reflexivity.
Qed.

Lemma obeys_refuse line :
  In line DIAGNOSTICS -> obeys Phi (print line ;; @sys_exit O unit 1).
Proof. intros H w. apply (law_refuse _ Hlaw). exact H. Qed.

Lemma obeys_done what platform target_dir :
  obeys Phi (print (completed what platform target_dir) ;;
             @sys_exit O unit 0).
Proof. intros w. apply (law_done _ Hlaw). Qed.

Lemma obeys_get_path env : obeys Phi (@OS.dict_get O env "PATH").
Proof.
  intros w. unfold OS.dict_get. destruct (FS.assoc "PATH" env); simpl.
  - apply (law_ret _ Hlaw).
  - apply (law_no_path _ Hlaw).
Qed.

End Obeys.

(** Evaluate the pure parts of a loop body on the fixed lists. *)
Ltac eval_arg f x :=
  let r := eval cbv in x in
  progress change (f x) with (f r).

Ltac eval_pure :=
  cbv beta iota zeta;
  repeat match goal with
         | |- context [@unpack2 ?O ?xs] => eval_arg (@unpack2 O) xs
         | |- context [@index0 ?O ?xs] => eval_arg (@index0 O) xs
         | |- context [@of_option ?O ?A ?e ?x] => eval_arg (@of_option O A e) x
         | |- context [@OS.dict_get ?O ANDROID_CPU_ABI_MAP ?k] =>
             let r := eval cbv in (FS.assoc k ANDROID_CPU_ABI_MAP) in
             change (@OS.dict_get O ANDROID_CPU_ABI_MAP k)
               with (@of_option O string (KeyError k) r)
         | |- context [@for_each ?O ?A ?l ?b] =>
             let r := eval cbv in l in
             progress change (@for_each O A l b) with (@for_each O A r b)
         | |- context [@map_m ?O ?A ?B ?f ?l] =>
             let r := eval cbv in l in
             progress change (@map_m O A B f l) with (@map_m O A B f r)
         | |- context [@fold_m ?O ?A ?B ?f ?l ?b] =>
             let r := eval cbv in l in
             progress change (@fold_m O A B f l b) with (@fold_m O A B f r b)
         end;
  cbn [unpack2 index0 of_option hd_error for_each map_m fold_m].

Ltac obeys_step Hlaw :=
  eval_pure;
  first
    [ apply (obeys_sh _ Hlaw)
    | apply (obeys_os_like _ Hlaw); solve [auto with os_calls]
    | apply (obeys_get_path _ Hlaw)
    | apply (obeys_refuse _ Hlaw); simpl; tauto
    | apply (obeys_done _ Hlaw)
    | apply (obeys_print _ Hlaw)
    | apply (obeys_ret _ Hlaw)
    | apply obeys_bind_ret
    | apply (obeys_bind _ Hlaw); [|intros ?]
    | match goal with
      | |- obeys _ (if ?b then _ else _) => destruct b
      | |- obeys _ (match ?x with _ => _ end) => destruct x
      end ].

Section ObeysScript.
Context {O : Type} (tools : Tools O).
Context (Phi : list event -> option exn -> Prop) (Hlaw : trace_law Phi).

Lemma obeys_setup target_dir platform :
  obeys Phi (setup tools target_dir platform).
Proof. unfold setup. repeat obeys_step Hlaw. Qed.

Lemma obeys_sync target_dir platform :
  obeys Phi (sync tools target_dir platform).
Proof. unfold sync, action_env. repeat obeys_step Hlaw. Qed.

Lemma obeys_build_android target_dir debug :
  obeys Phi (build tools target_dir Android debug).
Proof.
  destruct debug;
    unfold build, action_env, build_generate, build_compile,
      build_package_android, build_stage_android, android_gn_args;
    repeat obeys_step Hlaw.
Qed.

Lemma obeys_build_ios target_dir debug :
  obeys Phi (build tools target_dir Ios debug).
Proof.
  destruct debug;
    unfold build, action_env, build_generate, build_compile,
      build_package_apple, swap_in_fat;
    repeat obeys_step Hlaw.
Qed.

Lemma obeys_main args : obeys Phi (main tools args).
Proof.
  unfold main.
  repeat first
    [ apply (obeys_bind _ Hlaw);
      [ first [ apply obeys_setup | apply obeys_sync
              | match goal with
                | |- obeys _ (build _ _ ?p _) =>
                    destruct p;
                    [apply obeys_build_ios|apply obeys_build_android]
                end ]
      | intros ?; apply (obeys_done _ Hlaw) ]
    | obeys_step Hlaw ].
Qed.

End ObeysScript.

(** ** Why and how a run ends *)

Lemma ends_with_app es1 es2 e : ends_with es2 e -> ends_with (es1 ++ es2) e.
Proof. intros [pre ->]. exists (es1 ++ pre)%list. apply app_assoc. Qed.

Lemma exit_explained_app es1 es2 n :
  exit_explained es2 n -> exit_explained (es1 ++ es2) n.
Proof.
  intros [(Hn & what & p & t & H)|[(Hn & line & Hin & H)|(Hn & c & b & a & H)]].
  - left. split; [exact Hn|]. exists what, p, t. apply ends_with_app, H.
  - right; left. split; [exact Hn|]. exists line.
    split; [exact Hin|apply ends_with_app, H].
  - right; right. split; [exact Hn|]. exists c, b, a. apply ends_with_app, H.
Qed.

Lemma exit_law :
  trace_law (fun es x => match x with
                         | Some (SystemExit n) => exit_explained es n
                         | _ => True
                         end).
Proof.
  constructor; auto.
  - intros es1 es2 [[n| | | | | | | |]|] _ H; auto.
    apply exit_explained_app, H.
  - intros cmd env dir before [rc| |e] after; simpl; auto.
    destruct (Z.eqb_spec rc 0); [exact I|].
    right; right. split; [assumption|].
    exists (mkCmd cmd env dir), before, after.
    exists [EvPrint ("Running cmd: " ++ cmd)]. reflexivity.
  - intros line Hin. right; left. split; [reflexivity|].
    exists line. split; [exact Hin|]. exists []. reflexivity.
  - intros what p t. left. split; [reflexivity|].
    exists what, p, t. exists []. reflexivity.
Qed.

Lemma exn_law :
  trace_law (fun _ x => match x with
                        | Some e => expected_exn e
                        | None => True
                        end).
Proof.
  constructor; simpl; auto.
  intros cmd env dir before [rc| |e] after; simpl; auto.
  destruct (rc =? 0)%Z; exact I.
Qed.

Lemma well_announced_app_le n es1 es2 :
  length es1 <= n ->
  well_announced es1 -> well_announced es2 -> well_announced (es1 ++ es2).
Proof.
  revert es1. induction n as [|n IH]; intros es1 Hlen H1 H2.
  - destruct es1; [exact H2|simpl in Hlen; lia].
  - destruct es1 as [|[line|c b r a] es1]; [exact H2| |contradiction].
    destruct es1 as [|[line'|c b r a] es1].
    + destruct es2 as [|[line'|c b r a] es2];
        [exact I|exact H2|contradiction].
    + change (well_announced ((EvPrint line' :: es1) ++ es2)).
      apply IH; [simpl in *; lia|exact H1|exact H2].
    + destruct H1 as [Hl H1]. split; [exact Hl|].
      apply IH; [simpl in *; lia|exact H1|exact H2].
Qed.

Lemma announce_law : trace_law (fun es _ => well_announced es).
Proof.
  constructor; simpl; auto.
  intros es1 es2 _ H1 H2.
  apply (well_announced_app_le (length es1)); auto.
Qed.

Lemma well_announced_nth_le n es k c b r a :
  length es <= n ->
  well_announced es ->
  nth_error es k = Some (EvExec c b r a) ->
  exists k', k = S k'
             /\ nth_error es k' = Some (EvPrint ("Running cmd: " ++ cmd_line c)).
Proof.
  revert es k. induction n as [|n IH]; intros es k Hlen Hwa Hk.
  - destruct es; [destruct k; discriminate|simpl in Hlen; lia].
  - destruct es as [|[line|c0 b0 r0 a0] es];
      [destruct k; discriminate| |contradiction].
    destruct k as [|k]; [discriminate|]. simpl in Hk.
    destruct es as [|[line'|c1 b1 r1 a1] es]; [destruct k; discriminate| |].
    + destruct (IH (EvPrint line' :: es) k) as (k' & -> & Hk');
        [simpl in *; lia|exact Hwa|exact Hk|].
      exists (S k'). split; [reflexivity|exact Hk'].
    + destruct Hwa as [Hl Hwa]. destruct k as [|k].
      * injection Hk as -> -> -> ->. exists 0. split; [reflexivity|].
        simpl. rewrite Hl. reflexivity.
      * simpl in Hk.
        destruct (IH es k) as (k' & -> & Hk');
          [simpl in *; lia|exact Hwa|exact Hk|].
        exists (S (S k')). split; [reflexivity|exact Hk'].
Qed.

(** [main] never returns: every path ends in an exception. *)
Lemma main_never_returns {O} (tools : Tools O) args w :
  exists e, result (main tools args w) = Raise e.
Proof.
  destruct (rejected_usage args w) eqn:E.
  - destruct args as [d s b y i a g].
    unfold rejected_usage in E; simpl in E.
    unfold main, bind, OS.path_isdir_walk; simpl.
    destruct s, b, y, i, a; simpl in *; try discriminate;
      try (eexists; reflexivity);
      destruct (OS.stat_isdir w d); simpl in *; try discriminate;
      eexists; reflexivity.
  - rewrite (main_dispatch tools args w E). cbv zeta.
    destruct (arg_setup args); [|destruct (arg_sync args)];
      apply action_then_exit_raises.
Qed.

(** X1.  Whatever the tools do, a run ends with an exception, never with
    a normal return, and the exception is [SystemExit], an [OSError] or
    [shutil.Error] of a library call, or the [KeyError] of a missing
    [PATH]: no [TypeError] from the [%] formatting, no [ValueError] from
    unpacking [item.split(':')], no [IndexError], no [KeyError] from the
    ABI map, and neither [CalledProcessError] nor [KeyboardInterrupt]
    escapes [sh]. *)
Theorem run_ends_with_expected_exception :
  forall (O : Type) (tools : Tools O) (args : Args) (w : World O),
  exists e, result (main tools args w) = Raise e /\ expected_exn e.
Proof.
  intros O tools args w.
  destruct (main_never_returns tools args w) as [e He].
  exists e. split; [exact He|].
  pose proof (obeys_main tools _ exn_law args w) as H.
  rewrite He in H. exact H.
Qed.

(** X2.  When a run ends with [sys.exit(n)], the last event of its trace
    tells why: for [n = 0] it is the completion message of the action; for
    [n = 1] it is one of the six diagnostics, or a command that returned
    1; for any other [n] it is a command that returned [n]. *)
Theorem exit_code_is_explained :
  forall (O : Type) (tools : Tools O) (args : Args) (w : World O) (n : Z),
    result (main tools args w) = Raise (SystemExit n) ->
    exit_explained (events (main tools args w)) n.
Proof.
  intros O tools args w n Hn.
  pose proof (obeys_main tools _ exit_law args w) as H.
  rewrite Hn in H. exact H.
Qed.

Lemma exit_code_is_explained_witness :
  exit_explained
    (events (main Toolchain.run Sample.setup_android (Toolchain.fresh_world [])))
    0%Z.
Proof.
  apply (exit_code_is_explained _ Toolchain.run Sample.setup_android
           (Toolchain.fresh_world []) 0%Z).
  vm_compute. reflexivity.
Defined.

(** X3.  Every external command of a run is announced: the event right
    before it is the line ['Running cmd: ' + cmd] with its own command
    line. *)
Theorem every_command_is_announced :
  forall (O : Type) (tools : Tools O) (args : Args) (w : World O)
         (k : nat) (c : Cmd) (before after : FS.node) (r : cmd_result),
    nth_error (events (main tools args w)) k = Some (EvExec c before r after) ->
    exists k',
      k = S k'
      /\ nth_error (events (main tools args w)) k'
         = Some (EvPrint ("Running cmd: " ++ cmd_line c)).
Proof.
  intros O tools args w k c before after r Hk.
  apply (well_announced_nth_le _ _ k c before r after (Nat.le_refl _));
    [|exact Hk].
  apply (obeys_main tools _ announce_law args w).
Qed.

Lemma every_command_is_announced_witness :
  exists k',
    2 = S k'
    /\ nth_error (events (main Toolchain.run Sample.setup_android
                            (Toolchain.fresh_world []))) k'
       = Some (EvPrint ("Running cmd: " ++ GIT_CLONE_CMD)).
Proof.
  edestruct (every_command_is_announced _ Toolchain.run Sample.setup_android
               (Toolchain.fresh_world []) 2) as (k' & Hk & Hn).
  - vm_compute. reflexivity.
  - exists k'. split; [exact Hk|]. rewrite Hn. reflexivity.
Defined.

(** ** The action that runs, and the environment of its commands *)

Lemma action_then_exit_run {O} (action : M O unit) line (w : World O) :
  world_after ((action ;; print line ;; @sys_exit O unit 0) w)
  = world_after (action w)
  /\ match result (action w) with
     | Ok _ =>
         events ((action ;; print line ;; @sys_exit O unit 0) w)
         = (events (action w) ++ [EvPrint line])%list
         /\ result ((action ;; print line ;; @sys_exit O unit 0) w)
            = Raise (SystemExit 0)
     | Raise e =>
         events ((action ;; print line ;; @sys_exit O unit 0) w)
         = events (action w)
         /\ result ((action ;; print line ;; @sys_exit O unit 0) w) = Raise e
     end.
Proof.
  rewrite world_bind, events_bind, result_bind.
  destruct (result (action w)) as [[]|e]; auto.
Qed.

(** X4.  Once the command line is accepted, exactly one action runs:
    [setup] if [--setup] is given, else [sync] if [--sync] is given, else
    [build].  When the action returns, the run prints the completion
    message of that action and exits with 0; when it raises, the run ends
    with the same exception and prints nothing more.  Either way the
    world is the one the action left. *)
Theorem accepted_run_is_one_action :
  forall (O : Type) (tools : Tools O) (args : Args) (w : World O),
    rejected_usage args w = false ->
    world_after (main tools args w)
    = world_after (selected_action tools args w w)
    /\ match result (selected_action tools args w w) with
       | Ok _ =>
           events (main tools args w)
           = (events (selected_action tools args w w)
                ++ [EvPrint (completed (action_name args) (platform_of args)
                               (target_dir_of args w))])%list
           /\ result (main tools args w) = Raise (SystemExit 0)
       | Raise e =>
           events (main tools args w)
           = events (selected_action tools args w w)
           /\ result (main tools args w) = Raise e
       end.
Proof.
  intros O tools args w H.
  rewrite (main_dispatch tools args w H). cbv zeta.
  unfold selected_action, action_name.
  destruct (arg_setup args); [|destruct (arg_sync args)];
    apply action_then_exit_run.
Qed.

Lemma accepted_run_is_one_action_witness :
  result (main Toolchain.run Sample.setup_sync_android
            (Toolchain.fresh_world []))
  = Raise (SystemExit 0)
  /\ events (main Toolchain.run Sample.setup_sync_android
               (Toolchain.fresh_world []))
     = (events (setup Toolchain.run "/work/build_webrtc" Android
                  (Toolchain.fresh_world []))
          ++ [EvPrint "WebRTC setup for android completed in /work/build_webrtc"])%list.
Proof.
  destruct (accepted_run_is_one_action _ Toolchain.run
              Sample.setup_sync_android (Toolchain.fresh_world []) eq_refl)
    as [_ H].
  vm_compute in H. destruct H as [He Hr].
  split; [exact Hr|]. vm_compute. exact He.
Defined.

Lemma endswith_char_app a c s ch :
  Py.endswith_char (a ++ String c s) ch = Py.endswith_char (String c s) ch.
Proof.
  induction a as [|x a IH]; [reflexivity|].
  change (String x a ++ String c s) with (String x (a ++ String c s)).
  rewrite <- IH. destruct a; reflexivity.
Qed.

Lemma app_not_empty a c s : String.eqb (a ++ String c s) "" = false.
Proof. destruct a; reflexivity. Qed.

(** Joining a relative path onto one that does not end with a slash. *)
Lemma join2_app x c s b :
  Path.is_abs b = false ->
  Py.endswith_char (String c s) Path.slash = false ->
  Path.join2 (x ++ String c s) b = (x ++ String c s) ++ "/" ++ b.
Proof.
  intros Hb Hs. unfold Path.join2.
  rewrite Hb, app_not_empty, endswith_char_app, Hs. reflexivity.
Qed.

Lemma join2_below_src a b :
  Path.is_abs b = false ->
  Path.join2 (Path.join2 a "src") b = Path.join2 a "src" ++ "/" ++ b.
Proof.
  intros Hb. unfold Path.join2 at 2 3.
  change (Path.is_abs "src") with false. cbv iota.
  destruct (String.eqb a "" || Py.endswith_char a Path.slash)%bool.
  - apply join2_app; [exact Hb|reflexivity].
  - change (a ++ "/" ++ "src") with (a ++ String "/" "src").
    apply join2_app; [exact Hb|reflexivity].
Qed.

(** What [action_env] returns when [PATH] is set. *)
Lemma action_env_run {O} platform target_dir (w : World O) path0 :
  FS.assoc "PATH" (environ w) = Some path0 ->
  action_env platform (Path.join target_dir ["depot_tools"])
    (Path.join target_dir ["webrtc"; platform_name platform; "src"]) w
  = ([], w, Ok (FS.assoc_set "PATH" (tool_path platform target_dir path0)
                  (environ w))).
Proof.
  intros Hp. unfold action_env.
  rewrite (bind_pure OS.environ_copy _ w (environ w)) by reflexivity.
  rewrite (bind_pure (OS.dict_get _ _) _ w path0)
    by (unfold OS.dict_get; rewrite Hp; reflexivity).
  unfold ret, tool_path. do 3 f_equal.
  destruct platform; [reflexivity|].
  cbn [Path.join fold_left app Py.join String.concat platform_name].
  rewrite !join2_below_src by reflexivity. cbn [append].
  rewrite !join2_app by reflexivity.
  rewrite !append_assoc. reflexivity.
Qed.

(** ... and when it is not. *)
Lemma action_env_no_path {O} platform depot_tools_dir webrtc_dir (w : World O) :
  FS.assoc "PATH" (environ w) = None ->
  action_env platform depot_tools_dir webrtc_dir w
  = ([], w, Raise (KeyError "PATH")).
Proof.
  intros Hp. unfold action_env.
  rewrite (bind_pure OS.environ_copy _ w (environ w)) by reflexivity.
  unfold bind, OS.dict_get, of_option. rewrite Hp. reflexivity.
Qed.

(** X5.  With the checkout in place and [PATH] set, [sync] is one command:
    [gclient sync -D], started in the source directory, with the
    environment of the process except that [PATH] has depot_tools appended
    and, for Android, the SDK's [platform-tools] and [tools] and the
    checkout's [build/android]. *)
Theorem sync_is_gclient_in_source_dir :
  forall (O : Type) (tools : Tools O) (target_dir : string)
         (platform : Platform) (w : World O) (path0 : string),
    OS.isdir_in w (Path.join target_dir ["webrtc"; platform_name platform; "src"])
    = true ->
    FS.assoc "PATH" (environ w) = Some path0 ->
    exists src,
      OS.locate w (Path.join target_dir ["webrtc"; platform_name platform; "src"])
      = Some src
      /\ sync tools target_dir platform w
         = sh tools "gclient sync -D"
              (Some (FS.assoc_set "PATH" (tool_path platform target_dir path0)
                       (environ w)))
              None
              (mkWorld (fs w) src (environ w) (ext w)).
Proof.
  intros O tools target_dir platform w path0 Hsrc Hp.
  destruct (isdir_in_lstat w _ Hsrc) as (src & es & Hl & Hs).
  exists src. split; [exact Hl|].
  unfold sync.
  rewrite (bind_pure (OS.path_isdir _) _ w true)
    by (unfold OS.path_isdir; rewrite Hsrc; reflexivity).
  cbn [negb]. rewrite bind_ret.
  rewrite (bind_pure _ _ w _ (action_env_run platform target_dir w path0 Hp)).
  rewrite (bind_quiet _ _ w _ tt (chdir_run w _ src es Hl Hs)). reflexivity.
Qed.

Lemma sync_is_gclient_in_source_dir_witness :
  exists src,
    OS.locate (Sample.after_setup []) "/work/build_webrtc/webrtc/android/src"
    = Some src
    /\ sync Toolchain.run "/work/build_webrtc" Android (Sample.after_setup [])
       = sh Toolchain.run "gclient sync -D"
           (Some (FS.assoc_set "PATH"
                    (tool_path Android "/work/build_webrtc" "/usr/bin:/bin")
                    (environ (Sample.after_setup []))))
           None
           (mkWorld (fs (Sample.after_setup [])) src
              (environ (Sample.after_setup [])) (ext (Sample.after_setup []))).
Proof.
  apply (sync_is_gclient_in_source_dir _ Toolchain.run "/work/build_webrtc"
           Android (Sample.after_setup []) "/usr/bin:/bin");
    vm_compute; reflexivity.
Defined.

(** X6.  With the checkout in place but no [PATH] in the environment,
    [sync] and [build] end with [KeyError: 'PATH'] before anything else
    happens: no output, no command, no change of directory, nothing
    removed. *)
Theorem unset_path_stops_sync_and_build :
  forall (O : Type) (tools : Tools O) (target_dir : string)
         (platform : Platform) (debug : bool) (w : World O),
    OS.isdir_in w (Path.join target_dir ["webrtc"; platform_name platform; "src"])
    = true ->
    FS.assoc "PATH" (environ w) = None ->
    sync tools target_dir platform w = ([], w, Raise (KeyError "PATH"))
    /\ build tools target_dir platform debug w
       = ([], w, Raise (KeyError "PATH")).
Proof.
  intros O tools target_dir platform debug w Hsrc Hp.
  split.
  - unfold sync.
    rewrite (bind_pure (OS.path_isdir _) _ w true)
      by (unfold OS.path_isdir; rewrite Hsrc; reflexivity).
    cbn [negb]. rewrite bind_ret.
    unfold bind at 1. rewrite action_env_no_path by exact Hp. reflexivity.
  - unfold build.
    rewrite (bind_pure (OS.path_isdir _) _ w true)
      by (unfold OS.path_isdir; rewrite Hsrc; reflexivity).
    cbn [negb]. rewrite bind_ret.
    unfold bind at 1. rewrite action_env_no_path by exact Hp. reflexivity.
Qed.

Lemma unset_path_stops_sync_and_build_witness :
  sync Toolchain.run "/work/build_webrtc" Android without_path
  = ([], without_path, Raise (KeyError "PATH"))
  /\ build Toolchain.run "/work/build_webrtc" Android false without_path
     = ([], without_path, Raise (KeyError "PATH")).
Proof.
  apply (unset_path_stops_sync_and_build _ Toolchain.run "/work/build_webrtc"
           Android false without_path);
    vm_compute; reflexivity.
Defined.

(** ** A regular file where a directory is expected *)

Lemma mkdirs_over_file p n d :
  FS.lstat p n = inr (FS.File d) -> FS.mkdirs p n = inl FS.EEXIST.
Proof.
  revert n. induction p as [|c p IH]; intros n H.
  - simpl in H. injection H as ->. reflexivity.
  - destruct n as [d'|es]; [discriminate|]. simpl in *.
    destruct (FS.assoc c es) as [m|]; [|discriminate].
    rewrite (IH m H). reflexivity.
Qed.

(** X7.  [mkdirp] cannot tell a directory from a regular file: on a path
    that names a regular file, [os.makedirs] fails with [EEXIST], which
    [mkdirp] swallows, so it returns normally and the file stays.  Hence
    [setup] on a target that is a regular file gets past its [mkdirp] and
    ends in the [OSError] ([ENOTDIR]) of [os.chdir], before any output or
    command. *)
Theorem setup_over_a_file_fails_in_chdir :
  forall (O : Type) (tools : Tools O) (target_dir : string)
         (platform : Platform) (w : World O) (d : string),
    lstat_in w target_dir = inr (FS.File d) ->
    mkdirp target_dir w = ([], w, Ok tt)
    /\ setup tools target_dir platform w
       = ([], w, Raise (OSError FS.ENOTDIR)).
Proof.
  intros O tools target_dir platform w d H.
  unfold lstat_in in H.
  destruct (OS.locate w target_dir) as [cs|] eqn:Hl; [|discriminate].
  assert (Hm : mkdirp target_dir w = ([], w, Ok tt)).
  { rewrite mkdirp_run, Hl, (mkdirs_over_file cs _ d H). reflexivity. }
  split; [exact Hm|].
  unfold setup. rewrite (bind_quiet _ _ w w tt Hm).
  unfold bind at 1, OS.chdir. rewrite Hl, H. reflexivity.
Qed.

Lemma setup_over_a_file_fails_in_chdir_witness :
  mkdirp "/work/build_webrtc" target_is_file = ([], target_is_file, Ok tt)
  /\ setup Toolchain.run "/work/build_webrtc" Android target_is_file
     = ([], target_is_file, Raise (OSError FS.ENOTDIR)).
Proof.
  apply (setup_over_a_file_fails_in_chdir _ Toolchain.run "/work/build_webrtc"
           Android target_is_file "text").
  vm_compute. reflexivity.
Defined.

(** ** What the first command of a build finds *)

Lemma first_exec_of (e1 : event) c1 b1 r1 a1 tail pre c b r a rest :
  (e1 :: EvExec c1 b1 r1 a1 :: tail
   = pre ++ EvExec c b r a :: rest)%list ->
  is_exec e1 = false ->
  Forall not_exec pre ->
  c = c1 /\ b = b1.
Proof.
  intros H He Hpre.
  destruct pre as [|x [|y pre]]; simpl in H.
  - injection H as E _. rewrite E in He. discriminate.
  - injection H as _ <- <- _ _ _. auto.
  - injection H as _ <- _.
    apply Forall_inv_tail, Forall_inv in Hpre. discriminate.
Qed.

Section FirstCommand.
Context {O : Type} (tools : Tools O).

Lemma starts_sh cmd env (w : World O) :
  starts_with_command env (fs w) (events (sh tools cmd (Some env) None w)).
Proof.
  rewrite sh_run. destruct (tools _ w) as [[r n] o].
  exists cmd, r, n, []. reflexivity.
Qed.

Lemma starts_bind {A B} (m : M O A) (f : A -> M O B) (w : World O) env :
  starts_with_command env (fs w) (events (m w)) ->
  starts_with_command env (fs w) (events (bind m f w)).
Proof.
  intros (cmd & r & n & tail & H). rewrite events_bind, H.
  destruct (result (m w)); exists cmd, r, n; eexists; reflexivity.
Qed.

Lemma starts_ret_bind {A B} (a : A) (f : A -> M O B) (w : World O) env :
  starts_with_command env (fs w) (events (f a w)) ->
  starts_with_command env (fs w) (events (bind (ret a) f w)).
Proof. rewrite bind_ret. auto. Qed.

(** The [gn gen] loops start with a command, issued from the working
    directory on the filesystem as it is. *)
Lemma build_generate_first platform build_type debug env (w : World O) :
  starts_with_command env (fs w)
    (events (build_generate tools platform build_type debug env w)).
Proof.
  destruct platform; unfold build_generate.
  - cbn [IOS_BUILD_ARCHS for_each].
    do 2 apply starts_bind.
    match goal with
    | |- context [unpack2 ?l] =>
        let v := eval vm_compute in l in change l with v
    end.
    cbn [unpack2]. apply starts_ret_bind.
    match goal with
    | |- context [of_option _ ?x] =>
        let v := eval cbv in x in change x with v
    end.
    cbn [of_option]. apply starts_ret_bind. apply starts_sh.
  - cbn [ANDROID_BUILD_CPUS for_each].
    apply starts_bind.
    match goal with
    | |- context [of_option _ ?x] =>
        let v := eval cbv in x in change x with v
    end.
    cbn [of_option]. apply starts_ret_bind. apply starts_sh.
Qed.

End FirstCommand.

Lemma no_exec_among (es pre rest : list event) c b r a :
  Forall not_exec es -> es <> (pre ++ EvExec c b r a :: rest)%list.
Proof.
  intros H ->. apply Forall_elt in H. discriminate.
Qed.

Lemma rmr_quiet {O} path (w : World O) : events (rmr path w) = [].
Proof.
  rewrite rmr_run. destruct (OS.locate w path) as [cs|]; [|reflexivity].
  destruct (FS.rmtree cs (fs w)); reflexivity.
Qed.

(** X8.  A build never starts on the outputs of an earlier one: when its
    first command runs (the first [gn gen], issued without [cwd=], from the
    source directory), there is no [out] in the source directory. *)
Theorem build_starts_without_out :
  forall (O : Type) (tools : Tools O) (target_dir : string)
         (platform : Platform) (debug : bool) (w : World O)
         (src : list string) (pre rest : list event)
         (c : Cmd) (before after : FS.node) (r : cmd_result),
    OS.locate w (Path.join target_dir ["webrtc"; platform_name platform; "src"])
    = Some src ->
    events (build tools target_dir platform debug w)
    = (pre ++ EvExec c before r after :: rest)%list ->
    Forall not_exec pre ->
    FS.lstat (src ++ ["out"]) before = inl FS.ENOENT /\ cmd_cwd c = None.
Proof.
  intros O tools target_dir platform debug w src pre rest c before after r
    Hl H Hpre.
  unfold build in H.
  rewrite (bind_pure (OS.path_isdir _) _ w (OS.isdir_in w _) eq_refl) in H.
  destruct (OS.isdir_in w _) eqn:Hd; cbn [negb] in H.
  2:{ rewrite bind_raises in H by (eexists; reflexivity).
      exfalso. revert H. apply no_exec_among.
      repeat constructor. }
  rewrite bind_ret in H.
  destruct (FS.assoc "PATH" (environ w)) as [path0|] eqn:Hp.
  2:{ unfold bind at 1 in H. rewrite action_env_no_path in H by exact Hp.
      exfalso. revert H. apply no_exec_among. constructor. }
  rewrite (bind_pure _ _ w _ (action_env_run platform target_dir w path0 Hp))
    in H.
  destruct (FS.lstat src (fs w)) as [e|[d|es]] eqn:Hs.
  1,2: unfold bind at 1, OS.chdir in H; rewrite Hl, Hs in H;
       exfalso; revert H; apply no_exec_among; constructor.
  rewrite (bind_quiet _ _ w _ tt (chdir_run w _ src es Hl Hs)) in H.
  set (w1 := mkWorld (fs w) src (environ w) (ext w)) in H.
  assert (Hout : OS.locate w1 "out" = Some (src ++ ["out"])%list)
    by reflexivity.
  rewrite events_bind, rmr_quiet in H.
  destruct (result (rmr "out" w1)) as [[]|e] eqn:Hr.
  2:{ exfalso. revert H. apply no_exec_among. constructor. }
  pose proof (rmr_then_missing "out" w1 _ Hout Hr) as Hmiss.
  simpl app in H.
  match type of H with
  | events (bind ?m ?f ?w') = _ =>
      destruct (starts_bind m f w' _
                  (build_generate_first tools platform _ debug _ w'))
        as (cmd & r1 & n1 & tail & Ht)
  end.
  rewrite Ht in H.
  destruct (first_exec_of _ _ _ _ _ _ _ _ _ _ _ _ H eq_refl Hpre) as [-> ->].
  split; [exact Hmiss|reflexivity].
Qed.

Lemma build_starts_without_out_witness :
  FS.is_dir ["work"; "build_webrtc"; "webrtc"; "android"; "src"; "out"]
    (fs android_after_build) = true
  /\ exists line c before r after rest,
       events (build Toolchain.run "/work/build_webrtc" Android false
                 android_after_build)
       = ([EvPrint line] ++ EvExec c before r after :: rest)%list
       /\ FS.lstat (["work"; "build_webrtc"; "webrtc"; "android"; "src"]
                      ++ ["out"]) before = inl FS.ENOENT
       /\ cmd_cwd c = None.
Proof.
  split; [vm_compute; reflexivity|].
  assert (H : exists line c before r after rest,
             events (build Toolchain.run "/work/build_webrtc" Android false
                       android_after_build)
             = ([EvPrint line] ++ EvExec c before r after :: rest)%list).
  { vm_compute. do 6 eexists. reflexivity. }
  destruct H as (line & c & before & r & after & rest & H).
  exists line, c, before, r, after, rest. split; [exact H|].
  apply (build_starts_without_out _ Toolchain.run "/work/build_webrtc" Android
           false android_after_build
           ["work"; "build_webrtc"; "webrtc"; "android"; "src"]
           [EvPrint line] rest c before after r).
  - vm_compute. reflexivity.
  - exact H.
  - repeat constructor.
Defined.

(** ** The commands of an iOS build *)

Section InPlace.
Context {O : Type}.

Lemma in_place_ret {A} (a : A) : in_place (@ret O A a).
Proof. intros w. split; reflexivity. Qed.

Lemma in_place_raise {A} e : in_place (@raise O A e).
Proof. intros w. split; reflexivity. Qed.

Lemma in_place_bind {A B} (m : M O A) (f : A -> M O B) :
  in_place m -> (forall a, in_place (f a)) -> in_place (bind m f).
Proof.
  intros Hm Hf w. destruct (Hm w) as [He Hc].
  rewrite events_bind, world_bind.
  destruct (result (m w)) as [a|e]; [|auto].
  destruct (Hf a (world_after (m w))) as [He' Hc'].
  rewrite He, He', Hc'. auto.
Qed.

Lemma in_place_try {A} (m : M O A) (h : exn -> M O A) :
  in_place m -> (forall e, in_place (h e)) -> in_place (try_except m h).
Proof.
  intros Hm Hh w. destruct (Hm w) as [He Hc].
  unfold try_except, events, world_after in *.
  destruct (m w) as [[es w'] [a|e]]; simpl in *; [auto|].
  destruct (Hh e w') as [He' Hc']. unfold events, world_after in *.
  destruct (h e w') as [[es' w''] r]. simpl in *. subst. split; [reflexivity|].
  congruence.
Qed.

Ltac place_prim :=
  intros w;
  cbv beta delta
    [OS.path_isdir OS.path_exists OS.path_abspath OS.update OS.read
     OS.same_file OS.rename OS.dest_in_src OS.set_fs raise ret];
  repeat first
    [ solve [split; reflexivity]
    | match goal with
      | |- context [match ?x with _ => _ end] =>
          lazymatch x with
          | context [match _ with _ => _ end] => fail
          | _ => destruct x
          end
      end ].

Lemma in_place_isdir p : in_place (@OS.path_isdir O p).
Proof. place_prim. Qed.
Lemma in_place_exists p : in_place (@OS.path_exists O p).
Proof. place_prim. Qed.
Lemma in_place_update op p : in_place (@OS.update O op p).
Proof. place_prim. Qed.
Lemma in_place_read p : in_place (@OS.read O p).
Proof. place_prim. Qed.
Lemma in_place_same_file a b : in_place (@OS.same_file O a b).
Proof. place_prim. Qed.
Lemma in_place_rename a b : in_place (@OS.rename O a b).
Proof. place_prim. Qed.
Lemma in_place_dest_in_src a b : in_place (@OS.dest_in_src O a b).
Proof. place_prim. Qed.

Lemma in_place_copyfile a b : in_place (@OS.copyfile O a b).
Proof.
  unfold OS.copyfile. apply in_place_bind; [apply in_place_same_file|].
  intros [|]; [apply in_place_raise|].
  apply in_place_bind; [apply in_place_read|intros; apply in_place_update].
Qed.

Lemma in_place_copytree a b : in_place (@OS.copytree O a b).
Proof.
  intros w. unfold OS.copytree.
  destruct (OS.locate w a); [|split; reflexivity].
  destruct (FS.lstat l (fs w)) as [e|[d|es]]; try (split; reflexivity).
  apply in_place_bind; [apply in_place_update|intros; apply in_place_update].
Qed.

Lemma in_place_move a b : in_place (@OS.move O a b).
Proof.
  unfold OS.move. apply in_place_bind; [apply in_place_isdir|]. intros d.
  apply in_place_bind.
  { destruct d; [|apply in_place_ret].
    apply in_place_bind; [apply in_place_exists|].
    intros [|]; [apply in_place_raise|apply in_place_ret]. }
  intros real_dst. apply in_place_try; [apply in_place_rename|].
  intros e. destruct e; try apply in_place_raise.
  apply in_place_bind; [apply in_place_isdir|]. intros [|].
  - apply in_place_bind; [apply in_place_dest_in_src|]. intros [|].
    + apply in_place_raise.
    + apply in_place_bind; [apply in_place_copytree|].
      intros; apply in_place_update.
  - apply in_place_bind; [apply in_place_copyfile|].
    intros; apply in_place_update.
Qed.

Lemma in_place_swap_in_fat gn_out_dir name :
  in_place (@swap_in_fat O gn_out_dir name).
Proof.
  unfold swap_in_fat.
  apply in_place_bind; [apply in_place_move|intros; apply in_place_move].
Qed.

Lemma in_place_mkdirp p : in_place (@mkdirp O p).
Proof.
  unfold mkdirp. apply in_place_try; [apply in_place_update|].
  intros e. destruct e; try apply in_place_raise.
  destruct (negb _); [apply in_place_raise|apply in_place_ret].
Qed.

Lemma in_place_rmr p : in_place (@rmr O p).
Proof.
  unfold rmr. apply in_place_try; [apply in_place_update|].
  intros e. destruct e; try apply in_place_raise.
  destruct (negb _); [apply in_place_raise|apply in_place_ret].
Qed.

End InPlace.

Create HintDb place_calls.
#[export] Hint Resolve in_place_copytree in_place_swap_in_fat in_place_mkdirp
  in_place_rmr : place_calls.

Section FollowsAt.
Context {O : Type} (tools : Tools O) (dir : list string).

Lemma follows_at_ret {A} (a : A) : follows_at dir (@ret O A a) [].
Proof.
  intros w Hw. split; [|exact Hw]. exists []. split; reflexivity.
Qed.

Lemma follows_at_in_place {A} (m : M O A) : in_place m -> follows_at dir m [].
Proof.
  intros H w Hw. destruct (H w) as [He Hc]. split; [|congruence].
  exists []. rewrite He. split; reflexivity.
Qed.

Lemma follows_at_sh cmd env cwd : follows_at dir (sh tools cmd env cwd) [cmd].
Proof.
  intros w Hw. rewrite sh_keeps_cwd. split; [|exact Hw].
  apply (follows_sh tools cmd env cwd w).
Qed.

Lemma follows_at_bind {A B} (m : M O A) (f : A -> M O B) l1 l2 :
  follows_at dir m l1 -> (forall a, follows_at dir (f a) l2) ->
  follows_at dir (bind m f) (l1 ++ l2).
Proof.
  intros Hm Hf w Hw. destruct (Hm w Hw) as [(rest1 & E1 & R1) Hc].
  rewrite events_bind, result_bind, world_bind.
  destruct (result (m w)) as [a|e].
  - destruct (Hf a _ Hc) as [(rest2 & E2 & R2) Hc'].
    split; [|exact Hc']. exists rest2. split; [|exact R2].
    rewrite command_lines_app, <- app_assoc, <- E2.
    rewrite E1, (R1 a eq_refl), app_nil_r. reflexivity.
  - split; [|exact Hc]. exists (rest1 ++ l2)%list. split; [|discriminate].
    rewrite app_assoc, <- E1. reflexivity.
Qed.

Lemma follows_at_ret_bind {A B} (a : A) (f : A -> M O B) l :
  follows_at dir (f a) l -> follows_at dir (bind (ret a) f) l.
Proof. intros H w Hw. rewrite bind_ret. exact (H w Hw). Qed.

Lemma follows_at_assoc {A B C} (m : M O A) (f : A -> M O B) (g : B -> M O C) l :
  follows_at dir (bind m (fun a => bind (f a) g)) l ->
  follows_at dir (bind (bind m f) g) l.
Proof. intros H w Hw. rewrite bind_assoc. exact (H w Hw). Qed.

Lemma follows_at_abspath {B} p (f : string -> M O B) l :
  Path.is_abs p = false ->
  follows_at dir (f (Path.render (Path.resolve dir p))) l ->
  follows_at dir (bind (OS.path_abspath p) f) l.
Proof.
  intros Hp H w Hw.
  rewrite (bind_pure (OS.path_abspath p) f w
             (Path.render (Path.resolve dir p)))
    by (unfold OS.path_abspath; rewrite Hw, (abspath_relative dir p Hp);
        reflexivity).
  exact (H w Hw).
Qed.

Lemma follows_at_eq {A} (m : M O A) l l' :
  follows_at dir m l -> l = l' -> follows_at dir m l'.
Proof. intros H <-. exact H. Qed.

End FollowsAt.

Ltac follows_at_step tools :=
  eval_pure;
  lazymatch goal with
  | |- follows_at _ (sh _ _ _ _) _ => apply (follows_at_sh tools)
  | |- follows_at _ (ret _) _ => apply follows_at_ret
  | |- follows_at _ (bind (ret _) _) _ => apply follows_at_ret_bind
  | |- follows_at _ (bind (bind _ _) _) _ => apply follows_at_assoc
  | |- follows_at _ (bind (OS.path_abspath _) _) _ =>
      apply follows_at_abspath; [reflexivity|]
  | |- follows_at _ (bind (sh _ _ _ _) _) _ =>
      eapply follows_at_bind; [apply (follows_at_sh tools)|intros ?]
  | |- follows_at _ (bind _ _) _ =>
      eapply follows_at_bind;
      [apply follows_at_in_place; solve [auto with place_calls]|intros ?]
  end.

Lemma step_plain stack c :
  String.eqb c "" = false -> String.eqb c "." = false ->
  String.eqb c ".." = false -> Path.step stack c = (stack ++ [c])%list.
Proof. intros H1 H2 H3. unfold Path.step. rewrite H1, H2, H3. reflexivity. Qed.

(** From the source directory on: the whole iOS build. *)
Lemma follows_at_build_ios {O} (tools : Tools O) target_dir src debug env :
  follows_at src
    (rmr "out" ;;
     build_generate tools Ios (build_type_of debug) debug env ;;
     build_compile tools Ios (build_type_of debug) env ;;
     rmr (Path.join target_dir ["build"; "ios"]) ;;
     mkdirp (Path.join target_dir ["build"; "ios"]) ;;
     build_package_apple tools (Path.join target_dir ["build"; "ios"])
       (build_type_of debug))
    (ios_build_commands target_dir src debug).
Proof.
  destruct debug.
  all: eapply follows_at_eq;
    [ unfold build_generate, build_compile, build_package_apple;
      repeat follows_at_step tools
    | unfold ios_build_commands, apple_lipo_cmds; cbn [app];
      repeat (apply (f_equal2 (@cons string)); [reflexivity|]);
      apply (f_equal2 (@cons string)); [|reflexivity];
      unfold xcodebuild_cmd_of; cbn [Path.join fold_left];
      rewrite !append_assoc;
      repeat match goal with
             | |- context [Path.resolve ?s ?p] =>
                 let cs := eval vm_compute in (Path.components p) in
                 change (Path.resolve s p) with (fold_left Path.step cs s);
                 cbn [fold_left]; rewrite !step_plain by reflexivity;
                 rewrite <- !app_assoc; cbn [app]
             end;
      reflexivity ].
Qed.

Lemma bind_stops {O A B} (m : M O A) (f : A -> M O B) (w w' : World O) es e :
  m w = (es, w', Raise e) -> bind m f w = (es, w', Raise e).
Proof. intros H. unfold bind. rewrite H. reflexivity. Qed.

Lemma chdir_stops {O} (w : World O) p cs :
  OS.locate w p = Some cs ->
  (forall es, FS.lstat cs (fs w) <> inr (FS.Dir es)) ->
  exists e, OS.chdir p w = ([], w, Raise (OSError e)).
Proof.
  intros Hl Hs. unfold OS.chdir. rewrite Hl.
  destruct (FS.lstat cs (fs w)) as [e|[d|es]]; eauto.
  destruct (Hs es eq_refl).
Qed.

Lemma stops_before_commands {O A} (x : list event * World O * outcome A) l :
  Forall not_exec (events x) ->
  (forall a, result x <> Ok a) ->
  exists rest,
    l = (command_lines (events x) ++ rest)%list
    /\ (forall a, result x = Ok a -> rest = []).
Proof.
  intros He Hr. exists l. split.
  - induction He as [|[line|c b r a] es H _ IH]; simpl; auto. discriminate.
  - intros a Ha. destruct (Hr a Ha).
Qed.

Lemma ios_build_follows {O} (tools : Tools O) target_dir debug
    (w : World O) src :
  OS.locate w (Path.join target_dir ["webrtc"; "ios"; "src"]) = Some src ->
  exists rest,
    ios_build_commands target_dir src debug
    = (command_lines (events (build tools target_dir Ios debug w)) ++ rest)%list
    /\ (forall a, result (build tools target_dir Ios debug w) = Ok a ->
                  rest = []).
Proof.
  intros Hl.
  unfold build. cbn [platform_name].
  rewrite (bind_pure (OS.path_isdir _) _ w (OS.isdir_in w _) eq_refl).
  destruct (OS.isdir_in w _) eqn:Hd; cbn [negb].
  2:{ rewrite bind_raises by (eexists; reflexivity).
      apply stops_before_commands; [repeat constructor|discriminate]. }
  rewrite bind_ret.
  destruct (FS.assoc "PATH" (environ w)) as [path0|] eqn:Hp.
  2:{ rewrite (bind_stops _ _ w w [] _ (action_env_no_path Ios _ _ w Hp)).
      apply stops_before_commands; [constructor|discriminate]. }
  rewrite (bind_pure _ _ w _ (action_env_run Ios target_dir w path0 Hp)).
  destruct (FS.lstat src (fs w)) as [e|[d|es]] eqn:Hs.
  1,2: destruct (chdir_stops w _ src Hl) as [e' He'];
       [ intros es; rewrite Hs; discriminate
       | rewrite (bind_stops _ _ w w [] _ He');
         apply stops_before_commands; [constructor|discriminate] ].
  rewrite (bind_quiet _ _ w _ tt (chdir_run w _ src es Hl Hs)).
  apply (follows_at_build_ios tools target_dir src debug _
           (mkWorld (fs w) src (environ w) (ext w)) eq_refl).
Qed.

(** X9.  An iOS build issues, in this order and nothing else: the five
    [gn gen] (device arm64, simulator arm64 and x64, macOS arm64 and x64),
    the five [ninja], the four [lipo] (simulator framework and symbols,
    macOS framework and symbols), [xcodebuild -create-xcframework] with the
    absolute paths of the device, arm64 simulator and arm64 macOS bundles
    under the source directory, and the [zip].  Every run is a prefix of
    this list, and a build that returns has issued all of it. *)
Theorem ios_build_issues_its_commands_in_order :
  forall (O : Type) (tools : Tools O) (target_dir : string) (debug : bool)
         (w : World O) (src : list string),
    OS.locate w (Path.join target_dir ["webrtc"; "ios"; "src"]) = Some src ->
    exists rest,
      ios_build_commands target_dir src debug
      = (command_lines (events (build tools target_dir Ios debug w)) ++ rest)%list
      /\ (forall a, result (build tools target_dir Ios debug w) = Ok a ->
                    rest = []).
Proof.
  intros O tools target_dir debug w src Hl.
  exact (ios_build_follows tools target_dir debug w src Hl).
Qed.

Lemma ios_build_issues_its_commands_in_order_witness :
  exists rest,
    ios_build_commands "/work/build_webrtc"
      ["work"; "build_webrtc"; "webrtc"; "ios"; "src"] false
    = (command_lines
         (events (build Toolchain.run "/work/build_webrtc" Ios false
                    ios_after_setup)) ++ rest)%list
    /\ (forall a, result (build Toolchain.run "/work/build_webrtc" Ios false
                            ios_after_setup) = Ok a ->
                  rest = []).
Proof.
  apply (ios_build_issues_its_commands_in_order _ Toolchain.run
           "/work/build_webrtc" false ios_after_setup).
  vm_compute. reflexivity.
Defined.

(** ** What [xcodebuild] is given *)

Section Bundler.
Context {O : Type} (tools : Tools O) (lipo : string).

Lemma bundles_quiet es : Forall no_xcodebuild es -> bundles_what_lipo_left lipo es.
Proof.
  intros H k c before r after Hk Hx.
  apply nth_error_In in Hk.
  rewrite Forall_forall in H. specialize (H _ Hk). simpl in H. congruence.
Qed.

Lemma bundles_app es1 es2 :
  bundles_what_lipo_left lipo es1 -> bundles_what_lipo_left lipo es2 ->
  bundles_what_lipo_left lipo (es1 ++ es2).
Proof.
  intros H1 H2 k c before r after Hk Hx.
  destruct (Nat.lt_ge_cases k (length es1)) as [Hlt|Hge].
  - rewrite nth_error_app1 in Hk by exact Hlt.
    destruct (H1 k c before r after Hk Hx) as (k' & c' & b' & r' & -> & Hk' & Hc).
    exists k', c', b', r'. split; [reflexivity|]. split; [|exact Hc].
    rewrite nth_error_app1 by lia. exact Hk'.
  - rewrite nth_error_app2 in Hk by exact Hge.
    destruct (H2 _ c before r after Hk Hx) as (k' & c' & b' & r' & E & Hk' & Hc).
    exists (length es1 + k'), c', b', r'. split; [lia|]. split; [|exact Hc].
    rewrite nth_error_app2 by lia.
    replace (length es1 + k' - length es1) with k' by lia. exact Hk'.
Qed.

Lemma bundles_bind {A B} (m : M O A) (f : A -> M O B) :
  bundles_after lipo m -> (forall a, bundles_after lipo (f a)) ->
  bundles_after lipo (bind m f).
Proof.
  intros Hm Hf w. rewrite events_bind.
  destruct (result (m w)); [apply bundles_app|]; auto. apply Hf.
Qed.

Lemma bundles_emits {A} (m : M O A) :
  emits no_xcodebuild m -> bundles_after lipo m.
Proof. intros H w. apply bundles_quiet, H. Qed.

Lemma bundles_sh cmd env dir :
  Py.startswith cmd "xcodebuild" = false ->
  bundles_after lipo (sh tools cmd env dir).
Proof.
  intros H. apply bundles_emits, emits_sh; [exact I|]. intros; exact H.
Qed.

Lemma bundles_ret_bind {A B} (a : A) (f : A -> M O B) :
  bundles_after lipo (f a) -> bundles_after lipo (bind (ret a) f).
Proof. intros H w. rewrite bind_ret. apply H. Qed.

Lemma bundles_assoc {A B C} (m : M O A) (f : A -> M O B) (g : B -> M O C) :
  bundles_after lipo (bind m (fun a => bind (f a) g)) ->
  bundles_after lipo (bind (bind m f) g).
Proof. intros H w. rewrite bind_assoc. apply H. Qed.

Lemma bind_abspath {B} p (f : string -> M O B) (w : World O) :
  bind (OS.path_abspath p) f w = f (Path.abspath (cwd w) p) w.
Proof. apply bind_pure. reflexivity. Qed.

(** The end of the Apple packaging: the last [lipo], then at once
    [xcodebuild], then the zip. *)
Lemma bundles_tail (k : unit -> M O unit) zip dir :
  Py.startswith lipo "xcodebuild" = false ->
  Py.startswith zip "xcodebuild" = false ->
  (forall w, exists cmd,
      k tt w = (sh tools cmd None None ;; sh tools zip None dir) w) ->
  bundles_after lipo (bind (sh tools lipo None None) k).
Proof.
  intros Hlipo Hzip Hk w.
  rewrite events_bind. rewrite sh_run.
  destruct (tools (mkCmd lipo None None) w) as [[r n] o].
  unfold result, events, world_after. cbn [fst snd].
  set (w1 := mkWorld n (cwd w) (environ w) o).
  assert (Hhead : bundles_what_lipo_left lipo
                    [EvPrint ("Running cmd: " ++ lipo);
                     EvExec (mkCmd lipo None None) (fs w) r n]).
  { apply bundles_quiet. repeat constructor. exact Hlipo. }
  assert (Hrun : forall u : unit,
             bundles_what_lipo_left lipo
               ([EvPrint ("Running cmd: " ++ lipo);
                 EvExec (mkCmd lipo None None) (fs w) r n]
                  ++ fst (fst (k u w1)))).
  { intros []. destruct (Hk w1) as [cmd ->].
    pose proof (events_bind (sh tools cmd None None)
                  (fun _ => sh tools zip None dir) w1) as Hev.
    unfold events in Hev. rewrite Hev. clear Hev.
    rewrite sh_run.
    destruct (tools (mkCmd cmd None None) w1) as [[r1 n1] o1].
    unfold result, world_after. cbn [fst snd].
    assert (Hmid : bundles_what_lipo_left lipo
                     [EvPrint ("Running cmd: " ++ lipo);
                      EvExec (mkCmd lipo None None) (fs w) r n;
                      EvPrint ("Running cmd: " ++ cmd);
                      EvExec (mkCmd cmd None None) n r1 n1]).
    { intros j c before r' after Hj Hx.
      destruct j as [|[|[|[|j]]]]; simpl in Hj; try discriminate.
      - injection Hj as <- _ _ _. unfold is_xcodebuild in Hx. simpl in Hx.
        congruence.
      - injection Hj as <- <- _ _.
        exists 1, (mkCmd lipo None None), (fs w), r.
        repeat split.
      - destruct j; discriminate. }
    assert (Hzipev : forall w2,
               bundles_what_lipo_left lipo
                 (fst (fst (sh tools zip None dir w2)))).
    { intros w2. apply bundles_quiet. rewrite sh_run.
      destruct (tools _ w2) as [[r2 n2] o2]. repeat constructor. exact Hzip. }
    destruct (match r1 with
              | Returned rc => if (rc =? 0)%Z then Ok tt else Raise (SystemExit rc)
              | Interrupted => Ok tt
              | SpawnFailed e => Raise (OSError e)
              end) as [[]|e].
    - rewrite app_assoc. apply bundles_app; [exact Hmid|apply Hzipev].
    - exact Hmid. }
  destruct (match r with
            | Returned rc => if (rc =? 0)%Z then Ok tt else Raise (SystemExit rc)
            | Interrupted => Ok tt
            | SpawnFailed e => Raise (OSError e)
            end) as [u|e].
  - apply Hrun.
  - exact Hhead.
Qed.

End Bundler.

Ltac tail_eval :=
  repeat (eval_pure;
          first [ rewrite bind_assoc | rewrite bind_ret | rewrite bind_abspath ]).

Ltac bundles_step tools :=
  eval_pure;
  lazymatch goal with
  | |- bundles_after _ (sh _ _ _ _) => apply (bundles_sh tools); reflexivity
  | |- bundles_after _ (bind (ret _) _) => apply bundles_ret_bind
  | |- bundles_after _ (bind (bind _ _) _) => apply bundles_assoc
  | |- bundles_after _ (bind (sh _ _ _ _) _) =>
      first
        [ eapply (bundles_tail tools)
            with (zip := "zip -y -r WebRTC.xcframework.zip WebRTC.xcframework");
          [ reflexivity
          | reflexivity
          | intros w'; eexists; tail_eval; reflexivity ]
        | apply bundles_bind; [apply (bundles_sh tools); reflexivity|intros ?] ]
  | |- bundles_after _ (bind _ _) =>
      apply bundles_bind;
      [ apply bundles_emits;
        solve [ repeat first [ solve [auto with quiet_calls]
                             | apply emits_print; exact I
                             | emits_step ] ]
      | intros ? ]
  | |- bundles_after _ _ =>
      apply bundles_emits;
      solve [ repeat first [ solve [auto with quiet_calls]
                           | apply emits_print; exact I
                           | emits_step ] ]
  end.

Lemma bundles_build_ios {O} (tools : Tools O) target_dir debug :
  bundles_after (macos_dsym_lipo_cmd debug) (build tools target_dir Ios debug).
Proof.
  destruct debug;
    unfold build, action_env, build_generate, build_compile,
      build_package_apple, swap_in_fat;
    repeat bundles_step tools.
Qed.

(** X10.  In an iOS build, [xcodebuild] starts from exactly the filesystem
    that the last [lipo] (the macOS symbols) left: the two events are
    separated by the announcement of [xcodebuild] alone, so nothing is
    moved in between.  The merged macOS symbols therefore stay where that
    [lipo] wrote them, under [fat-WebRTC.dSYM]. *)
Theorem xcodebuild_starts_from_what_lipo_left :
  forall (O : Type) (tools : Tools O) (target_dir : string) (debug : bool)
         (w : World O) (k : nat) (c : Cmd) (before after : FS.node)
         (r : cmd_result),
    nth_error (events (build tools target_dir Ios debug w)) k
    = Some (EvExec c before r after) ->
    is_xcodebuild c = true ->
    exists k' c' before' r',
      k = S (S k')
      /\ nth_error (events (build tools target_dir Ios debug w)) k'
         = Some (EvExec c' before' r' before)
      /\ cmd_line c' = macos_dsym_lipo_cmd debug.
Proof.
  intros O tools target_dir debug w k c before after r Hk Hx.
  exact (bundles_build_ios tools target_dir debug w k c before r after Hk Hx).
Qed.

Lemma xcodebuild_starts_from_what_lipo_left_witness :
  exists k' c' before' r' n,
    29 = S (S k')
    /\ nth_error (events (build Toolchain.run "/work/build_webrtc" Ios false
                            ios_after_setup)) k'
       = Some (EvExec c' before' r' n)
    /\ cmd_line c' = macos_dsym_lipo_cmd false.
Proof.
  edestruct (xcodebuild_starts_from_what_lipo_left _ Toolchain.run
               "/work/build_webrtc" false ios_after_setup 29)
    as (k' & c' & b' & r' & Hk & Hn & Hc).
  - vm_compute. reflexivity.
  - vm_compute. reflexivity.
  - exists k', c', b', r'. eexists. split; [exact Hk|]. split; [exact Hn|exact Hc].
Defined.

(** ** Swapping in the fat bundle *)

Section Siblings.
Import FS.

Lemma split_on_single sep s y : Py.split_on sep s = [y] -> y = s.
Proof.
  revert y. induction s as [|c s IH]; intros y; simpl.
  - intros [= <-]. reflexivity.
  - destruct (Ascii.eqb c sep).
    + intros H. injection H as _ H. destruct (split_on_nonempty _ _ H).
    + destruct (Py.split_on sep s) as [|x xs] eqn:E.
      * intros [= <-]. destruct (split_on_nonempty _ _ E).
      * intros H. injection H as <- ->. rewrite (IH x eq_refl). reflexivity.
Qed.

Lemma plain_name_inv x :
  plain_name x = true ->
  Path.components x = [x] /\ Path.is_abs x = false
  /\ String.eqb x "" = false
  /\ forall stack, Path.step stack x = (stack ++ [x])%list.
Proof.
  unfold plain_name. intros H.
  apply andb_prop in H as [H H4]. apply andb_prop in H as [H H3].
  apply andb_prop in H as [H1 H2].
  apply negb_true_iff in H1, H2, H3.
  unfold Path.components.
  destruct (Py.split_on Path.slash x) as [|y [|z l]] eqn:E; try discriminate.
  pose proof (split_on_single _ _ _ E) as ->.
  split; [reflexivity|]. split.
  - destruct x as [|c x]; [reflexivity|]. simpl in *.
    destruct (Ascii.eqb c Path.slash); [discriminate|reflexivity].
  - split; [exact H1|]. intros stack. apply step_plain; assumption.
Qed.

Lemma plain_name_bak x : plain_name x = true -> plain_name ("bak-" ++ x) = true.
Proof.
  intros H. destruct (plain_name_inv x H) as (E & _).
  unfold plain_name, Path.components in *. simpl. rewrite E. reflexivity.
Qed.

Lemma plain_name_fat x : plain_name x = true -> plain_name ("fat-" ++ x) = true.
Proof.
  intros H. destruct (plain_name_inv x H) as (E & _).
  unfold plain_name, Path.components in *. simpl. rewrite E. reflexivity.
Qed.

Lemma is_abs_app_nonempty a b :
  String.eqb a "" = false -> Path.is_abs (a ++ b) = Path.is_abs a.
Proof. destruct a; [discriminate|reflexivity]. Qed.

Lemma app_nonempty_r a b : String.eqb b "" = false -> String.eqb (a ++ b) "" = false.
Proof. destruct a; simpl; auto. Qed.

(** A plain name joined onto a directory resolves to that name in the
    directory. *)
Lemma resolve_join2_plain dir g x :
  plain_name x = true ->
  Path.join2 g x <> ""
  /\ Path.resolve dir (Path.join2 g x) = (Path.resolve dir g ++ [x])%list.
Proof.
  intros H. destruct (plain_name_inv x H) as (Hc & Ha & Hne & Hs).
  unfold Path.join2. rewrite Ha.
  destruct (String.eqb g "") eqn:Hg; simpl orb.
  - apply String.eqb_eq in Hg as ->. simpl append. split.
    + intros ->. discriminate.
    + unfold Path.resolve. rewrite Ha, Hc. simpl. apply Hs.
  - destruct (Py.endswith_char g Path.slash) eqn:E.
    + split.
      * intros E'. pose proof (app_nonempty_r g x Hne) as H'.
        rewrite E' in H'. discriminate.
      * destruct (endswith_char_inv g _ E) as [g' ->].
        unfold Path.resolve.
        rewrite is_abs_app_nonempty by exact Hg.
        rewrite append_assoc. simpl append at 2.
        unfold Path.components. rewrite !split_on_app, !fold_left_app.
        fold (Path.components x). rewrite Hc. simpl. apply Hs.
    + split.
      * intros E'. destruct g; discriminate.
      * unfold Path.resolve.
        rewrite is_abs_app_nonempty by exact Hg.
        unfold Path.components.
        change (g ++ "/" ++ x) with (g ++ String Path.slash x).
        rewrite split_on_app, fold_left_app.
        fold (Path.components x). rewrite Hc. simpl. apply Hs.
Qed.

Lemma locate_sibling {O} (w : World O) g x :
  plain_name x = true ->
  OS.locate w (Path.join g [x]) = Some (Path.resolve (cwd w) g ++ [x])%list.
Proof.
  intros H. destruct (resolve_join2_plain (cwd w) g x H) as [Hne Hr].
  unfold OS.locate, Path.join. simpl fold_left.
  destruct (String.eqb_spec (Path.join2 g x) ""); [contradiction|].
  rewrite Hr. reflexivity.
Qed.

Lemma assoc_del_other {A} k c (es : list (string * A)) :
  String.eqb k c = false -> assoc k (assoc_del c es) = assoc k es.
Proof.
  intros H. induction es as [|[k' v] es IH]; simpl; [reflexivity|].
  destruct (String.eqb c k') eqn:E; simpl.
  - apply String.eqb_eq in E as <-. rewrite H. exact IH.
  - rewrite IH. reflexivity.
Qed.

Lemma focus_remove d q n m :
  q <> [] -> lstat d n = inr m -> remove (d ++ q) n = graft d (remove q m) n.
Proof.
  intros Hq. revert n. induction d as [|c d IH]; intros n; simpl.
  - intros [= ->]. reflexivity.
  - destruct n as [x|es]; [discriminate|].
    destruct (assoc c es) as [k|] eqn:E; [|discriminate].
    intros H. rewrite (IH k H).
    destruct (d ++ q)%list eqn:Ed; [|reflexivity].
    apply app_eq_nil in Ed as [_ ->]. contradiction.
Qed.

Lemma graft_graft d n m x y :
  lstat d n = inr m -> graft d x (graft d y n) = graft d x n.
Proof.
  revert n. induction d as [|c d IH]; intros n; simpl; [reflexivity|].
  destruct n as [z|es]; [discriminate|].
  destruct (assoc c es) as [k|] eqn:E; [|discriminate].
  intros H. simpl. rewrite assoc_set_same, assoc_set_set, (IH k H).
  reflexivity.
Qed.

Lemma path_eqb_sibling d a b :
  String.eqb a b = false -> path_eqb (d ++ [a]) (d ++ [b]) = false.
Proof.
  intros H. induction d as [|c d IH]; simpl.
  - rewrite H. reflexivity.
  - rewrite String.eqb_refl. exact IH.
Qed.

Lemma is_prefix_of_sibling d a b :
  String.eqb a b = false -> is_prefix_of (d ++ [a]) (d ++ [b]) = false.
Proof.
  intros H. induction d as [|c d IH]; simpl.
  - rewrite H. reflexivity.
  - rewrite String.eqb_refl. exact IH.
Qed.

(** Renaming an entry to a free name in the same directory. *)
Lemma rename_sibling d a b n es x :
  String.eqb a b = false ->
  lstat d n = inr (Dir es) ->
  assoc a es = Some x -> assoc b es = None ->
  rename (d ++ [a]) (d ++ [b]) n
  = inr (graft d (Dir (assoc_set b x (assoc_del a es))) n).
Proof.
  intros Hab Hd Ha Hb. unfold rename.
  rewrite !lstat_app, Hd. simpl lstat. rewrite Ha, Hb.
  destruct (d ++ [a])%list eqn:Ed.
  { apply app_eq_nil in Ed as [_ Ed]. discriminate. }
  rewrite <- Ed.
  rewrite (path_eqb_sibling d a b Hab), (is_prefix_of_sibling d a b Hab).
  assert (E : place (d ++ [b]) x (remove (d ++ [a]) n)
              = inr (graft d (Dir (assoc_set b x (assoc_del a es))) n)).
  { rewrite (focus_remove d [a] n (Dir es)) by (auto; discriminate).
    rewrite (focus_place d [b] x _ (remove [a] (Dir es)))
      by (try discriminate; apply (lstat_graft_here d n (Dir es)); exact Hd).
    simpl. rewrite (graft_graft d n (Dir es)) by exact Hd. reflexivity. }
  destruct x; exact E.
Qed.

End Siblings.

Section Swap.
Context {O : Type}.

Lemma length_append (a b : string) :
  String.length (a ++ b) = String.length a + String.length b.
Proof. induction a as [|c a IH]; simpl; [|rewrite IH]; reflexivity. Qed.

Lemma eqb_tagged c p x : String.eqb x (String c p ++ x) = false.
Proof.
  apply String.eqb_neq. intros E.
  apply (f_equal String.length) in E. rewrite length_append in E.
  simpl in E. lia.
Qed.

Lemma lstat_in_sibling (w : World O) g c es :
  plain_name c = true ->
  FS.lstat (Path.resolve (cwd w) g) (fs w) = inr (FS.Dir es) ->
  lstat_in w (Path.join g [c])
  = match FS.assoc c es with
    | Some m => inr m
    | None => inl FS.ENOENT
    end.
Proof.
  intros Hc Hd. unfold lstat_in.
  rewrite (locate_sibling w g c Hc), lstat_app, Hd. simpl.
  destruct (FS.assoc c es); reflexivity.
Qed.

(** [shutil.move] of an entry to a free name in the same directory is a
    plain rename. *)
Lemma move_sibling (w : World O) g a b es x :
  plain_name a = true -> plain_name b = true ->
  String.eqb a b = false ->
  FS.lstat (Path.resolve (cwd w) g) (fs w) = inr (FS.Dir es) ->
  FS.assoc a es = Some x -> FS.assoc b es = None ->
  OS.move (Path.join g [a]) (Path.join g [b]) w
  = ([], OS.set_fs w (FS.graft (Path.resolve (cwd w) g)
                        (FS.Dir (FS.assoc_set b x (FS.assoc_del a es)))
                        (fs w)),
     Ok tt).
Proof.
  intros Ha Hb Hab Hd Hx Hfree. unfold OS.move.
  rewrite (bind_pure (OS.path_isdir _) _ w false).
  2:{ unfold OS.path_isdir, OS.isdir_in, FS.is_dir, FS.lookup.
      rewrite (locate_sibling w g b Hb), lstat_app, Hd. simpl.
      rewrite Hfree. reflexivity. }
  rewrite bind_ret.
  unfold try_except, OS.rename.
  rewrite (locate_sibling w g a Ha), (locate_sibling w g b Hb).
  rewrite (rename_sibling _ a b (fs w) es x Hab Hd Hx Hfree). reflexivity.
Qed.

End Swap.

(** X11.  [swap_in_fat] (the two [shutil.move] after a merge) does what its
    names say when the directory holds the bundle and its [fat-] copy and
    no [bak-] entry: it returns, the bundle's name then holds what the
    [fat-] copy was, the [bak-] name holds the original bundle, the [fat-]
    name is gone, and nothing else in the directory changes. *)
Theorem swap_in_fat_swaps :
  forall (O : Type) (w : World O) (gn_out_dir name : string)
         (es : list (string * FS.node)) (orig fat : FS.node),
    plain_name name = true ->
    FS.lstat (Path.resolve (cwd w) gn_out_dir) (fs w) = inr (FS.Dir es) ->
    FS.assoc name es = Some orig ->
    FS.assoc ("fat-" ++ name) es = Some fat ->
    FS.assoc ("bak-" ++ name) es = None ->
    exists w',
      swap_in_fat gn_out_dir name w = ([], w', Ok tt)
      /\ lstat_in w' (Path.join gn_out_dir [name]) = inr fat
      /\ lstat_in w' (Path.join gn_out_dir ["bak-" ++ name]) = inr orig
      /\ lstat_in w' (Path.join gn_out_dir ["fat-" ++ name]) = inl FS.ENOENT
      /\ forall other,
           plain_name other = true ->
           other <> name -> other <> "bak-" ++ name -> other <> "fat-" ++ name ->
           lstat_in w' (Path.join gn_out_dir [other])
           = lstat_in w (Path.join gn_out_dir [other]).
Proof.
  intros O w g name es orig fat Hn Hd Horig Hfat Hbak.
  pose proof (plain_name_bak name Hn) as Hnb.
  pose proof (plain_name_fat name Hn) as Hnf.
  assert (Hne1 : String.eqb name ("bak-" ++ name) = false)
    by apply eqb_tagged.
  assert (Hne2 : String.eqb name ("fat-" ++ name) = false)
    by apply eqb_tagged.
  assert (Hne3 : String.eqb ("fat-" ++ name) ("bak-" ++ name) = false)
    by reflexivity.
  assert (Hne4 : String.eqb ("bak-" ++ name) ("fat-" ++ name) = false)
    by reflexivity.
  set (P := Path.resolve (cwd w) g) in *.
  set (es1 := FS.assoc_set ("bak-" ++ name) orig (FS.assoc_del name es)).
  set (w1 := OS.set_fs w (FS.graft P (FS.Dir es1) (fs w))).
  assert (Hd1 : FS.lstat (Path.resolve (cwd w1) g) (fs w1) = inr (FS.Dir es1))
    by (apply (lstat_graft_here P (fs w) (FS.Dir es)); exact Hd).
  assert (Hfat1 : FS.assoc ("fat-" ++ name) es1 = Some fat).
  { unfold es1. rewrite assoc_set_other by exact Hne3.
    rewrite assoc_del_other by (rewrite String.eqb_sym; exact Hne2).
    exact Hfat. }
  assert (Hfree1 : FS.assoc name es1 = None).
  { unfold es1. rewrite assoc_set_other by exact Hne1.
    apply assoc_del_same. }
  set (es2 := FS.assoc_set name fat (FS.assoc_del ("fat-" ++ name) es1)).
  set (w2 := OS.set_fs w (FS.graft P (FS.Dir es2) (fs w))).
  assert (Hd2 : FS.lstat (Path.resolve (cwd w2) g) (fs w2) = inr (FS.Dir es2))
    by (apply (lstat_graft_here P (fs w) (FS.Dir es)); exact Hd).
  exists w2. split.
  { unfold swap_in_fat.
    rewrite (bind_quiet _ _ w w1 tt
               (move_sibling w g name ("bak-" ++ name) es orig
                  Hn Hnb Hne1 Hd Horig Hbak)).
    rewrite (move_sibling w1 g ("fat-" ++ name) name es1 fat
               Hnf Hn (eq_trans (String.eqb_sym _ _) Hne2) Hd1 Hfat1 Hfree1).
    unfold w2, w1, OS.set_fs; cbn [fs cwd environ ext].
    fold P. rewrite (graft_graft P (fs w) (FS.Dir es)) by exact Hd.
    reflexivity. }
  split.
  { rewrite (lstat_in_sibling w2 g name es2 Hn Hd2).
    unfold es2. rewrite assoc_set_same. reflexivity. }
  split.
  { rewrite (lstat_in_sibling w2 g _ es2 Hnb Hd2).
    unfold es2. rewrite assoc_set_other
      by (rewrite String.eqb_sym; exact Hne1).
    rewrite assoc_del_other by exact Hne4.
    unfold es1. rewrite assoc_set_same. reflexivity. }
  split.
  { rewrite (lstat_in_sibling w2 g _ es2 Hnf Hd2).
    unfold es2. rewrite assoc_set_other
      by (rewrite String.eqb_sym; exact Hne2).
    rewrite assoc_del_same. reflexivity. }
  intros other Ho N1 N2 N3.
  apply String.eqb_neq in N1, N2, N3.
  rewrite (lstat_in_sibling w2 g other es2 Ho Hd2).
  rewrite (lstat_in_sibling w g other es Ho Hd).
  unfold es2, es1.
  rewrite assoc_set_other by exact N1.
  rewrite assoc_del_other by exact N3.
  rewrite assoc_set_other by exact N2.
  rewrite assoc_del_other by exact N1.
  reflexivity.
Qed.

Lemma swap_in_fat_swaps_witness :
  exists w',
    swap_in_fat "out/sim" "WebRTC.framework" with_fat_copy = ([], w', Ok tt)
    /\ lstat_in w' (Path.join "out/sim" ["WebRTC.framework"])
       = inr (FS.Dir [("WebRTC", FS.File "arm64+x64")])
    /\ lstat_in w' (Path.join "out/sim" ["bak-" ++ "WebRTC.framework"])
       = inr (FS.Dir [("WebRTC", FS.File "arm64")])
    /\ lstat_in w' (Path.join "out/sim" ["fat-" ++ "WebRTC.framework"])
       = inl FS.ENOENT
    /\ forall other,
         plain_name other = true ->
         other <> "WebRTC.framework" ->
         other <> "bak-" ++ "WebRTC.framework" ->
         other <> "fat-" ++ "WebRTC.framework" ->
         lstat_in w' (Path.join "out/sim" [other])
         = lstat_in with_fat_copy (Path.join "out/sim" [other]).
Proof.
  apply (swap_in_fat_swaps _ with_fat_copy "out/sim" "WebRTC.framework"
           [ ("WebRTC.framework", FS.Dir [("WebRTC", FS.File "arm64")]);
             ("fat-WebRTC.framework",
              FS.Dir [("WebRTC", FS.File "arm64+x64")]) ]);
    vm_compute; reflexivity.
Defined.

(** ** Where [setup] runs [gclient sync] *)

Lemma setup_first_run {O} (tools : Tools O) target_dir platform (w : World O)
    path0 :
  Path.is_abs target_dir = true ->
  OS.isdir_in w (Path.join target_dir ["depot_tools"]) = true ->
  FS.assoc "PATH" (environ w) = Some path0 ->
  lstat_in w (Path.join target_dir ["webrtc"; platform_name platform])
  = inl FS.ENOENT ->
  exists n',
    FS.lstat (Path.resolve []
                (Path.join target_dir ["webrtc"; platform_name platform])) n'
    = inr (FS.Dir [])
    /\ setup tools target_dir platform w
       = (print ("Fetching WebRTC for " ++ platform_name platform ++ "...") ;;
          sh tools (fetch_cmd platform)
            (Some (setup_env target_dir path0 (environ w))) None ;;
          setup_sync_part tools target_dir platform
            (setup_env target_dir path0 (environ w)))
           (mkWorld n'
              (Path.resolve []
                 (Path.join target_dir ["webrtc"; platform_name platform]))
              (environ w) (ext w)).
Proof.
  intros Habs Hdepot Hpath Hmiss.
  assert (Htarget : OS.isdir_in w target_dir = true).
  { apply (isdir_in_child_abs w target_dir "depot_tools"); auto.
    exists "depot_tools". reflexivity. }
  destruct (isdir_in_lstat w target_dir Htarget) as (cs & es & Hl & Hs).
  rewrite (locate_abs w _ Habs) in Hl. injection Hl as <-.
  set (webrtc_dir := Path.join target_dir ["webrtc"; platform_name platform])
    in *.
  assert (Hwabs : Path.is_abs webrtc_dir = true).
  { unfold webrtc_dir. cbn [Path.join fold_left].
    repeat apply is_abs_join2. exact Habs. }
  set (w1 := mkWorld (fs w) (Path.resolve [] target_dir) (environ w) (ext w)).
  unfold lstat_in in Hmiss. rewrite (locate_abs w _ Hwabs) in Hmiss.
  destruct (mkdirs_enoent _ _ Hmiss) as (n' & Hmk & Hn').
  exists n'. split; [exact Hn'|].
  unfold setup.
  rewrite (bind_quiet _ _ w w tt) by (apply mkdirp_existing_dir; exact Htarget).
  rewrite (bind_quiet _ _ w w1 tt)
    by (apply (chdir_run w target_dir _ es); [apply locate_abs; exact Habs|exact Hs]).
  rewrite (bind_quiet (OS.path_isdir _) _ w1 w1 true).
  2:{ unfold OS.path_isdir, w1. rewrite isdir_in_abs, Hdepot; [reflexivity|].
      apply is_abs_join2; exact Habs. }
  cbn [negb]. rewrite bind_ret.
  rewrite (bind_quiet OS.environ_copy _ w1 w1 (environ w)) by reflexivity.
  rewrite (bind_quiet (OS.dict_get _ _) _ w1 w1 path0)
    by (unfold OS.dict_get; rewrite Hpath; reflexivity).
  fold webrtc_dir.
  rewrite (bind_quiet (OS.path_isdir _) _ w1 w1 false).
  2:{ unfold OS.path_isdir, OS.isdir_in, FS.is_dir, FS.lookup.
      rewrite (locate_abs w1 _ Hwabs). unfold w1; cbn [fs].
      rewrite Hmiss. reflexivity. }
  cbn [negb]. rewrite !bind_assoc.
  rewrite (bind_quiet (mkdirp webrtc_dir) _ w1 (OS.set_fs w1 n') tt).
  2:{ rewrite mkdirp_run, (locate_abs w1 _ Hwabs). unfold w1; cbn [fs].
      rewrite Hmk. reflexivity. }
  rewrite !bind_assoc.
  rewrite (bind_quiet (OS.chdir webrtc_dir) _ (OS.set_fs w1 n')
             (mkWorld n' (Path.resolve [] webrtc_dir) (environ w) (ext w)) tt).
  2:{ exact (chdir_run (OS.set_fs w1 n') webrtc_dir _ []
               (locate_abs _ _ Hwabs) Hn'). }
  rewrite !bind_assoc. reflexivity.
Qed.

(** X12.  [setup] runs [gclient sync] wherever it happens to stand.  With
    depot_tools in place and [PATH] set: when [webrtc/<platform>] already
    exists, [setup] is [gclient sync] (and the Android installer) started
    in the target directory; when it is missing, [setup] creates it empty,
    enters it, and runs the fetch and then [gclient sync] from there.  In
    both cases the commands get the process environment with depot_tools
    appended to [PATH]. *)
Theorem setup_runs_gclient_where_it_stands :
  forall (O : Type) (tools : Tools O) (target_dir : string)
         (platform : Platform) (w : World O) (path0 : string),
    Path.is_abs target_dir = true ->
    OS.isdir_in w (Path.join target_dir ["depot_tools"]) = true ->
    FS.assoc "PATH" (environ w) = Some path0 ->
    (OS.isdir_in w (Path.join target_dir ["webrtc"; platform_name platform])
     = true ->
     setup tools target_dir platform w
     = setup_sync_part tools target_dir platform
         (setup_env target_dir path0 (environ w))
         (mkWorld (fs w) (Path.resolve [] target_dir) (environ w) (ext w)))
    /\ (lstat_in w (Path.join target_dir ["webrtc"; platform_name platform])
        = inl FS.ENOENT ->
        exists n',
          FS.lstat (Path.resolve []
                      (Path.join target_dir ["webrtc"; platform_name platform]))
            n'
          = inr (FS.Dir [])
          /\ setup tools target_dir platform w
             = (print ("Fetching WebRTC for " ++ platform_name platform ++ "...") ;;
                sh tools (fetch_cmd platform)
                  (Some (setup_env target_dir path0 (environ w))) None ;;
                setup_sync_part tools target_dir platform
                  (setup_env target_dir path0 (environ w)))
                 (mkWorld n'
                    (Path.resolve []
                       (Path.join target_dir ["webrtc"; platform_name platform]))
                    (environ w) (ext w))).
Proof.
  intros O tools target_dir platform w path0 Habs Hdepot Hpath. split.
  - intros Hwebrtc.
    apply (setup_again_run tools target_dir platform w path0); assumption.
  - apply setup_first_run; assumption.
Qed.

Lemma setup_runs_gclient_where_it_stands_witness :
  setup Toolchain.run "/work/build_webrtc" Android (Sample.after_setup [])
  = setup_sync_part Toolchain.run "/work/build_webrtc" Android
      (setup_env "/work/build_webrtc" "/usr/bin:/bin"
         (environ (Sample.after_setup [])))
      (mkWorld (fs (Sample.after_setup [])) ["work"; "build_webrtc"]
         (environ (Sample.after_setup [])) (ext (Sample.after_setup []))).
Proof.
  apply (setup_runs_gclient_where_it_stands _ Toolchain.run
           "/work/build_webrtc" Android (Sample.after_setup [])
           "/usr/bin:/bin");
    vm_compute; reflexivity.
Defined.

(** ** Build-output directories within one run *)

Lemma named_dirs_app f a b :
  named_dirs f (a ++ b) = (named_dirs f a ++ named_dirs f b)%list.
Proof. apply flat_map_app. Qed.

(** The commands of every build, of either platform, are a prefix of
    [build_commands], and all of it when the build returns. *)
Lemma build_follows {O} (tools : Tools O) target_dir platform debug
    (w : World O) :
  exists src rest,
    build_commands target_dir platform debug src
    = (command_lines (events (build tools target_dir platform debug w))
         ++ rest)%list
    /\ (forall a, result (build tools target_dir platform debug w) = Ok a ->
                  rest = []).
Proof.
  destruct platform.
  - destruct (OS.locate w (Path.join target_dir ["webrtc"; "ios"; "src"]))
      as [src|] eqn:Hl.
    + exists src. apply ios_build_follows. exact Hl.
    + exists [].
      rewrite build_without_source
        by (unfold OS.isdir_in; cbn [platform_name]; rewrite Hl; reflexivity).
      apply stops_before_commands; [repeat constructor|discriminate].
  - exists []. apply follows_build_android.
Qed.

(** The directories named by the [gn gen] lines of [build_commands], and
    those named by its [ninja] lines, are the directories of the
    descriptors, in the order of the descriptors. *)
Lemma named_dirs_of_build target_dir platform debug src :
  named_dirs gn_gen_dir (build_commands target_dir platform debug src)
  = out_dirs_of_run platform debug
  /\ named_dirs ninja_dir (build_commands target_dir platform debug src)
     = out_dirs_of_run platform debug.
Proof. destruct platform, debug; split; vm_compute; reflexivity. Qed.

Lemma out_dirs_of_run_NoDup platform debug :
  NoDup (out_dirs_of_run platform debug).
Proof.
  destruct platform, debug; vm_compute;
    repeat (constructor;
            [ let H := fresh in
              intros H; simpl in H;
              repeat (destruct H as [H|H]; [discriminate H|]); exact H
            | ]);
    constructor.
Qed.

(** C9.  Within one run of [build] (one platform, one mode):
    - the directories named by the [gn gen] commands the run issues are, in
      order, the directories [out/<mode>-<key>] of the descriptors of the
      platform (a prefix of them, and all of them when the build returns),
      and so are the directories named by its [ninja -C] commands;
    - no directory is named twice by the [gn gen] commands, nor by the
      [ninja] commands: two configurations of one run never share an
      output directory;
    - the directory is a function of the mode and the descriptor, and two
      distinct descriptors of the run get distinct directories. *)
Theorem gn_out_dirs_do_not_collide :
  forall (O : Type) (tools : Tools O) (target_dir : string)
         (platform : Platform) (debug : bool) (w : World O),
    (exists rest,
        out_dirs_of_run platform debug
        = (named_dirs gn_gen_dir
             (command_lines
                (events (build tools target_dir platform debug w)))
             ++ rest)%list
        /\ (forall a, result (build tools target_dir platform debug w) = Ok a ->
                      rest = []))
    /\ (exists rest,
          out_dirs_of_run platform debug
          = (named_dirs ninja_dir
               (command_lines
                  (events (build tools target_dir platform debug w)))
               ++ rest)%list
          /\ (forall a,
                 result (build tools target_dir platform debug w) = Ok a ->
                 rest = []))
    /\ NoDup (named_dirs gn_gen_dir
                (command_lines
                   (events (build tools target_dir platform debug w))))
    /\ NoDup (named_dirs ninja_dir
                (command_lines
                   (events (build tools target_dir platform debug w))))
    /\ (forall k1 k2,
          In k1 (arch_keys platform) ->
          In k2 (arch_keys platform) ->
          k1 <> k2 ->
          exists d1 d2,
            gn_out_dir_of (build_type_of debug) k1 = Some d1
            /\ gn_out_dir_of (build_type_of debug) k2 = Some d2
            /\ d1 <> d2).
Proof.
  intros O tools target_dir platform debug w.
  destruct (build_follows tools target_dir platform debug w)
    as (src & rest & Hrest & Hdone).
  destruct (named_dirs_of_build target_dir platform debug src) as [Hgn Hninja].
  rewrite Hrest, named_dirs_app in Hgn, Hninja.
  pose proof (out_dirs_of_run_NoDup platform debug) as Hnd.
  assert (Hlast : forall f a,
             result (build tools target_dir platform debug w) = Ok a ->
             named_dirs f rest = [])
    by (intros f a Ha; rewrite (Hdone a Ha); reflexivity).
  split; [exists (named_dirs gn_gen_dir rest); split; [auto|apply Hlast]|].
  split; [exists (named_dirs ninja_dir rest); split; [auto|apply Hlast]|].
  split; [rewrite <- Hgn in Hnd; apply (NoDup_app_remove_r _ _ Hnd)|].
  split; [rewrite <- Hninja in Hnd; apply (NoDup_app_remove_r _ _ Hnd)|].
  intros k1 k2. apply gn_out_dir_injective.
Qed.

(** A Release build for iOS on the machine a first [--setup --ios] left:
    five configurations, five directories. *)
Lemma gn_out_dirs_do_not_collide_witness :
  named_dirs gn_gen_dir
    (command_lines
       (events (build Toolchain.run "/work/build_webrtc" Ios false
                  ios_after_setup)))
  = [ "out/Release-ios-device-arm64"; "out/Release-ios-simulator-arm64";
      "out/Release-ios-simulator-x64"; "out/Release-macos-arm64";
      "out/Release-macos-x64" ].
Proof.
  destruct (gn_out_dirs_do_not_collide _ Toolchain.run "/work/build_webrtc"
              Ios false ios_after_setup)
    as [(rest & E & Hr) _].
  rewrite (Hr tt) in E by (vm_compute; reflexivity).
  rewrite app_nil_r in E. rewrite <- E. reflexivity.
Defined.
